(** * slack-messages: indexing and search core

    A shallow embedding of the indexer (buildIndex, updateIndex), of the
    structured store (the SQLite [messages] table and the queries run
    against it) and of the searcher (search, searchBySender, searchByText,
    getContacts), followed by the properties of the specification that
    these functions decide.

    Conventions.
    - JavaScript strings are [string]; [toLowerCase], [trim] and the
      comparison operators act on the ASCII range. A statement that
      depends on the case fold or on white space takes the text involved
      to be ASCII ([ascii_text]), where the model and the JavaScript and
      SQLite functions coincide.
    - JavaScript numbers that hold counts, limits and Unix times are [Z];
      a [Date] is its [getTime()] value in milliseconds. A Slack timestamp
      is read by its leading digits, which is what
      [Math.floor(Number.parseFloat(ts))] gives on Slack's format
      ([slack_ts]).
    - A table is the list of its rows in rowid order. The keys of the
      model are consecutive, those of SQLite increase with gaps; and SQL
      leaves the order of rows with equal sort keys open. The statements
      on stored rows and on query results are written so as to hold for
      any increasing keys and any order of such rows.
    - A function that can throw returns a sum, or runs in the small
      state-and-exception monad [M] of the searcher. *)

From Stdlib Require Import ZArith QArith String Ascii List Bool Lia Permutation.
From stdpp Require Import base option list gmap strings sorting.

Local Open Scope string_scope.
Local Open Scope list_scope.
Local Open Scope Z_scope.

(** ** JavaScript and SQLite primitives *)

Module Js.

(** [x || y] on strings: the first truthy (non-empty) operand. *)
Definition or_else (x y : string) : string :=
  if String.eqb x "" then y else x.

Definition truthy (s : string) : bool := negb (String.eqb s "").

(** [from ? ... : ...] for an optional string: [undefined] and [""] are falsy. *)
Definition truthy_opt (o : option string) : bool :=
  match o with Some s => truthy s | None => false end.

Definition lower_ascii (c : ascii) : ascii :=
  let n := nat_of_ascii c in
  if ((65 <=? n) && (n <=? 90))%nat then ascii_of_nat (n + 32) else c.

Fixpoint toLowerCase (s : string) : string :=
  match s with
  | EmptyString => EmptyString
  | String c r => String (lower_ascii c) (toLowerCase r)
  end.

(** White space as [String.prototype.trim] sees it in the ASCII range:
    TAB, LF, VT, FF, CR and SPACE. *)
Definition is_ws (c : ascii) : bool :=
  let n := nat_of_ascii c in
  ((9 <=? n) && (n <=? 13) || (n =? 32))%nat.

Fixpoint trimStart (s : string) : string :=
  match s with
  | EmptyString => EmptyString
  | String c r => if is_ws c then trimStart r else s
  end.

(** [trimEnd] drops the trailing run of white space. *)
Fixpoint trimEnd (s : string) : string :=
  match s with
  | EmptyString => EmptyString
  | String c r =>
      match trimEnd r with
      | EmptyString => if is_ws c then EmptyString else String c EmptyString
      | r' => String c r'
      end
  end.

Definition trim (s : string) : string := trimEnd (trimStart s).

Fixpoint all_ws (s : string) : bool :=
  match s with
  | EmptyString => true
  | String c r => is_ws c && all_ws r
  end.

(** [hay.includes(needle)] *)
Fixpoint includes (hay needle : string) : bool :=
  String.prefix needle hay ||
  match hay with
  | EmptyString => false
  | String _ r => includes r needle
  end.

(** Truthiness of an optional object: only [undefined] is falsy. *)
Definition present {A} (o : option A) : bool :=
  match o with Some _ => true | None => false end.

(** [a > b] on strings: lexicographic on the code units. *)
Definition gt (a b : string) : bool := String.ltb b a.

(** [arr.slice(0, n)]: a negative [n] counts from the end. *)
Definition slice0 {A} (n : Z) (l : list A) : list A :=
  if 0 <=? n then firstn (Z.to_nat n) l
  else firstn (Z.to_nat (Z.of_nat (List.length l) + n)) l.

End Js.

Module Sql.

(** [LIMIT n]: a negative [n] means no limit. *)
Definition limit {A} (n : Z) (l : list A) : list A :=
  if n <? 0 then l else firstn (Z.to_nat n) l.

(** Stable insertion into a list sorted by [le]. *)
Fixpoint insert_by {A} (le : A -> A -> bool) (x : A) (l : list A) : list A :=
  match l with
  | [] => [x]
  | y :: r => if le x y then x :: l else y :: insert_by le x r
  end.

(** [ORDER BY]: in the model rows with equal keys stay in rowid order. SQL
    leaves their order open, and the statements on query results do not
    depend on it. *)
Definition order_by {A} (le : A -> A -> bool) (l : list A) : list A :=
  fold_right (insert_by le) [] l.

(** [s LIKE pat] without ESCAPE: [%] matches any run of characters,
    [_] exactly one, any other character itself up to ASCII case. *)
Fixpoint like_chars (pat s : list ascii) {struct pat} : bool :=
  match pat with
  | [] => match s with [] => true | _ => false end
  | c :: p =>
      if Ascii.eqb c "%" then
        (fix any (t : list ascii) : bool :=
           like_chars p t ||
           match t with [] => false | _ :: t' => any t' end) s
      else
        match s with
        | [] => false
        | d :: s' =>
            (Ascii.eqb c "_" || Ascii.eqb (Js.lower_ascii c) (Js.lower_ascii d))
            && like_chars p s'
        end
  end.

Definition like (s pat : string) : bool :=
  like_chars (list_ascii_of_string pat) (list_ascii_of_string s).

(** [LOWER(s)] folds the ASCII letters only. *)
Definition lower (s : string) : string := Js.toLowerCase s.

End Sql.

(** ** types.ts *)

Record SlackUser := {
  user_id : string;
  user_name : string;
  user_realName : string;
  user_displayName : string }.

Record SlackConversation := {
  conv_id : string;
  conv_name : string;
  conv_isChannel : bool;
  conv_isPrivate : bool;
  conv_isIm : bool;
  conv_isMpim : bool;
  conv_userId : option string }.

Record SlackMessage := {
  ts : string;
  user : string;
  text : string;
  channelId : string;
  threadTs : option string;
  replyCount : Z }.

Record IndexedMessage := {
  id : Z;
  im_text : string;
  sender : string;
  chatName : string;
  chatId : string;
  date : Z;
  isFromMe : bool;
  im_threadTs : option string }.

Record SearchResult := {
  message : IndexedMessage;
  score : Q;
  matchedTerms : list string }.

Record SearchResultWithContext := {
  result : SearchResult;
  before : list IndexedMessage;
  after : list IndexedMessage }.

Record SearchOptions := {
  query : option string;
  from : option string;
  opt_after : option Z;
  limit : Z;
  context : Z }.

Record IndexStats := {
  totalMessages : Z;
  totalChats : Z;
  totalContacts : Z;
  indexedAt : Z;
  oldestMessage : Z;
  newestMessage : Z;
  workspaceId : string;
  workspaceName : string;
  conversationCursors : gmap string string }.

(** The decimal value of the leading digits of [s]. *)
Fixpoint leading_digits (s : string) (acc : Z) : Z :=
  match s with
  | EmptyString => acc
  | String c r =>
      let n := Z.of_nat (nat_of_ascii c) in
      if (48 <=? n) && (n <=? 57) then leading_digits r (10 * acc + (n - 48))
      else acc
  end.

(** [Math.floor(Number.parseFloat(ts))] on a Slack timestamp
    ["seconds.micros"]: the integer part. A [ts] outside this format (no
    leading digit, for which JavaScript gives NaN; a sign, an exponent, or
    more digits than a double holds) is not covered: the statements on
    dates take the timestamps to have Slack's format ([slack_ts]). *)
Definition slackTsToUnix (ts : string) : Z := leading_digits ts 0.

(** ** The structured store: the [messages] table of index.db *)

Record Row := {
  row_id : Z;
  row_ts : string;
  row_text : string;
  row_sender : string;
  chat_name : string;
  chat_id : string;
  row_date : Z;
  is_from_me : Z;
  thread_ts : option string }.

Definition Table := list Row.

(** The next AUTOINCREMENT key of the model: one more than the largest key
    in use. SQLite also uses up a key for an insertion it ignores, so that
    its keys increase with gaps; the statements on stored rows leave the
    keys open, apart from their being pairwise distinct. *)
Definition next_id (t : Table) : Z :=
  1 + fold_right Z.max 0 (map row_id t).

Definition has_ts (t : Table) (s : string) : bool :=
  existsb (fun r => String.eqb (row_ts r) s) t.

(** [INSERT OR IGNORE INTO messages (ts, text, sender, chat_name, chat_id,
    date, is_from_me, thread_ts) VALUES (...)]: the UNIQUE constraint on
    [ts] turns a second insertion of the same [ts] into a no-op. *)
Definition insertMessages (t : Table)
    (ts text sender chat_name chat_id : string) (date is_from_me : Z)
    (thread_ts : option string) : Table :=
  if has_ts t ts then t
  else t ++ [ {| row_id := next_id t; row_ts := ts; row_text := text;
                 row_sender := sender; chat_name := chat_name;
                 chat_id := chat_id; row_date := date;
                 is_from_me := is_from_me; thread_ts := thread_ts |} ].

Record RawSlackMessage := {
  raw_ts : string;
  raw_user : string;
  raw_text : string;
  raw_channelId : string;
  raw_channelName : string;
  raw_threadTs : option string }.

(** ** slack-api.ts: the remote collaborator

    Each call either throws ([None]) or returns its list. The two message
    feeds give the messages that pass the checks of the wrapper on type,
    text and subtype, pages concatenated. *)

Record AuthInfo := {
  userId : string;
  teamId : string;
  teamName : string }.

Record SlackApi := {
  testAuth : option AuthInfo;
  listUsers : option (list SlackUser);
  listConversations : option (list SlackConversation);
  conversations_history : string -> option string -> option (list SlackMessage);
  conversations_replies : string -> string -> option (list SlackMessage) }.

(** [getConversationHistory] stamps every message with the channel asked for. *)
Definition getConversationHistory (api : SlackApi) (channel : string)
    (oldest : option string) : option (list SlackMessage) :=
  option_map
    (map (fun m => {| ts := ts m; user := user m; text := text m;
                      channelId := channel; threadTs := threadTs m;
                      replyCount := replyCount m |}))
    (conversations_history api channel oldest).

(** [getThreadReplies] drops the parent and stamps channel and thread. *)
Definition getThreadReplies (api : SlackApi) (channel thread : string)
    : option (list SlackMessage) :=
  option_map
    (fun l =>
       map (fun m => {| ts := ts m; user := user m; text := text m;
                        channelId := channel; threadTs := Some thread;
                        replyCount := 0 |})
           (List.filter (fun m => negb (String.eqb (ts m) thread)) l))
    (conversations_replies api channel thread).

(** ** The fuzzy index

    A MiniSearch index is the list of the documents added to it, with
    their stored fields. [addAll] throws on an id the index already holds. *)

Definition MiniSearch := list IndexedMessage.

Definition has_doc (ms : MiniSearch) (i : Z) : bool :=
  existsb (fun d => id d =? i) ms.

Fixpoint addAll (ms : MiniSearch) (docs : list IndexedMessage) : option MiniSearch :=
  match docs with
  | [] => Some ms
  | d :: r => if has_doc ms (id d) then None else addAll (ms ++ [d]) r
  end.

(** ** The persisted artifacts and the indexer *)

Record Files := {
  INDEX_DB : option Table;
  FUZZY_INDEX : option MiniSearch;
  STATS : option IndexStats;
  USERS_CACHE : option (gmap string SlackUser);
  defaultWorkspace : option string }.

Inductive Error :=
| NoWorkspace
| AuthenticationFailed
| ListUsersFailed
| ListConversationsFailed
| NoSuchTable
| FuzzyFileMissing
| DuplicateID
| IndexNotFound
| FuzzyIndexNotFound.

Definition indexExists (fs : Files) : bool :=
  match INDEX_DB fs, FUZZY_INDEX fs with
  | Some _, Some _ => true
  | _, _ => false
  end.

Definition getStats (fs : Files) : option IndexStats := STATS fs.

Definition saveStats (stats : IndexStats) (fs : Files) : Files :=
  {| INDEX_DB := INDEX_DB fs; FUZZY_INDEX := FUZZY_INDEX fs;
     STATS := Some stats; USERS_CACHE := USERS_CACHE fs;
     defaultWorkspace := defaultWorkspace fs |}.

Definition loadUsersCache (fs : Files) : gmap string SlackUser :=
  match USERS_CACHE fs with Some m => m | None => ∅ end.

Definition saveUsersCache (users : gmap string SlackUser) (fs : Files) : Files :=
  {| INDEX_DB := INDEX_DB fs; FUZZY_INDEX := FUZZY_INDEX fs;
     STATS := STATS fs; USERS_CACHE := Some users;
     defaultWorkspace := defaultWorkspace fs |}.

Definition writeIndexDb (t : Table) (fs : Files) : Files :=
  {| INDEX_DB := Some t; FUZZY_INDEX := FUZZY_INDEX fs;
     STATS := STATS fs; USERS_CACHE := USERS_CACHE fs;
     defaultWorkspace := defaultWorkspace fs |}.

Definition writeFuzzyIndex (ms : MiniSearch) (fs : Files) : Files :=
  {| INDEX_DB := INDEX_DB fs; FUZZY_INDEX := Some ms;
     STATS := STATS fs; USERS_CACHE := USERS_CACHE fs;
     defaultWorkspace := defaultWorkspace fs |}.

(** [new Map(users.map((u) => [u.id, u]))]: a later entry replaces an
    earlier one with the same id. *)
Definition userMapOf (users : list SlackUser) : gmap string SlackUser :=
  fold_left (fun m u => <[user_id u := u]> m) users ∅.

Definition resolveUserName (userMap : gmap string SlackUser) (uid : string) : string :=
  match userMap !! uid with
  | Some u =>
      Js.or_else (user_displayName u)
        (Js.or_else (user_realName u) (Js.or_else (user_name u) uid))
  | None => uid
  end.

Definition resolveConversationName (userMap : gmap string SlackUser)
    (conv : SlackConversation) : string :=
  match conv_userId conv with
  | Some u => if conv_isIm conv && Js.truthy u then resolveUserName userMap u
              else conv_name conv
  | None => conv_name conv
  end.

Definition toRaw (channelName : string) (m : SlackMessage) : RawSlackMessage :=
  {| raw_ts := ts m; raw_user := user m; raw_text := text m;
     raw_channelId := channelId m; raw_channelName := channelName;
     raw_threadTs := threadTs m |}.

Definition insertRaw (userMap : gmap string SlackUser) (me : string)
    (t : Table) (msg : RawSlackMessage) : Table :=
  insertMessages t (raw_ts msg) (raw_text msg)
    (resolveUserName userMap (raw_user msg))
    (raw_channelName msg) (raw_channelId msg)
    (slackTsToUnix (raw_ts msg))
    (if String.eqb (raw_user msg) me then 1 else 0)
    (match raw_threadTs msg with
     | Some s => if Js.truthy s then Some s else None
     | None => None
     end).

(** [insertBatch]: the transaction runs [insertMessages] on every message
    of the batch, in order. *)
Definition insertBatch (userMap : gmap string SlackUser) (me : string)
    (t : Table) (batch : list RawSlackMessage) : Table :=
  fold_left (insertRaw userMap me) batch t.

(** [!cursors[k] || ts > cursors[k]] then [cursors[k] = ts] *)
Definition advance (cursors : gmap string string) (k ts : string)
    : gmap string string :=
  match cursors !! k with
  | Some c => if negb (Js.truthy c) || Js.gt ts c then <[k := ts]> cursors
              else cursors
  | None => <[k := ts]> cursors
  end.

Definition rowToIndexed (r : Row) : IndexedMessage :=
  {| id := row_id r; im_text := row_text r; sender := row_sender r;
     chatName := chat_name r; chatId := chat_id r; date := row_date r;
     isFromMe := is_from_me r =? 1;
     im_threadTs := match thread_ts r with
                    | Some s => if Js.truthy s then Some s else None
                    | None => None
                    end |}.

Definition distinct (l : list string) : Z :=
  Z.of_nat (size (list_to_set l : gset string)).

(** The per-message body of the fetch loop of [buildIndex]: push the
    message, then its thread replies. A throw of [getThreadReplies] leaves
    the loop of this conversation; what was pushed stays. *)
Fixpoint fetchMessages (api : SlackApi) (conv channelName : string)
    (msgs : list SlackMessage) (all : list RawSlackMessage)
    : list RawSlackMessage :=
  match msgs with
  | [] => all
  | msg :: rest =>
      let all1 := all ++ [toRaw channelName msg] in
      if 0 <? replyCount msg then
        match getThreadReplies api conv (ts msg) with
        | Some replies =>
            fetchMessages api conv channelName rest
              (all1 ++ map (toRaw channelName) replies)
        | None => all1
        end
      else fetchMessages api conv channelName rest all1
  end.

Definition fetchConversation (api : SlackApi) (userMap : gmap string SlackUser)
    (all : list RawSlackMessage) (conv : SlackConversation)
    : list RawSlackMessage :=
  match getConversationHistory api (conv_id conv) None with
  | Some messages =>
      fetchMessages api (conv_id conv)
        (resolveConversationName userMap conv) messages all
  | None => all
  end.

Definition BATCH_SIZE : Z := 1000.
Definition MINI_BATCH : nat := 5000.

Record BuildLoop := {
  oldestDate : option Z;
  newestDate : Z;
  cursors : gmap string string;
  db : Table;
  batch : list RawSlackMessage }.

(** One turn of [for (const msg of allMessages)] in [buildIndex]. *)
Definition buildStep (userMap : gmap string SlackUser) (me : string)
    (st : BuildLoop) (msg : RawSlackMessage) : BuildLoop :=
  let unixDate := slackTsToUnix (raw_ts msg) in
  let oldest := match oldestDate st with
                | Some o => if unixDate <? o then Some unixDate else Some o
                | None => Some unixDate
                end in
  let newest := if newestDate st <? unixDate then unixDate else newestDate st in
  let cur := advance (cursors st) (raw_channelId msg) (raw_ts msg) in
  let b := batch st ++ [msg] in
  if BATCH_SIZE <=? Z.of_nat (List.length b)
  then {| oldestDate := oldest; newestDate := newest; cursors := cur;
          db := insertBatch userMap me (db st) b; batch := [] |}
  else {| oldestDate := oldest; newestDate := newest; cursors := cur;
          db := db st; batch := b |}.

(** [for (i = 0; i < docs.length; i += n) miniSearch.addAll(docs.slice(i, i + n))] *)
Fixpoint addAllSliced (fuel n : nat) (ms : MiniSearch)
    (docs : list IndexedMessage) : option MiniSearch :=
  match fuel, docs with
  | _, [] => Some ms
  | O, _ => Some ms
  | S f, _ =>
      match addAll ms (firstn n docs) with
      | Some ms' => addAllSliced f n ms' (skipn n docs)
      | None => None
      end
  end.

Definition date_asc (a b : Row) : bool := row_date a <=? row_date b.
Definition date_desc (a b : Row) : bool := row_date b <=? row_date a.

(** [buildIndex], with the remote [api] and the clock reading [now] that
    every [new Date()] of the run returns. The FTS5 table [messages_fts] is
    written but never read, and is left out. The file index.db is written
    once, with the table the last committed batch leaves. *)
Definition buildIndex (api : SlackApi) (now : Z) (fs : Files)
    : Files * (Error + IndexStats) :=
  match defaultWorkspace fs with
  | None => (fs, inl NoWorkspace)
  | Some _ =>
  match testAuth api with
  | None => (fs, inl AuthenticationFailed)
  | Some authInfo =>
  match listUsers api with
  | None => (fs, inl ListUsersFailed)
  | Some users =>
  let userMap := userMapOf users in
  let fs := saveUsersCache userMap fs in
  match listConversations api with
  | None => (fs, inl ListConversationsFailed)
  | Some conversations =>
  let allMessages := fold_left (fetchConversation api userMap) conversations [] in
  let st := fold_left (buildStep userMap (userId authInfo)) allMessages
              {| oldestDate := None; newestDate := 0; cursors := ∅;
                 db := []; batch := [] |} in
  let table := match batch st with
               | [] => db st
               | b => insertBatch userMap (userId authInfo) (db st) b
               end in
  let fs := writeIndexDb table fs in
  let allRows := Sql.order_by date_asc table in
  let indexedMessages := map rowToIndexed allRows in
  match addAllSliced (List.length indexedMessages) MINI_BATCH [] indexedMessages with
  | None => (fs, inl DuplicateID)
  | Some miniSearch =>
  let fs := writeFuzzyIndex miniSearch fs in
  let stats :=
    {| totalMessages := Z.of_nat (List.length indexedMessages);
       totalChats := distinct (map chatId indexedMessages);
       totalContacts := distinct (map sender indexedMessages);
       indexedAt := now;
       oldestMessage := match oldestDate st with
                        | Some o => o * 1000
                        | None => now
                        end;
       newestMessage := if newestDate st =? 0 then now else newestDate st * 1000;
       workspaceId := teamId authInfo;
       workspaceName := teamName authInfo;
       conversationCursors := cursors st |} in
  (saveStats stats fs, inr stats)
  end end end end end.

(** The per-message body of the fetch loop of [updateIndex]. The cursor of
    the conversation moves only after the replies of the message were
    fetched, and only to the [ts] of the history message. *)
Fixpoint checkMessages (api : SlackApi) (conv channelName : string)
    (msgs : list SlackMessage)
    (st : list RawSlackMessage * gmap string string)
    : list RawSlackMessage * gmap string string :=
  match msgs with
  | [] => st
  | msg :: rest =>
      let new1 := fst st ++ [toRaw channelName msg] in
      if 0 <? replyCount msg then
        match getThreadReplies api conv (ts msg) with
        | Some replies =>
            checkMessages api conv channelName rest
              (new1 ++ map (toRaw channelName) replies,
               advance (snd st) conv (ts msg))
        | None => (new1, snd st)
        end
      else
        checkMessages api conv channelName rest
          (new1, advance (snd st) conv (ts msg))
  end.

Definition checkConversation (api : SlackApi) (userMap : gmap string SlackUser)
    (existing : gmap string string)
    (st : list RawSlackMessage * gmap string string)
    (conv : SlackConversation)
    : list RawSlackMessage * gmap string string :=
  match getConversationHistory api (conv_id conv) (existing !! conv_id conv) with
  | Some messages =>
      checkMessages api (conv_id conv)
        (resolveConversationName userMap conv) messages st
  | None => st
  end.

Definition in_ts_list (tsList : list string) (r : Row) : bool :=
  existsb (String.eqb (row_ts r)) tsList.

(** [updateIndex]; [inr None] is the [null] returned when there is no
    usable earlier index. [newestDate] is kept in milliseconds, so that
    [row.date > newestDate] reads [newest < row_date * 1000]. The rows of
    [WHERE ts IN (...)] come in rowid order. When index.db is missing,
    [new Database] creates an empty database file before the INSERT is
    refused for want of the table; [Files] has no state for a database
    without the [messages] table, the model leaves the files as they were,
    and nothing is stated of index.db after this failure. *)
Definition updateIndex (api : SlackApi) (now : Z) (fs : Files)
    : Files * (Error + option IndexStats) :=
  match getStats fs with
  | None => (fs, inr None)
  | Some existingStats =>
  if Nat.eqb (size (conversationCursors existingStats)) 0 then (fs, inr None) else
  match defaultWorkspace fs with
  | None => (fs, inl NoWorkspace)
  | Some _ =>
  match testAuth api with
  | None => (fs, inl AuthenticationFailed)
  | Some authInfo =>
  let userMap := loadUsersCache fs in
  match listConversations api with
  | None => (fs, inl ListConversationsFailed)
  | Some conversations =>
  let '(newMessages, updatedCursors) :=
    fold_left (checkConversation api userMap (conversationCursors existingStats))
      conversations ([], conversationCursors existingStats) in
  match newMessages with
  | [] =>
      let updatedStats :=
        {| totalMessages := totalMessages existingStats;
           totalChats := totalChats existingStats;
           totalContacts := totalContacts existingStats;
           indexedAt := now;
           oldestMessage := oldestMessage existingStats;
           newestMessage := newestMessage existingStats;
           workspaceId := workspaceId existingStats;
           workspaceName := workspaceName existingStats;
           conversationCursors := updatedCursors |} in
      (saveStats updatedStats fs, inr (Some updatedStats))
  | _ =>
  match INDEX_DB fs with
  | None => (fs, inl NoSuchTable)
  | Some table0 =>
  match FUZZY_INDEX fs with
  | None => (fs, inl FuzzyFileMissing)
  | Some miniSearch0 =>
  let table := insertBatch userMap (userId authInfo) table0 newMessages in
  let fs := writeIndexDb table fs in
  let tsList := map raw_ts newMessages in
  let newRows := List.filter (in_ts_list tsList) table in
  let newest :=
    fold_left (fun n row => if n <? row_date row * 1000
                            then row_date row * 1000 else n)
      newRows (newestMessage existingStats) in
  let newIndexedMessages := map rowToIndexed newRows in
  match addAll miniSearch0 newIndexedMessages with
  | None => (fs, inl DuplicateID)
  | Some miniSearch =>
  let fs := writeFuzzyIndex miniSearch fs in
  let updatedStats :=
    {| totalMessages := totalMessages existingStats
                        + Z.of_nat (List.length newIndexedMessages);
       totalChats := totalChats existingStats;
       totalContacts := totalContacts existingStats;
       indexedAt := now;
       oldestMessage := oldestMessage existingStats;
       newestMessage := newest;
       workspaceId := workspaceId existingStats;
       workspaceName := workspaceName existingStats;
       conversationCursors := updatedCursors |} in
  (saveStats updatedStats fs, inr (Some updatedStats))
  end end end end end end end end.

(** ** searcher.ts *)

(** The module-level handles [cachedDb] and [cachedMiniSearch]. *)
Record Caches := {
  cachedDb : option Table;
  cachedMiniSearch : option MiniSearch }.

Definition noCaches : Caches :=
  {| cachedDb := None; cachedMiniSearch := None |}.

(** A computation of the searcher reads the files, may replace the cached
    handles, and returns a value or throws. *)
Definition M (A : Type) : Type := Files -> Caches -> (Error + A) * Caches.

Definition ret {A} (a : A) : M A := fun _ c => (inr a, c).
Definition throw {A} (e : Error) : M A := fun _ c => (inl e, c).
Definition bind {A B} (m : M A) (k : A -> M B) : M B :=
  fun fs c =>
    match m fs c with
    | (inr a, c') => k a fs c'
    | (inl e, c') => (inl e, c')
    end.

Notation "x <- m ;; k" := (bind m (fun x => k))
  (at level 100, m at next level, right associativity).

Inductive EnsureResult := none | incremental | full.

Definition ensureIndex (fs : Files) : EnsureResult :=
  if negb (indexExists fs) then none else none.

Definition ensureIndexM : M EnsureResult :=
  fun fs c => (inr (ensureIndex fs), c).

Definition clearCaches : M unit :=
  fun _ _ => (inr tt, noCaches).

Definition getDb : M Table :=
  fun fs c =>
    match cachedDb c with
    | Some t => (inr t, c)
    | None =>
        match INDEX_DB fs with
        | None => (inl IndexNotFound, c)
        | Some t =>
            (inr t, {| cachedDb := Some t;
                       cachedMiniSearch := cachedMiniSearch c |})
        end
    end.

Definition getMiniSearch : M MiniSearch :=
  fun fs c =>
    match cachedMiniSearch c with
    | Some ms => (inr ms, c)
    | None =>
        match FUZZY_INDEX fs with
        | None => (inl FuzzyIndexNotFound, c)
        | Some ms =>
            (inr ms, {| cachedDb := cachedDb c; cachedMiniSearch := Some ms |})
        end
    end.

(** [rowToMessage] reads the row under the aliases of the SELECT list. *)
Definition rowToMessage (r : Row) : IndexedMessage := rowToIndexed r.

(** [after ? Math.floor(after.getTime() / 1000) : 0] *)
Definition floorSeconds (ms : Z) : Z := ms / 1000.

Definition searchBySender (db : Table) (from : string) (after : option Z)
    (limit : Z) : list SearchResult :=
  let fromLower := Js.toLowerCase from in
  let afterTimestamp := match after with
                        | Some ms => floorSeconds ms
                        | None => 0
                        end in
  let pattern := "%" +:+ fromLower +:+ "%" in
  let rows :=
    Sql.limit limit
      (Sql.order_by date_desc
         (List.filter
            (fun r => Sql.like (Sql.lower (row_sender r)) pattern
                      && (is_from_me r =? 0)
                      && (afterTimestamp <=? row_date r))
            db)) in
  map (fun row => {| message := rowToMessage row; score := 1;
                     matchedTerms := [] |}) rows.

(** The rows of the context queries:
    [WHERE chat_id = ? AND date < ? ORDER BY date DESC LIMIT ?] and
    [WHERE chat_id = ? AND date > ? ORDER BY date ASC LIMIT ?]. *)
Definition contextQuery (db : Table) (chat : string) (d n : Z) : list Row :=
  Sql.limit n
    (Sql.order_by date_desc
       (List.filter (fun r => String.eqb (chat_id r) chat && (row_date r <? d)) db)).

Definition afterContextQuery (db : Table) (chat : string) (d n : Z) : list Row :=
  Sql.limit n
    (Sql.order_by date_asc
       (List.filter (fun r => String.eqb (chat_id r) chat && (d <? row_date r)) db)).

Definition withContext (db : Table) (context : Z) (res : SearchResult)
    : SearchResultWithContext :=
  {| result := res;
     before := map rowToMessage
                 (rev (contextQuery db (chatId (message res))
                         (date (message res)) context));
     after := map rowToMessage
                (afterContextQuery db (chatId (message res))
                   (date (message res)) context) |}.

(** [query && query !== '*' && query.trim() !== ''] *)
Definition hasTextQuery (q : option string) : bool :=
  match q with
  | Some s => Js.truthy s && negb (String.eqb s "*")
              && negb (String.eqb (Js.trim s) "")
  | None => false
  end.

Section Searcher.

(** [miniSearch.search(query, { fuzzy: 0.2, prefix: true, boost })] without
    a filter: the ranked hits of the index, best first, each with the
    stored fields of its document. The [filter] option keeps the hits that
    pass it, in the same order. *)
Variable miniSearch_search : MiniSearch -> string -> list SearchResult.

Definition senderFilter (fromLower : string) (r : SearchResult) : bool :=
  negb (isFromMe (message r))
  && Js.includes (Js.toLowerCase (sender (message r))) fromLower.

Definition searchByText (q : string) (from : option string)
    (after : option Z) (limit : Z) : M (list SearchResult) :=
  miniSearch <- getMiniSearch ;;
  let fromLower := option_map Js.toLowerCase from in
  let afterTimestamp := option_map floorSeconds after in
  let hasFilters := Js.truthy_opt from || Js.present after in
  let searchLimit := if hasFilters then limit * 20 else limit in
  let fuzzyResults :=
    match fromLower with
    | Some fl =>
        if Js.truthy fl
        then List.filter (senderFilter fl) (miniSearch_search miniSearch q)
        else miniSearch_search miniSearch q
    | None => miniSearch_search miniSearch q
    end in
  match fuzzyResults with
  | [] => ret []
  | _ =>
      let results := Js.slice0 searchLimit fuzzyResults in
      let results :=
        match afterTimestamp with
        | Some t => if t =? 0 then results
                    else List.filter (fun r => t <=? date (message r)) results
        | None => results
        end in
      ret (Js.slice0 limit results)
  end.

Definition search (options : SearchOptions) : M (list SearchResultWithContext) :=
  updateResult <- ensureIndexM ;;
  _ <- (match updateResult with
        | none => ret tt
        | _ => clearCaches
        end) ;;
  db <- getDb ;;
  let hasText := hasTextQuery (query options) in
  results <-
    (if Js.truthy_opt (from options) && negb hasText
     then ret (Some (searchBySender db (default "" (from options))
                       (opt_after options) (limit options)))
     else if hasText
     then r <- searchByText (default "" (query options)) (from options)
                 (opt_after options) (limit options) ;;
          ret (Some r)
     else ret None) ;;
  match results with
  | None => ret []
  | Some rs => ret (map (withContext db (context options)) rs)
  end.

End Searcher.

(** ** Browse functions *)

Record ContactInfo := {
  name : string;
  lastMessageDate : Z;
  messageCount : Z }.

(** [WHERE sender != '' AND is_from_me = 0] *)
Definition contactRow (r : Row) : bool :=
  negb (String.eqb (row_sender r) "") && (is_from_me r =? 0).

Definition sentBy (s : string) (r : Row) : bool := String.eqb (row_sender r) s.

(** [MAX(date)] of a group. *)
Definition maxDate (g : list Row) : Z :=
  match g with
  | [] => 0
  | r :: t => fold_left Z.max (map row_date t) (row_date r)
  end.

(** One output row of [GROUP BY sender]. *)
Definition aggregate (rows : list Row) (s : string) : ContactInfo :=
  let g := List.filter (sentBy s) rows in
  {| name := s; lastMessageDate := maxDate g;
     messageCount := Z.of_nat (List.length g) |}.

Definition last_desc (a b : ContactInfo) : bool :=
  lastMessageDate b <=? lastMessageDate a.

Definition contactsOf (db : Table) (limit : Z) : list ContactInfo :=
  let rows := List.filter contactRow db in
  Sql.limit limit
    (Sql.order_by last_desc
       (map (aggregate rows) (remove_dups (map row_sender rows)))).

Definition getContacts (limit : Z) : M (list ContactInfo) :=
  _ <- ensureIndexM ;;
  db <- getDb ;;
  ret (contactsOf db limit).

(** [getRecentMessages]: [ORDER BY date DESC LIMIT ?] over the whole table. *)
Record RecentMessage := {
  rm_message : IndexedMessage;
  rm_chatName : string }.

Definition recentOf (db : Table) (limit : Z) : list RecentMessage :=
  map (fun row => {| rm_message := rowToMessage row; rm_chatName := chat_name row |})
    (Sql.limit limit (Sql.order_by date_desc db)).

Definition getRecentMessages (limit : Z) : M (list RecentMessage) :=
  _ <- ensureIndexM ;;
  db <- getDb ;;
  ret (recentOf db limit).

Record ConversationInfo := {
  cv_chatId : string;
  cv_chatName : string;
  cv_lastMessageDate : Z;
  cv_messageCount : Z;
  cv_lastMessage : option string }.

(** [WHERE chat_name != ''] *)
Definition namedRow (r : Row) : bool := negb (String.eqb (chat_name r) "").

Definition inChat (c : string) (r : Row) : bool := String.eqb (chat_id r) c.

(** One output row of [GROUP BY chat_id]. With the single aggregate
    [MAX(date)] the bare column [chat_name] is read from a row that holds the
    maximum (here the first such row); the scalar subquery reads the text of
    the newest row of the chat in the whole table, NULL when there is none. *)
Definition conversationOf (db rows : list Row) (c : string) : ConversationInfo :=
  let g := List.filter (inChat c) rows in
  {| cv_chatId := c;
     cv_chatName := match Sql.order_by date_desc g with
                    | r :: _ => chat_name r
                    | [] => ""
                    end;
     cv_lastMessageDate := maxDate g;
     cv_messageCount := Z.of_nat (List.length g);
     cv_lastMessage :=
       match Sql.limit 1 (Sql.order_by date_desc (List.filter (inChat c) db)) with
       | r :: _ => Some (row_text r)
       | [] => None
       end |}.

Definition conv_last_desc (a b : ConversationInfo) : bool :=
  cv_lastMessageDate b <=? cv_lastMessageDate a.

Definition conversationsOf (db : Table) (limit : Z) : list ConversationInfo :=
  let rows := List.filter namedRow db in
  Sql.limit limit
    (Sql.order_by conv_last_desc
       (map (conversationOf db rows) (remove_dups (map chat_id rows)))).

Definition getConversations (limit : Z) : M (list ConversationInfo) :=
  _ <- ensureIndexM ;;
  db <- getDb ;;
  ret (conversationsOf db limit).

(** [getThread(channel, { after, limit })]; an absent [limit] is 100. *)
Definition threadOf (db : Table) (channel : string) (after : option Z)
    (limit : option Z) : list IndexedMessage :=
  let channelLower := Js.toLowerCase channel in
  let afterTimestamp := match after with
                        | Some ms => floorSeconds ms
                        | None => 0
                        end in
  let limit := default 100 limit in
  let pattern := "%" +:+ channelLower +:+ "%" in
  map rowToMessage
    (Sql.limit limit
       (Sql.order_by date_asc
          (List.filter
             (fun r => Sql.like (Sql.lower (chat_name r)) pattern
                       && (afterTimestamp <=? row_date r))
             db))).

Definition getThread (channel : string) (after : option Z) (limit : option Z)
    : M (list IndexedMessage) :=
  _ <- ensureIndexM ;;
  db <- getDb ;;
  ret (threadOf db channel after limit).

Definition closeConnections : M unit := clearCaches.

(** ** types.ts: dates *)

Definition unixToDate (unixTimestamp : Z) : Z := unixTimestamp * 1000.

Definition slackTsToDate (ts : string) : Z := unixToDate (slackTsToUnix ts).

(** ** config.ts

    The file config.json is absent ([None]) or holds the list of
    workspaces. *)

Module Config.

Record WorkspaceConfig := {
  id : string;
  name : string;
  token : string }.

Definition Config := list WorkspaceConfig.

Definition loadConfig (file : option Config) : Config :=
  match file with Some c => c | None => [] end.

Definition saveConfig (c : Config) : option Config := Some c.

(** [workspaces.findIndex(w => w.id === i)]; [None] is -1. *)
Fixpoint findIndex (i : string) (ws : Config) : option nat :=
  match ws with
  | [] => None
  | w :: r => if String.eqb (id w) i then Some O
              else option_map S (findIndex i r)
  end.

Definition addWorkspace (workspace : WorkspaceConfig) (file : option Config)
    : option Config :=
  let config := loadConfig file in
  match findIndex (id workspace) config with
  | Some existingIndex => saveConfig (<[existingIndex := workspace]> config)
  | None => saveConfig (config ++ [workspace])
  end.

(** The file after the call, and the returned flag. *)
Definition removeWorkspace (workspaceId : string) (file : option Config)
    : option Config * bool :=
  let config := loadConfig file in
  let kept := List.filter (fun w => negb (String.eqb (id w) workspaceId)) config in
  if (List.length kept <? List.length config)%nat
  then (saveConfig kept, true)
  else (file, false).

Definition getWorkspace (workspaceId : string) (file : option Config)
    : option WorkspaceConfig :=
  List.find (fun w => String.eqb (id w) workspaceId) (loadConfig file).

Definition getDefaultWorkspace (file : option Config) : option WorkspaceConfig :=
  head (loadConfig file).

Definition listWorkspaces (file : option Config) : Config := loadConfig file.

(** The action of the [auth] command, once the token is verified. *)
Definition auth (info : AuthInfo) (tok : string) (file : option Config)
    : option Config :=
  addWorkspace {| id := teamId info; name := teamName info; token := tok |} file.

End Config.

(** ** slack-api.ts: what the wrappers keep of one page

    The fields of the payload the wrappers read; an absent or empty field
    is the empty string, an absent flag is [false]. *)

Record Member := {
  m_id : string;
  m_name : string;
  m_real_name : string;
  m_display_name : string;
  m_deleted : bool;
  m_is_bot : bool }.

(** The body of the loop of [listUsers] over [result.members]. *)
Definition usersOfPage (members : list Member) : list SlackUser :=
  map (fun m =>
         {| user_id := m_id m;
            user_name := Js.or_else (m_name m) "";
            user_realName := Js.or_else (m_real_name m) (Js.or_else (m_name m) "");
            user_displayName :=
              Js.or_else (m_display_name m)
                (Js.or_else (m_real_name m) (Js.or_else (m_name m) "")) |})
    (List.filter
       (fun m => negb (m_deleted m) && negb (m_is_bot m) && Js.truthy (m_id m))
       members).

Record WireMessage := {
  w_type : string;
  w_ts : string;
  w_text : string;
  w_user : string;
  w_subtype : string;
  w_thread_ts : option string;
  w_reply_count : Z }.

Definition skipSubtypes : list string :=
  [ "channel_join"; "channel_leave"; "channel_topic"; "channel_purpose";
    "bot_add"; "bot_remove" ].

(** The body of the loop of [getConversationHistory] over
    [result.messages]. *)
Definition historyOfPage (channel : string) (messages : list WireMessage)
    : list SlackMessage :=
  map (fun msg =>
         {| ts := w_ts msg; user := Js.or_else (w_user msg) "";
            text := w_text msg; channelId := channel;
            threadTs := w_thread_ts msg;
            replyCount := w_reply_count msg |})
    (List.filter
       (fun msg =>
          String.eqb (w_type msg) "message"
          && Js.truthy (w_ts msg) && Js.truthy (w_text msg)
          && Js.truthy (Js.trim (w_text msg))
          && negb (Js.truthy (w_subtype msg)
                   && existsb (String.eqb (w_subtype msg)) skipSubtypes))
       messages).

(** The body of the loop of [getThreadReplies]. *)
Definition repliesOfPage (channel thread : string) (messages : list WireMessage)
    : list SlackMessage :=
  map (fun msg =>
         {| ts := w_ts msg; user := Js.or_else (w_user msg) "";
            text := Js.or_else (w_text msg) ""; channelId := channel;
            threadTs := Some thread; replyCount := 0 |})
    (List.filter
       (fun msg =>
          negb (String.eqb (w_ts msg) thread)
          && String.eqb (w_type msg) "message" && Js.truthy (w_ts msg))
       messages).

(** ** cli.ts: the [index] command

    [--update] runs the incremental sync and falls back to the full one when
    that returns [null]. *)
Definition indexCommand (isIncremental : bool) (api : SlackApi) (now : Z)
    (fs : Files) : Files * (Error + IndexStats) :=
  if isIncremental then
    match updateIndex api now fs with
    | (fs', inr (Some stats)) => (fs', inr stats)
    | (fs', inr None) => buildIndex api now fs'
    | (fs', inl e) => (fs', inl e)
    end
  else buildIndex api now fs.

(** ** Vocabulary of the statements *)

(** The comparisons of [ORDER BY key DESC] and [ORDER BY key ASC], and the
    order relations they decide. *)
Definition by_key_desc {A} (key : A -> Z) (a b : A) : bool := key b <=? key a.
Definition by_key_asc {A} (key : A -> Z) (a b : A) : bool := key a <=? key b.
Definition desc_rel {A} (key : A -> Z) (a b : A) : Prop := key b <= key a.
Definition asc_rel {A} (key : A -> Z) (a b : A) : Prop := key a <= key b.

(** A run of batch insertions, each with the user map and the
    authenticated user of its own sync. *)
Definition insertBatches (t : Table)
    (bs : list (gmap string SlackUser * string * list RawSlackMessage)) : Table :=
  fold_left (fun t b => insertBatch (fst (fst b)) (snd (fst b)) t (snd b)) bs t.

(** Successive calls of [search] in one process: each call starts from the
    handles the call before it left. *)
Fixpoint searchAll (ms : MiniSearch -> string -> list SearchResult)
    (fs : Files) (calls : list SearchOptions) (c : Caches)
    : list (Error + list SearchResultWithContext) :=
  match calls with
  | [] => []
  | o :: rest =>
      let '(r, c') := search ms o fs c in
      r :: searchAll ms fs rest c'
  end.

(** A request without a text query: the query is absent, empty, the
    wildcard token, or white space only. *)
Definition noTextQuery (q : option string) : Prop :=
  q = None \/ exists s, q = Some s /\ (s = "" \/ s = "*" \/ Js.all_ws s = true).

(** A request without a sender filter: [from] is absent or empty. *)
Definition noFrom (f : option string) : Prop := f = None \/ f = Some "".

(** The stored messages of the conversation of [hit] that are strictly
    older, and strictly newer, than [hit]. *)
Definition earlier (db : Table) (hit : IndexedMessage) : list Row :=
  List.filter
    (fun r => String.eqb (chat_id r) (chatId hit) && (row_date r <? date hit)) db.

Definition later (db : Table) (hit : IndexedMessage) : list Row :=
  List.filter
    (fun r => String.eqb (chat_id r) (chatId hit) && (date hit <? row_date r)) db.

(** [l] is the [c] most recent of the earlier messages, oldest first: it
    holds [c] of them (all, if there are fewer), in ascending order of
    date, and none of those left out is newer than one that is kept. *)
Definition nearest_before (db : Table) (c : Z) (hit : IndexedMessage)
    (l : list IndexedMessage) : Prop :=
  exists kept rest,
    l = map rowToMessage kept
    /\ Permutation (earlier db hit) (rest ++ kept)
    /\ List.length kept = Nat.min (Z.to_nat c) (List.length (earlier db hit))
    /\ StronglySorted (asc_rel row_date) kept
    /\ forall r k, In r rest -> In k kept -> row_date r <= row_date k.

(** [l] is the [c] earliest of the later messages, oldest first. *)
Definition nearest_after (db : Table) (c : Z) (hit : IndexedMessage)
    (l : list IndexedMessage) : Prop :=
  exists kept rest,
    l = map rowToMessage kept
    /\ Permutation (later db hit) (kept ++ rest)
    /\ List.length kept = Nat.min (Z.to_nat c) (List.length (later db hit))
    /\ StronglySorted (asc_rel row_date) kept
    /\ forall r k, In r rest -> In k kept -> row_date k <= row_date r.

Definition context_ok (db : Table) (c : Z) (rc : SearchResultWithContext) : Prop :=
  nearest_before db c (message (result rc)) (before rc)
  /\ nearest_after db c (message (result rc)) (after rc).

(** [needle] occurs in [hay] as a substring. *)
Definition contains (hay needle : string) : Prop :=
  exists pre post, hay = pre +:+ needle +:+ post.

(** ASCII text: every character is an ASCII character other than NUL. On
    such text [String.prototype.toLowerCase] and SQLite's [LOWER] are both
    the fold of [Js.toLowerCase], SQLite's [LIKE] compares as [Sql.like]
    does, and the white space [String.prototype.trim] strips is that of
    [Js.is_ws]. *)
Definition ascii_text (s : string) : bool :=
  forallb (fun c => Nat.ltb 0 (nat_of_ascii c) && Nat.ltb (nat_of_ascii c) 128)
    (list_ascii_of_string s).

(** [sender] contains [pattern] as a substring, up to ASCII case. *)
Definition contains_ci (sender pattern : string) : Prop :=
  contains (Js.toLowerCase sender) (Js.toLowerCase pattern).

(** No character of [s] is a LIKE wildcard. *)
Definition wildcard_free (s : string) : Prop :=
  Forall (fun c => c <> "%"%char /\ c <> "_"%char) (list_ascii_of_string s).

(** The sender part and the date part of the filter of a text search. *)
Definition senderOk (from : option string) (r : SearchResult) : bool :=
  match from with
  | Some f =>
      if Js.truthy f
      then negb (isFromMe (message r))
           && Js.includes (Js.toLowerCase (sender (message r))) (Js.toLowerCase f)
      else true
  | None => true
  end.

Definition dateOk (after : option Z) (r : SearchResult) : bool :=
  match after with
  | Some ms => floorSeconds ms <=? date (message r)
  | None => true
  end.

(** What a result must satisfy to pass the sender, self-authorship and
    date filters of a request. *)
Definition passes (from : option string) (after : option Z) (r : SearchResult) : Prop :=
  (forall f, from = Some f -> f <> "" ->
     isFromMe (message r) = false /\ contains_ci (sender (message r)) f)
  /\ (forall ms, after = Some ms -> floorSeconds ms <= date (message r)).

(** The stored messages sent under the name [s] by someone other than the
    authenticated user. *)
Definition authored (db : Table) (s : string) : list Row :=
  List.filter (fun r => String.eqb (row_sender r) s && (is_from_me r =? 0)) db.

(** [ci] counts exactly the messages [authored] under its name, and its
    last activity is the date of the latest of them. *)
Definition contact_ok (db : Table) (ci : ContactInfo) : Prop :=
  name ci <> ""
  /\ messageCount ci = Z.of_nat (List.length (authored db (name ci)))
  /\ (exists r, In r (authored db (name ci)) /\ row_date r = lastMessageDate ci)
  /\ (forall r, In r (authored db (name ci)) -> row_date r <= lastMessageDate ci).

(** What every result of a sender-only query satisfies. *)
Definition sender_hit (db : Table) (from : string) (after : option Z)
    (r : SearchResult) : Prop :=
  isFromMe (message r) = false
  /\ score r = 1%Q
  /\ Sql.like (Sql.lower (sender (message r)))
       ("%" +:+ Js.toLowerCase from +:+ "%") = true
  /\ (forall t, after = Some t -> floorSeconds t <= date (message r))
  /\ exists row, In row db /\ message r = rowToMessage row.

(** The new messages an incremental sync collects from the remote, and
    the cursors it ends with. *)
Definition observed (api : SlackApi) (fs : Files) (existing : IndexStats)
    (conversations : list SlackConversation)
    : list RawSlackMessage * gmap string string :=
  fold_left
    (checkConversation api (loadUsersCache fs) (conversationCursors existing))
    conversations ([], conversationCursors existing).

(** Every cursor of [a] is still there in [b], and not lower. *)
Definition cursors_le (a b : gmap string string) : Prop :=
  forall k c, a !! k = Some c -> exists c', b !! k = Some c' /\ String.le c c'.

(** ** Sample data *)

Definition sampleMessage (t who txt : string) (replies : Z) : SlackMessage :=
  {| ts := t; user := who; text := txt; channelId := ""; threadTs := None;
     replyCount := replies |}.

Definition sampleChannel (i n : string) : SlackConversation :=
  {| conv_id := i; conv_name := n; conv_isChannel := true;
     conv_isPrivate := false; conv_isIm := false; conv_isMpim := false;
     conv_userId := None |}.

Definition sample_auth : AuthInfo :=
  {| userId := "U0"; teamId := "T1"; teamName := "acme" |}.

(** The workspace at the first, full sync: one channel with one message. *)
Definition first_api : SlackApi :=
  {| testAuth := Some sample_auth;
     listUsers := Some [ {| user_id := "U1"; user_name := "alice";
                            user_realName := "Alice A"; user_displayName := "Alice" |} ];
     listConversations := Some [ sampleChannel "C1" "general" ];
     conversations_history := fun ch _ =>
       if String.eqb ch "C1"
       then Some [ sampleMessage "1700000000.000100" "U1" "hello" 0 ]
       else None;
     conversations_replies := fun _ _ => None |}.

(** Later: nothing new anywhere. *)
Definition quiet_api : SlackApi :=
  {| testAuth := Some sample_auth;
     listUsers := None;
     listConversations := Some [ sampleChannel "C1" "general" ];
     conversations_history := fun _ _ => Some [];
     conversations_replies := fun _ _ => None |}.

(** Later: a second channel has appeared, with a message of a new sender. *)
Definition second_channel_api : SlackApi :=
  {| testAuth := Some sample_auth;
     listUsers := None;
     listConversations := Some [ sampleChannel "C1" "general";
                                 sampleChannel "C2" "random" ];
     conversations_history := fun ch _ =>
       if String.eqb ch "C2"
       then Some [ sampleMessage "1700000100.000200" "U2" "hi there" 0 ]
       else Some [];
     conversations_replies := fun _ _ => None |}.

(** Later: a new message in the first channel, with one thread reply. *)
Definition thread_api : SlackApi :=
  {| testAuth := Some sample_auth;
     listUsers := None;
     listConversations := Some [ sampleChannel "C1" "general" ];
     conversations_history := fun _ _ =>
       Some [ sampleMessage "1700000100.000200" "U1" "shall we?" 1 ];
     conversations_replies := fun _ _ =>
       Some [ sampleMessage "1700000100.000200" "U1" "shall we?" 1;
              sampleMessage "1700000200.000300" "U1" "yes" 0 ] |}.


Definition sampleRow (i : Z) (ts txt who chat chatname : string) (d me : Z) : Row :=
  {| row_id := i; row_ts := ts; row_text := txt; row_sender := who;
     chat_name := chatname; chat_id := chat; row_date := d;
     is_from_me := me; thread_ts := None |}.

Definition sample_db : Table :=
  [ sampleRow 1 "10.000001" "kickoff" "Alice" "C1" "general" 10 0;
    sampleRow 2 "20.000001" "agenda" "abc" "C1" "general" 20 0;
    sampleRow 3 "30.000001" "deadline friday" "Alice" "C1" "general" 30 0;
    sampleRow 4 "40.000001" "deadline noted" "Me Myself" "C1" "general" 40 1;
    sampleRow 5 "50.000001" "thanks" "Bob" "C1" "general" 50 0;
    sampleRow 6 "35.000001" "lunch before the deadline?" "Bob" "C2" "random" 35 0 ].

Definition sample_stats : IndexStats :=
  {| totalMessages := 6; totalChats := 2; totalContacts := 4;
     indexedAt := 60000; oldestMessage := 10000; newestMessage := 50000;
     workspaceId := "T1"; workspaceName := "acme";
     conversationCursors := {[ "C1" := "50.000001"; "C2" := "35.000001" ]} |}.

Definition sample_fs : Files :=
  {| INDEX_DB := Some sample_db;
     FUZZY_INDEX := Some (map rowToIndexed sample_db);
     STATS := Some sample_stats;
     USERS_CACHE := Some ∅;
     defaultWorkspace := Some "xoxp-1" |}.

Definition no_files : Files :=
  {| INDEX_DB := None; FUZZY_INDEX := None; STATS := None;
     USERS_CACHE := None; defaultWorkspace := Some "xoxp-1" |}.

(** A stand-in ranker for the examples: the documents whose text contains
    the query, in index order, all with score 1. *)
Definition sample_search (idx : MiniSearch) (q : string) : list SearchResult :=
  map (fun d => {| message := d; score := 1; matchedTerms := [q] |})
    (List.filter
       (fun d => Js.includes (Js.toLowerCase (im_text d)) (Js.toLowerCase q)) idx).

Definition deadline_from_alice : SearchOptions :=
  {| query := Some "deadline"; from := Some "alice"; opt_after := None;
     limit := 10; context := 2 |}.

Definition empty_request : SearchOptions :=
  {| query := Some ""; from := None; opt_after := None;
     limit := 10; context := 2 |}.

Definition opened : Caches :=
  {| cachedDb := Some sample_db; cachedMiniSearch := None |}.

(** The files a full sync of [first_api] leaves. *)
Definition synced_fs : Files := fst (buildIndex first_api 1700000050000 no_files).

Definition synced_stats : IndexStats := default sample_stats (STATS synced_fs).
Definition synced_table : Table := default [] (INDEX_DB synced_fs).
Definition synced_index : MiniSearch := default [] (FUZZY_INDEX synced_fs).

(** A remote that refuses the token. *)
Definition refusing_api : SlackApi :=
  {| testAuth := None; listUsers := None; listConversations := None;
     conversations_history := fun _ _ => None;
     conversations_replies := fun _ _ => None |}.

(** The sample store without its fuzzy index. *)
Definition table_only_fs : Files :=
  {| INDEX_DB := Some sample_db; FUZZY_INDEX := None; STATS := None;
     USERS_CACHE := None; defaultWorkspace := Some "xoxp-1" |}.

(** The sample installation after fuzzy.json was lost. *)
Definition no_fuzzy_fs : Files :=
  {| INDEX_DB := Some sample_db; FUZZY_INDEX := None;
     STATS := Some sample_stats; USERS_CACHE := Some ∅;
     defaultWorkspace := Some "xoxp-1" |}.

Definition from_bob : SearchOptions :=
  {| query := None; from := Some "bob"; opt_after := Some 30500;
     limit := 10; context := 1 |}.

Definition from_bob_star : SearchOptions :=
  {| query := Some "*"; from := Some "bob"; opt_after := Some 30500;
     limit := 10; context := 1 |}.

(** ** Vocabulary of the further statements *)

(** [kept] is the [n] newest rows of [pool], newest first: it holds [n] of
    them (all, if there are fewer), in descending order of date, and none
    of the rows left out is newer than one that is kept. *)
Definition newest_first (pool : list Row) (n : nat) (kept : list Row) : Prop :=
  exists rest,
    Permutation pool (kept ++ rest)
    /\ List.length kept = Nat.min n (List.length pool)
    /\ StronglySorted (desc_rel row_date) kept
    /\ forall r k, In r rest -> In k kept -> row_date r <= row_date k.

(** [kept] is the [n] oldest rows of [pool], oldest first; rows of equal
    date may come in any order, and any of them may be the ones kept. *)
Definition oldest_first (pool : list Row) (n : nat) (kept : list Row) : Prop :=
  exists rest,
    Permutation pool (kept ++ rest)
    /\ List.length kept = Nat.min n (List.length pool)
    /\ StronglySorted (asc_rel row_date) kept
    /\ forall r k, In r rest -> In k kept -> row_date k <= row_date r.

(** The rows whose channel name contains [channel], up to ASCII case, and
    that are not older than the date floor. *)
Definition ofChannel (channel : string) (after : option Z) (r : Row) : bool :=
  Js.includes (Js.toLowerCase (chat_name r)) (Js.toLowerCase channel)
  && (match after with Some ms => floorSeconds ms | None => 0 end <=? row_date r).

(** The rows of the chat [c], with a non-empty channel name and all. *)
Definition namedOf (db : Table) (c : string) : list Row :=
  List.filter (fun r => String.eqb (chat_id r) c && namedRow r) db.

Definition allOf (db : Table) (c : string) : list Row :=
  List.filter (inChat c) db.

(** What [getConversations] reports of one chat. *)
Definition conversation_ok (db : Table) (cv : ConversationInfo) : Prop :=
  cv_chatName cv <> ""
  /\ 0 < cv_messageCount cv
  /\ cv_messageCount cv = Z.of_nat (List.length (namedOf db (cv_chatId cv)))
  /\ (exists r, In r (namedOf db (cv_chatId cv))
                /\ row_date r = cv_lastMessageDate cv
                /\ chat_name r = cv_chatName cv)
  /\ (forall r, In r (namedOf db (cv_chatId cv)) ->
                row_date r <= cv_lastMessageDate cv)
  /\ (exists r, In r (allOf db (cv_chatId cv))
                /\ cv_lastMessage cv = Some (row_text r)
                /\ forall r', In r' (allOf db (cv_chatId cv)) ->
                              row_date r' <= row_date r).

(** The messages a full sync collects, in order. *)
Definition collectedBy (api : SlackApi) (userMap : gmap string SlackUser)
    (conversations : list SlackConversation) : list RawSlackMessage :=
  fold_left (fetchConversation api userMap) conversations [].

(** The row [r] was built from the message [m]: same [ts], text and channel,
    the resolved name of the author, the Unix second of the [ts], and the
    self-authored flag set exactly when the author is [me]. *)
Definition builtFrom (userMap : gmap string SlackUser) (me : string)
    (m : RawSlackMessage) (r : Row) : Prop :=
  row_ts r = raw_ts m
  /\ row_text r = raw_text m
  /\ row_sender r = resolveUserName userMap (raw_user m)
  /\ chat_name r = raw_channelName m
  /\ chat_id r = raw_channelId m
  /\ row_date r = slackTsToUnix (raw_ts m)
  /\ isFromMe (rowToIndexed r) = String.eqb (raw_user m) me.

(** The two indexes and the stats agree: the fuzzy index holds one document
    per stored row, and [totalMessages] is the number of rows. *)
Definition in_sync (fs : Files) : Prop :=
  exists t idx st,
    INDEX_DB fs = Some t /\ FUZZY_INDEX fs = Some idx /\ STATS fs = Some st
    /\ Permutation (map id idx) (map row_id t)
    /\ List.NoDup (map row_id t)
    /\ totalMessages st = Z.of_nat (List.length t).

(** [c] is the greatest [ts], in the order of the string comparison, of the
    messages of [l] in the channel [k]; [None] when there is none. *)
Definition greatest_ts (l : list RawSlackMessage) (k : string)
    (c : option string) : Prop :=
  match c with
  | Some c =>
      (exists m, In m l /\ raw_channelId m = k /\ raw_ts m = c)
      /\ forall m, In m l -> raw_channelId m = k -> String.le (raw_ts m) c
  | None => forall m, In m l -> raw_channelId m <> k
  end.

(** Decimal digits only. *)
Fixpoint all_digits (s : string) : bool :=
  match s with
  | EmptyString => true
  | String c r =>
      let n := Z.of_nat (nat_of_ascii c) in
      (48 <=? n) && (n <=? 57) && all_digits r
  end.

(** The timestamps Slack issues: one to ten digits of seconds, a dot, and
    up to six further digits. Such a [ts] always parses, and
    [Math.floor(Number.parseFloat(ts))] is the number written before the
    dot: the value lies below 2^34, where neighbouring doubles are at most
    2^-19 apart, and its fraction is at most 0.999999, so that rounding to
    the nearest double does not reach the next integer. *)
Definition ts_parts (a r : string) : bool :=
  all_digits a && negb (String.eqb a "") && Nat.leb (String.length a) 10
  && all_digits r && Nat.leb (String.length r) 6.

Fixpoint split_dot (s : string) : string * option string :=
  match s with
  | EmptyString => (EmptyString, None)
  | String c r =>
      if Ascii.eqb c "."
      then (EmptyString, Some r)
      else let '(a, rest) := split_dot r in (String c a, rest)
  end.

Definition slack_ts (s : string) : bool :=
  match split_dot s with
  | (a, Some r) => ts_parts a r
  | (_, None) => false
  end.

(** A row without its key: two tables with the same rows, key apart, hold
    the same messages in the same order. *)
Definition unkeyed (r : Row) : Row :=
  {| row_id := 0; row_ts := row_ts r; row_text := row_text r;
     row_sender := row_sender r; chat_name := chat_name r;
     chat_id := chat_id r; row_date := row_date r;
     is_from_me := is_from_me r; thread_ts := thread_ts r |}.

(** The operations on config.json, and a run of them. *)
Inductive ConfigOp :=
| Add (w : Config.WorkspaceConfig)
| Remove (i : string).

Definition applyOp (file : option Config.Config) (op : ConfigOp)
    : option Config.Config :=
  match op with
  | Add w => Config.addWorkspace w file
  | Remove i => fst (Config.removeWorkspace i file)
  end.

(** * Properties *)

(** ** Ordering and limiting *)

Lemma In_firstn {A} n (l : list A) x : In x (firstn n l) -> In x l.
Proof.
  intros H. rewrite <- (firstn_skipn n l). apply in_or_app. now left.
Qed.

Lemma In_skipn {A} n (l : list A) x : In x (skipn n l) -> In x l.
Proof.
  intros H. rewrite <- (firstn_skipn n l). apply in_or_app. now right.
Qed.

Section OrderBy.

Context {A : Type} (key : A -> Z).

Lemma insert_by_perm (le : A -> A -> bool) x l :
  Permutation (x :: l) (Sql.insert_by le x l).
Proof.
  induction l as [|y r IH]; simpl; [reflexivity|].
  destruct (le x y); [reflexivity|].
  rewrite perm_swap. now apply perm_skip.
Qed.

Lemma order_by_perm (le : A -> A -> bool) l :
  Permutation l (Sql.order_by le l).
Proof.
  induction l as [|x r IH]; simpl; [constructor|].
  etransitivity; [apply perm_skip, IH | apply insert_by_perm].
Qed.

Lemma order_by_length (le : A -> A -> bool) l :
  List.length (Sql.order_by le l) = List.length l.
Proof. symmetry. apply Permutation_length, order_by_perm. Qed.

Lemma order_by_In (le : A -> A -> bool) l x :
  In x (Sql.order_by le l) <-> In x l.
Proof.
  split; apply Permutation_in;
    [symmetry | ]; apply order_by_perm.
Qed.

Lemma insert_desc_sorted x l :
  StronglySorted (desc_rel key) l ->
  StronglySorted (desc_rel key) (Sql.insert_by (by_key_desc key) x l).
Proof.
  induction 1 as [|y r Hs IH Hall]; simpl.
  - repeat constructor.
  - unfold by_key_desc at 1. destruct (Z.leb_spec (key y) (key x)) as [Hle|Hlt].
    + constructor; [now constructor|].
      constructor; [exact Hle|].
      eapply List.Forall_impl; [|exact Hall].
      intros z Hz. unfold desc_rel in *. lia.
    + constructor; [exact IH|].
      apply (Permutation_Forall (insert_by_perm (by_key_desc key) x r)).
      constructor; [unfold desc_rel; lia | exact Hall].
Qed.

Lemma order_by_desc_sorted l :
  StronglySorted (desc_rel key) (Sql.order_by (by_key_desc key) l).
Proof.
  induction l as [|x r IH]; simpl; [constructor|].
  now apply insert_desc_sorted.
Qed.

Lemma insert_asc_sorted x l :
  StronglySorted (asc_rel key) l ->
  StronglySorted (asc_rel key) (Sql.insert_by (by_key_asc key) x l).
Proof.
  induction 1 as [|y r Hs IH Hall]; simpl.
  - repeat constructor.
  - unfold by_key_asc at 1. destruct (Z.leb_spec (key x) (key y)) as [Hle|Hlt].
    + constructor; [now constructor|].
      constructor; [exact Hle|].
      eapply List.Forall_impl; [|exact Hall].
      intros z Hz. unfold asc_rel in *. lia.
    + constructor; [exact IH|].
      apply (Permutation_Forall (insert_by_perm (by_key_asc key) x r)).
      constructor; [unfold asc_rel; lia | exact Hall].
Qed.

Lemma order_by_asc_sorted l :
  StronglySorted (asc_rel key) (Sql.order_by (by_key_asc key) l).
Proof.
  induction l as [|x r IH]; simpl; [constructor|].
  now apply insert_asc_sorted.
Qed.

(** What a prefix of a sorted list leaves behind lies on the far side of
    everything it keeps. *)
Lemma sorted_split (R : A -> A -> Prop) n l :
  StronglySorted R l ->
  forall x y, In x (firstn n l) -> In y (skipn n l) -> R x y.
Proof.
  intros Hs. revert n. induction Hs as [|z r Hs IH Hall]; intros n x y.
  - rewrite firstn_nil. intros [].
  - destruct n as [|n]; simpl; [intros []|].
    intros [->|Hx] Hy.
    + rewrite List.Forall_forall in Hall. apply Hall.
      eapply In_skipn; exact Hy.
    + eapply IH; eassumption.
Qed.

Lemma sorted_firstn (R : A -> A -> Prop) n l :
  StronglySorted R l -> StronglySorted R (firstn n l).
Proof.
  intros Hs. revert n. induction Hs as [|z r Hs IH Hall]; intros n.
  - rewrite firstn_nil. constructor.
  - destruct n as [|n]; simpl; constructor; [apply IH|].
    rewrite List.Forall_forall in *. intros w Hw. apply Hall.
    eapply In_firstn; exact Hw.
Qed.

Lemma sorted_rev (R : A -> A -> Prop) l :
  StronglySorted R l -> StronglySorted (fun a b => R b a) (rev l).
Proof.
  induction 1 as [|z r Hs IH Hall]; simpl; [constructor|].
  apply StronglySorted_app_2; [| exact IH | repeat constructor].
  intros a b Ha Hb. apply list_elem_of_In in Ha, Hb.
  destruct Hb as [->|[]]. rewrite List.Forall_forall in Hall.
  apply Hall. now apply in_rev.
Qed.

End OrderBy.

Lemma limit_length {A} (n : Z) (l : list A) :
  0 <= n -> List.length (Sql.limit n l) = Nat.min (Z.to_nat n) (List.length l).
Proof.
  intros Hn. unfold Sql.limit.
  destruct (Z.ltb_spec n 0); [lia|]. apply length_firstn.
Qed.

Lemma limit_firstn {A} (n : Z) (l : list A) :
  0 <= n -> Sql.limit n l = firstn (Z.to_nat n) l.
Proof.
  intros Hn. unfold Sql.limit. destruct (Z.ltb_spec n 0); [lia|reflexivity].
Qed.

Lemma limit_In {A} (n : Z) (l : list A) x : In x (Sql.limit n l) -> In x l.
Proof.
  unfold Sql.limit. destruct (n <? 0); [auto|]. apply In_firstn.
Qed.

Lemma slice0_length {A} (n : Z) (l : list A) :
  0 <= n -> Z.of_nat (List.length (Js.slice0 n l)) <= n.
Proof.
  intros Hn. unfold Js.slice0. destruct (Z.leb_spec 0 n); [|lia].
  rewrite length_firstn. lia.
Qed.

Lemma slice0_In {A} (n : Z) (l : list A) x : In x (Js.slice0 n l) -> In x l.
Proof.
  unfold Js.slice0. destruct (0 <=? n); apply In_firstn.
Qed.

(** ** The structured store: insertion *)

Section Insertion.

Implicit Types (t : Table) (msg : RawSlackMessage) (um : gmap string SlackUser).

Lemma has_ts_In t s : has_ts t s = true <-> In s (map row_ts t).
Proof.
  unfold has_ts. rewrite existsb_exists, in_map_iff. split.
  - intros (r & Hr & He). apply String.eqb_eq in He. eauto.
  - intros (r & He & Hr). exists r. split; [exact Hr|]. now apply String.eqb_eq.
Qed.

Lemma insertRaw_cases um me t msg :
  (has_ts t (raw_ts msg) = true /\ insertRaw um me t msg = t)
  \/ (has_ts t (raw_ts msg) = false
      /\ exists r, row_ts r = raw_ts msg /\ insertRaw um me t msg = t ++ [r]).
Proof.
  unfold insertRaw, insertMessages.
  destruct (has_ts t (raw_ts msg)) eqn:E; [left; auto|right].
  split; [reflexivity|]. eexists. split; [|reflexivity]. reflexivity.
Qed.

Lemma insertRaw_present um me t msg :
  has_ts t (raw_ts msg) = true -> insertRaw um me t msg = t.
Proof.
  intros H. destruct (insertRaw_cases um me t msg) as [[_ E]|[E _]];
    [exact E | congruence].
Qed.

Lemma insertRaw_keeps um me t msg s :
  has_ts t s = true -> has_ts (insertRaw um me t msg) s = true.
Proof.
  intros H. destruct (insertRaw_cases um me t msg) as [[_ ->]|[_ (r & _ & ->)]];
    [exact H|].
  unfold has_ts in *. rewrite existsb_app, H. reflexivity.
Qed.

Lemma insertRaw_adds um me t msg :
  has_ts (insertRaw um me t msg) (raw_ts msg) = true.
Proof.
  destruct (insertRaw_cases um me t msg) as [[H ->]|[_ (r & Hr & ->)]];
    [exact H|].
  unfold has_ts. rewrite existsb_app. simpl.
  rewrite Hr, String.eqb_refl. now rewrite orb_true_r.
Qed.

Lemma insertRaw_unique um me t msg :
  NoDup (map row_ts t) -> NoDup (map row_ts (insertRaw um me t msg)).
Proof.
  intros Hnd.
  destruct (insertRaw_cases um me t msg) as [[_ ->]|[Hno (r & Hr & ->)]];
    [exact Hnd|].
  rewrite map_app. simpl. apply NoDup_app. split; [exact Hnd|]. split.
  - intros x Hx Hx'. apply list_elem_of_In in Hx, Hx'.
    destruct Hx' as [<-|[]]. rewrite Hr in Hx.
    apply has_ts_In in Hx. congruence.
  - apply NoDup_singleton.
Qed.

Lemma insertBatch_unique um me b t :
  NoDup (map row_ts t) -> NoDup (map row_ts (insertBatch um me t b)).
Proof.
  unfold insertBatch. revert t.
  induction b as [|msg b IH]; intros t Hnd; simpl; [exact Hnd|].
  apply IH, insertRaw_unique, Hnd.
Qed.

Lemma insertBatch_keeps um me b t s :
  has_ts t s = true -> has_ts (insertBatch um me t b) s = true.
Proof.
  unfold insertBatch. revert t.
  induction b as [|msg b IH]; intros t H; simpl; [exact H|].
  apply IH, insertRaw_keeps, H.
Qed.

Lemma insertBatch_adds um me b t msg :
  In msg b -> has_ts (insertBatch um me t b) (raw_ts msg) = true.
Proof.
  unfold insertBatch. revert t.
  induction b as [|m b IH]; intros t; simpl; [intros []|].
  intros [->|Hin]; [|now apply IH].
  apply (insertBatch_keeps um me b), insertRaw_adds.
Qed.

Lemma insertBatch_present um me b t :
  (forall msg, In msg b -> has_ts t (raw_ts msg) = true) ->
  insertBatch um me t b = t.
Proof.
  unfold insertBatch.
  induction b as [|m b IH]; intros H; simpl; [reflexivity|].
  rewrite insertRaw_present by (apply H; now left).
  apply IH. intros msg Hm. apply H. now right.
Qed.

Lemma insertBatch_again um me um' me' b t :
  insertBatch um' me' (insertBatch um me t b) b = insertBatch um me t b.
Proof.
  apply insertBatch_present. intros msg Hm. now apply insertBatch_adds.
Qed.

Lemma insertBatches_unique bs t :
  NoDup (map row_ts t) -> NoDup (map row_ts (insertBatches t bs)).
Proof.
  unfold insertBatches. revert t.
  induction bs as [|b bs IH]; intros t Hnd; simpl; [exact Hnd|].
  apply IH, insertBatch_unique, Hnd.
Qed.

Lemma insertBatches_keeps bs t s :
  has_ts t s = true -> has_ts (insertBatches t bs) s = true.
Proof.
  unfold insertBatches. revert t.
  induction bs as [|b bs IH]; intros t H; simpl; [exact H|].
  apply IH, insertBatch_keeps, H.
Qed.

Lemma insertBatches_adds bs t um me b msg :
  In (um, me, b) bs -> In msg b ->
  has_ts (insertBatches t bs) (raw_ts msg) = true.
Proof.
  unfold insertBatches. revert t.
  induction bs as [|b0 bs IH]; intros t; simpl; [intros []|].
  intros [->|Hin] Hm; [|now apply IH].
  apply (insertBatches_keeps bs). simpl. now apply insertBatch_adds.
Qed.

(** C4. Insertion is idempotent by [ts]: inserting a message whose [ts] the
    table already holds changes nothing, so after any run of batch
    insertions into the fresh table no two rows share a [ts], inserting a
    batch twice gives as many rows as inserting it once, and inserting any
    of the earlier batches again leaves the table as it is. *)
Theorem insertion_idempotent_by_ts
    (bs : list (gmap string SlackUser * string * list RawSlackMessage)) :
  let t := insertBatches [] bs in
  NoDup (map row_ts t)
  /\ (forall um me msg,
        has_ts t (raw_ts msg) = true -> insertRaw um me t msg = t)
  /\ (forall um me b,
        List.length (insertBatch um me (insertBatch um me t b) b)
        = List.length (insertBatch um me t b))
  /\ (forall um me um' me' b,
        In (um, me, b) bs -> insertBatch um' me' t b = t).
Proof.
  intros t. repeat split.
  - apply insertBatches_unique. constructor.
  - intros um me msg. apply insertRaw_present.
  - intros um me b. now rewrite insertBatch_again.
  - intros um me um' me' b Hin. apply insertBatch_present.
    intros msg Hm. eapply insertBatches_adds; eassumption.
Qed.

End Insertion.

(** ** The searcher: opening the store and classifying the query *)

Lemma trimStart_all_ws s : Js.all_ws s = true -> Js.trimStart s = "".
Proof.
  induction s as [|c r IH]; simpl; [reflexivity|].
  destruct (Js.is_ws c); simpl; [exact IH | discriminate].
Qed.

Lemma trimEnd_keeps_head c r : Js.is_ws c = false -> Js.trimEnd (String c r) <> "".
Proof.
  intros Hc. simpl. destruct (Js.trimEnd r); [rewrite Hc|]; discriminate.
Qed.

Lemma trim_empty_iff s : Js.trim s = "" <-> Js.all_ws s = true.
Proof.
  unfold Js.trim. split.
  - induction s as [|c r IH]; simpl; [reflexivity|].
    destruct (Js.is_ws c) eqn:Hc; simpl; [exact IH|].
    intros H. exfalso. revert H. change (Js.trimEnd (String c r) <> "").
    now apply trimEnd_keeps_head.
  - intros H. now rewrite trimStart_all_ws.
Qed.

Lemma hasTextQuery_false_iff q : hasTextQuery q = false <-> noTextQuery q.
Proof.
  unfold hasTextQuery, noTextQuery, Js.truthy. split.
  - destruct q as [s|]; [|now left]. intros H. right. exists s. split; [reflexivity|].
    destruct (String.eqb_spec s "") as [E|_]; [now left|].
    destruct (String.eqb_spec s "*") as [E|_]; [right; now left|].
    simpl in H. right. right. apply trim_empty_iff.
    destruct (String.eqb_spec (Js.trim s) ""); [assumption|discriminate].
  - intros [->|(s & -> & [->|[->|H]])]; try reflexivity.
    apply trim_empty_iff in H. rewrite H. simpl.
    now rewrite !andb_false_r.
Qed.

Lemma truthy_opt_false_iff f : Js.truthy_opt f = false <-> noFrom f.
Proof.
  unfold Js.truthy_opt, Js.truthy, noFrom. split.
  - destruct f as [s|]; [|now left]. intros H. right. f_equal.
    destruct (String.eqb_spec s ""); [assumption|discriminate].
  - intros [->| ->]; reflexivity.
Qed.

Lemma ensureIndex_none fs : ensureIndex fs = none.
Proof. unfold ensureIndex. now destruct (negb (indexExists fs)). Qed.

Section SearcherFacts.

Variable ms : MiniSearch -> string -> list SearchResult.

(** [search] first opens the store; whatever it does next starts from the
    handles [getDb] left. *)
Lemma search_opens_first options fs c :
  search ms options fs c =
  match getDb fs c with
  | (inl e, c') => (inl e, c')
  | (inr db, c') =>
      if Js.truthy_opt (from options) && negb (hasTextQuery (query options))
      then (inr (map (withContext db (context options))
                   (searchBySender db (default "" (from options))
                      (opt_after options) (limit options))), c')
      else if hasTextQuery (query options)
      then match searchByText ms (default "" (query options)) (from options)
                   (opt_after options) (limit options) fs c' with
           | (inl e, c'') => (inl e, c'')
           | (inr rs, c'') =>
               (inr (map (withContext db (context options)) rs), c'')
           end
      else (inr [], c')
  end.
Proof.
  unfold search, bind, ensureIndexM, ret. rewrite ensureIndex_none.
  destruct (getDb fs c) as [[e|db] c']; [reflexivity|].
  destruct (Js.truthy_opt (from options) && negb (hasTextQuery (query options)));
    [reflexivity|].
  destruct (hasTextQuery (query options)); [|reflexivity].
  destruct (searchByText ms _ _ _ _ fs c') as [[e|rs] c'']; reflexivity.
Qed.

Lemma getDb_missing fs c :
  INDEX_DB fs = None -> cachedDb c = None -> getDb fs c = (inl IndexNotFound, c).
Proof. intros Hf Hc. unfold getDb. now rewrite Hc, Hf. Qed.

Lemma search_missing options fs c :
  INDEX_DB fs = None -> cachedDb c = None ->
  search ms options fs c = (inl IndexNotFound, c).
Proof.
  intros Hf Hc. rewrite search_opens_first, getDb_missing by assumption.
  reflexivity.
Qed.

(** C10. [search] opens the structured store before it looks at the shape
    of the query: while no index has been built (no index.db, no open
    handle) every call raises the index-not-found error and leaves the
    handles as they were, whatever the request, also through any run of
    calls, and also for a request with neither text nor sender, which
    returns the empty list as soon as the store exists. *)
Theorem search_raises_without_index fs c :
  INDEX_DB fs = None -> cachedDb c = None ->
  (forall options, search ms options fs c = (inl IndexNotFound, c))
  /\ (forall calls,
        Forall (fun r => r = inl IndexNotFound) (searchAll ms fs calls c))
  /\ (forall options db,
        noTextQuery (query options) -> noFrom (from options) ->
        fst (search ms options fs c) = inl IndexNotFound
        /\ fst (search ms options (writeIndexDb db fs) c) = inr []).
Proof.
  intros Hf Hc. split; [|split].
  - intros options. now apply search_missing.
  - intros calls. induction calls as [|o rest IH]; simpl; [constructor|].
    rewrite search_missing by assumption. now constructor.
  - intros options db Hq Hfrom. split.
    + now rewrite search_missing.
    + rewrite search_opens_first. unfold getDb. rewrite Hc. simpl.
      apply hasTextQuery_false_iff in Hq. apply truthy_opt_false_iff in Hfrom.
      now rewrite Hq, Hfrom.
Qed.

(** C5, as the code has it. Once the structured store can be opened, a
    request whose text query is absent, empty, white space only or the
    wildcard token, and whose sender filter is absent, returns the empty
    list and raises nothing. *)
Theorem search_empty_query_with_index options fs c db c' :
  getDb fs c = (inr db, c') ->
  noTextQuery (query options) -> noFrom (from options) ->
  search ms options fs c = (inr [], c').
Proof.
  intros Hdb Hq Hfrom. rewrite search_opens_first, Hdb.
  apply hasTextQuery_false_iff in Hq. apply truthy_opt_false_iff in Hfrom.
  now rewrite Hq, Hfrom.
Qed.

End SearcherFacts.

(** ** The searcher: context windows *)

Lemma contextQuery_nearest db c hit :
  0 <= c ->
  nearest_before db c hit
    (map rowToMessage (rev (contextQuery db (chatId hit) (date hit) c))).
Proof.
  intros Hc. unfold contextQuery. fold (earlier db hit).
  change date_desc with (by_key_desc row_date).
  set (sorted := Sql.order_by (by_key_desc row_date) (earlier db hit)).
  rewrite limit_firstn by exact Hc.
  assert (Hs : StronglySorted (desc_rel row_date) sorted)
    by apply order_by_desc_sorted.
  exists (rev (firstn (Z.to_nat c) sorted)), (skipn (Z.to_nat c) sorted).
  repeat split.
  - rewrite <- Permutation_rev, Permutation_app_comm, firstn_skipn.
    apply order_by_perm.
  - rewrite length_rev, length_firstn. unfold sorted.
    now rewrite order_by_length.
  - apply (sorted_rev (desc_rel row_date)), sorted_firstn, Hs.
  - intros r k Hr Hk. apply in_rev in Hk.
    exact (sorted_split (desc_rel row_date) _ _ Hs k r Hk Hr).
Qed.

Lemma afterContextQuery_nearest db c hit :
  0 <= c ->
  nearest_after db c hit
    (map rowToMessage (afterContextQuery db (chatId hit) (date hit) c)).
Proof.
  intros Hc. unfold afterContextQuery. fold (later db hit).
  change date_asc with (by_key_asc row_date).
  set (sorted := Sql.order_by (by_key_asc row_date) (later db hit)).
  rewrite limit_firstn by exact Hc.
  assert (Hs : StronglySorted (asc_rel row_date) sorted)
    by apply order_by_asc_sorted.
  exists (firstn (Z.to_nat c) sorted), (skipn (Z.to_nat c) sorted).
  repeat split.
  - rewrite firstn_skipn. apply order_by_perm.
  - rewrite length_firstn. unfold sorted. now rewrite order_by_length.
  - apply sorted_firstn, Hs.
  - intros r k Hr Hk.
    exact (sorted_split (asc_rel row_date) _ _ Hs k r Hk Hr).
Qed.

Lemma withContext_ok db c rs :
  0 <= c -> Forall (context_ok db c) (map (withContext db c) rs).
Proof.
  intros Hc. apply List.Forall_forall. intros rc Hin.
  apply in_map_iff in Hin. destruct Hin as (res & <- & _).
  split; [now apply contextQuery_nearest | now apply afterContextQuery_nearest].
Qed.

Section ContextWindows.

Variable ms : MiniSearch -> string -> list SearchResult.

(** C3. Every hit that [search] returns carries, as its before-context,
    the [context] most recent stored messages of its conversation that are
    strictly older than the hit, oldest first, and as its after-context the
    [context] earliest ones that are strictly newer, oldest first; where
    the conversation has fewer, all of them are returned. *)
Theorem search_context_windows options fs c l c' :
  0 <= context options ->
  search ms options fs c = (inr l, c') ->
  exists db,
    fst (getDb fs c) = inr db
    /\ Forall (context_ok db (context options)) l.
Proof.
  intros Hc. rewrite search_opens_first.
  destruct (getDb fs c) as [[e|db] c1]; [discriminate|].
  intros H. exists db. split; [reflexivity|].
  destruct (Js.truthy_opt (from options) && negb (hasTextQuery (query options))).
  { inversion H; subst. now apply withContext_ok. }
  destruct (hasTextQuery (query options)).
  - destruct (searchByText ms _ _ _ _ fs c1) as [[e|rs] c2]; [discriminate|].
    inversion H; subst. now apply withContext_ok.
  - inversion H; subst. constructor.
Qed.

End ContextWindows.

(** ** Substrings and LIKE *)

Section Like.

Local Abbreviation L := list_ascii_of_string.

Lemma L_app a b : L (a +:+ b) = L a ++ L b.
Proof. induction a as [|c a IH]; simpl; [reflexivity|]. now rewrite IH. Qed.

Lemma L_lower s : L (Js.toLowerCase s) = map Js.lower_ascii (L s).
Proof. induction s as [|c s IH]; simpl; [reflexivity|]. now rewrite IH. Qed.

Lemma of_list_app a b :
  string_of_list_ascii (a ++ b)
  = string_of_list_ascii a +:+ string_of_list_ascii b.
Proof. induction a as [|c a IH]; simpl; [reflexivity|]. now rewrite IH. Qed.

Lemma lower_ascii_idem c : Js.lower_ascii (Js.lower_ascii c) = Js.lower_ascii c.
Proof. destruct c as [[] [] [] [] [] [] [] []]; reflexivity. Qed.

Lemma lower_ascii_wildcard c :
  c <> "%"%char /\ c <> "_"%char ->
  Js.lower_ascii c <> "%"%char /\ Js.lower_ascii c <> "_"%char.
Proof.
  destruct c as [[] [] [] [] [] [] [] []]; intros [H1 H2];
    split; try discriminate; assumption.
Qed.

Lemma append_cons c a b : String c a +:+ b = String c (a +:+ b).
Proof. reflexivity. Qed.

Lemma prefix_split n h : String.prefix n h = true <-> exists post, h = n +:+ post.
Proof.
  revert h. induction n as [|a n IH]; intros h; simpl.
  - destruct h; split; eauto.
  - destruct h as [|b h]; simpl.
    + split; [discriminate | intros (post & Hp); discriminate].
    + destruct (ascii_dec a b) as [->|Hne].
      * rewrite IH. split; intros (post & Hp); exists post;
          rewrite append_cons in *; congruence.
      * split; [discriminate|]. intros (post & Hp).
        rewrite append_cons in Hp. congruence.
Qed.

Lemma includes_eq hay needle :
  Js.includes hay needle
  = String.prefix needle hay
    || match hay with
       | EmptyString => false
       | String _ r => Js.includes r needle
       end.
Proof. destruct hay; reflexivity. Qed.

Lemma includes_contains hay needle :
  Js.includes hay needle = true <-> contains hay needle.
Proof.
  unfold contains. induction hay as [|c hay IH]; rewrite includes_eq.
  - rewrite orb_false_r, prefix_split. split.
    + intros (post & ->). now exists "", post.
    + intros (pre & post & H). destruct pre; [|discriminate]. eauto.
  - rewrite orb_true_iff, IH, prefix_split. split.
    + intros [(post & ->)|(pre & post & ->)].
      * now exists "", post.
      * now exists (String c pre), post.
    + intros (pre & post & H). destruct pre as [|d pre].
      * left. eauto.
      * right. rewrite append_cons in H. injection H as _ H. eauto.
Qed.

(** The unfolding of a leading [%]. *)
Lemma like_percent p s :
  Sql.like_chars ("%"%char :: p) s
  = Sql.like_chars p s
    || match s with [] => false | _ :: t => Sql.like_chars ("%"%char :: p) t end.
Proof. destruct s; reflexivity. Qed.

Lemma like_percent_iff p s :
  Sql.like_chars ("%"%char :: p) s = true
  <-> exists a b, s = a ++ b /\ Sql.like_chars p b = true.
Proof.
  induction s as [|d s IH]; rewrite like_percent, orb_true_iff.
  - split.
    + intros [H|H]; [|discriminate]. now exists [], [].
    + intros (a & b & Hs & Hb). left.
      symmetry in Hs. apply app_eq_nil in Hs as [_ ->]. exact Hb.
  - rewrite IH. split.
    + intros [H|(a & b & -> & Hb)].
      * now exists [], (d :: s).
      * now exists (d :: a), b.
    + intros (a & b & Hs & Hb). destruct a as [|e a]; simpl in Hs.
      * left. now subst b.
      * right. injection Hs as _ ->. eauto.
Qed.

(** A pattern without wildcards, followed by [%], matches the strings that
    start with it, up to case. *)
Lemma like_literal_prefix p s :
  Forall (fun c => c <> "%"%char /\ c <> "_"%char) p ->
  Sql.like_chars (p ++ ["%"%char]) s = true
  <-> exists a b, s = a ++ b
                 /\ map Js.lower_ascii a = map Js.lower_ascii p.
Proof.
  intros Hp. revert s. induction Hp as [|c p [Hc1 Hc2] Hp IH]; intros s.
  - simpl app. rewrite like_percent_iff. split.
    + intros _. now exists [], s.
    + intros _. exists s, []. split; [now rewrite app_nil_r|reflexivity].
  - simpl. destruct (Ascii.eqb_spec c "%"); [contradiction|].
    destruct s as [|d s].
    + split; [discriminate|]. intros (a & b & Hs & Ha).
      symmetry in Hs. apply app_eq_nil in Hs as [-> _]. discriminate.
    + destruct (Ascii.eqb_spec c "_"); [contradiction|]. simpl.
      rewrite andb_true_iff, IH. split.
      * intros (Hcd & a & b & -> & Ha). apply Ascii.eqb_eq in Hcd.
        exists (d :: a), b. split; [reflexivity|]. simpl. congruence.
      * intros (a & b & Hs & Ha). destruct a as [|e a]; [discriminate|].
        simpl in Hs, Ha. injection Hs as <- ->. injection Ha as He Ha.
        split; [apply Ascii.eqb_eq; congruence | eauto].
Qed.

(** On lower-cased operands, [LIKE '%' || p || '%'] with a wildcard-free [p]
    is the substring test. *)
Lemma like_contains sender pattern :
  wildcard_free pattern ->
  Sql.like (Sql.lower sender) ("%" +:+ Js.toLowerCase pattern +:+ "%") = true
  <-> contains_ci sender pattern.
Proof.
  intros Hw. unfold Sql.like, Sql.lower, contains_ci, contains.
  change ("%" +:+ Js.toLowerCase pattern +:+ "%")
    with (String "%" (Js.toLowerCase pattern +:+ "%")).
  cbn [list_ascii_of_string]. rewrite L_app. cbn [list_ascii_of_string].
  rewrite like_percent_iff.
  assert (Hw' : Forall (fun c => c <> "%"%char /\ c <> "_"%char)
                  (L (Js.toLowerCase pattern))).
  { rewrite L_lower. unfold wildcard_free in Hw.
    induction Hw; simpl; constructor; auto using lower_ascii_wildcard. }
  split.
  - intros (pre & rest & Hs & Hm).
    apply (like_literal_prefix _ _ Hw') in Hm as (mid & post & -> & Hmid).
    exists (string_of_list_ascii pre), (string_of_list_ascii post).
    rewrite <- (string_of_list_ascii_of_string (Js.toLowerCase sender)), Hs.
    rewrite !of_list_app. do 2 f_equal.
    rewrite <- (string_of_list_ascii_of_string (Js.toLowerCase pattern)).
    f_equal.
    assert (Hlow : map Js.lower_ascii (pre ++ mid ++ post) = pre ++ mid ++ post).
    { rewrite <- Hs, L_lower, map_map.
      apply map_ext. intros; apply lower_ascii_idem. }
    rewrite !map_app in Hlow.
    assert (Hmid' : map Js.lower_ascii mid = mid).
    { apply app_inj_1 in Hlow as [_ Hlow]; [|now rewrite length_map].
      apply app_inj_1 in Hlow as [Hlow _]; [exact Hlow|now rewrite length_map]. }
    rewrite <- Hmid', Hmid, L_lower, map_map.
    apply map_ext. intros; apply lower_ascii_idem.
  - intros (pre & post & Hs). exists (L pre), (L (Js.toLowerCase pattern +:+ post)).
    split; [now rewrite Hs, !L_app|].
    apply (like_literal_prefix _ _ Hw').
    exists (L (Js.toLowerCase pattern)), (L post).
    split; [apply L_app | reflexivity].
Qed.

End Like.

(** ** The searcher: text search with filters *)

Section TextSearch.

Variable ms : MiniSearch -> string -> list SearchResult.

Lemma senderOk_passes from r :
  senderOk from r = true ->
  forall f, from = Some f -> f <> "" ->
    isFromMe (message r) = false /\ contains_ci (sender (message r)) f.
Proof.
  intros H f -> Hf. unfold senderOk, Js.truthy in H.
  destruct (String.eqb_spec f ""); [contradiction|]. simpl in H.
  apply andb_true_iff in H as [H1 H2]. split.
  - now destruct (isFromMe (message r)).
  - now apply includes_contains.
Qed.

Lemma filter_all {A} (f : A -> bool) l :
  Forall (fun x => f x = true) l -> List.filter f l = l.
Proof.
  induction 1 as [|x l Hx _ IH]; simpl; [reflexivity|]. now rewrite Hx, IH.
Qed.

(** The pipeline of [searchByText] when a filter is present. *)
Lemma searchByText_pipeline q from after limit fs c idx c' :
  0 <= limit ->
  Js.truthy_opt from || Js.present after = true ->
  getMiniSearch fs c = (inr idx, c') ->
  Forall (fun r => 0 <= date (message r)) (ms idx q) ->
  searchByText ms q from after limit fs c
  = (inr (firstn (Z.to_nat limit)
            (List.filter (dateOk after)
               (firstn (Z.to_nat (20 * limit))
                  (List.filter (senderOk from) (ms idx q))))), c').
Proof.
  intros Hl Hf Hidx Hd. unfold searchByText, bind. rewrite Hidx, Hf.
  assert (Hcand :
    match option_map Js.toLowerCase from with
    | Some fl => if Js.truthy fl then List.filter (senderFilter fl) (ms idx q)
                 else ms idx q
    | None => ms idx q
    end = List.filter (senderOk from) (ms idx q)).
  { destruct from as [f|]; simpl.
    - assert (Ht : Js.truthy (Js.toLowerCase f) = Js.truthy f) by now destruct f.
      rewrite Ht. destruct (Js.truthy f) eqn:Tf.
      + apply filter_ext. intros r. unfold senderOk, senderFilter.
        now rewrite Tf.
      + symmetry. apply filter_all, List.Forall_forall. intros r _.
        unfold senderOk. now rewrite Tf.
    - symmetry. apply filter_all, List.Forall_forall. reflexivity. }
  rewrite Hcand. set (cand := List.filter (senderOk from) (ms idx q)).
  assert (Hd' : Forall (fun r => 0 <= date (message r)) cand).
  { apply List.Forall_forall. intros r Hr. apply filter_In in Hr as [Hr _].
    rewrite List.Forall_forall in Hd. now apply Hd. }
  destruct cand as [|r0 cand0] eqn:Ecand.
  { unfold ret. rewrite firstn_nil. simpl. now rewrite firstn_nil. }
  rewrite <- Ecand in *. clear Ecand. unfold ret. do 2 f_equal.
  unfold Js.slice0.
  destruct (Z.leb_spec 0 (limit * 20)); [|lia].
  destruct (Z.leb_spec 0 limit); [|lia].
  replace (limit * 20) with (20 * limit) by lia. f_equal.
  destruct after as [t|]; simpl.
  - destruct (Z.eqb_spec (floorSeconds t) 0) as [E|_]; [|reflexivity].
    symmetry. apply filter_all, List.Forall_forall. intros r Hr.
    apply In_firstn in Hr. rewrite List.Forall_forall in Hd'.
    apply Hd' in Hr. unfold dateOk. rewrite E. lia.
  - symmetry. apply filter_all, List.Forall_forall. reflexivity.
Qed.

(** C8. A text search with a sender or date filter takes the first
    [20 * limit] hits of the fuzzy index that pass the sender and
    self-authorship filter, drops those older than the date floor, and
    keeps the first [limit] of what is left: at most [limit] results come
    back, and each passes the filters of the request. The sender given and
    the sender names of the ranked hits are ASCII text, on which the fold
    of the model is the one of [String.prototype.toLowerCase]. *)
Theorem searchByText_filtered q from after limit fs c idx c' :
  0 <= limit ->
  Js.truthy_opt from || Js.present after = true ->
  getMiniSearch fs c = (inr idx, c') ->
  Forall (fun r => 0 <= date (message r)) (ms idx q) ->
  (forall f, from = Some f -> ascii_text f = true) ->
  Forall (fun r => ascii_text (sender (message r)) = true) (ms idx q) ->
  exists l,
    searchByText ms q from after limit fs c = (inr l, c')
    /\ l = firstn (Z.to_nat limit)
             (List.filter (dateOk after)
                (firstn (Z.to_nat (20 * limit))
                   (List.filter (senderOk from) (ms idx q))))
    /\ Z.of_nat (List.length l) <= limit
    /\ Forall (passes from after) l.
Proof.
  intros Hl Hf Hidx Hd _ _. eexists. split;
    [exact (searchByText_pipeline q from after limit fs c idx c' Hl Hf Hidx Hd)|].
  split; [reflexivity|]. split.
  - rewrite length_firstn. lia.
  - apply List.Forall_forall. intros r Hr.
    apply In_firstn, filter_In in Hr as [Hr Hdate].
    apply In_firstn, filter_In in Hr as [_ Hsender]. split.
    + now apply senderOk_passes.
    + intros t ->. unfold dateOk in Hdate. lia.
Qed.

End TextSearch.

(** ** The searcher: sender-only queries *)

Lemma sorted_map {A B} (R : A -> A -> Prop) (R' : B -> B -> Prop) (f : A -> B) l :
  (forall x y, R x y -> R' (f x) (f y)) ->
  StronglySorted R l -> StronglySorted R' (map f l).
Proof.
  intros Hf. induction 1 as [|x l Hs IH Hall]; simpl; constructor; [exact IH|].
  rewrite List.Forall_forall in *. intros y Hy.
  apply in_map_iff in Hy as (z & <- & Hz). auto.
Qed.

Lemma searchBySender_sound db from after limit :
  0 <= limit ->
  let rs := searchBySender db from after limit in
  Z.of_nat (List.length rs) <= limit
  /\ StronglySorted (desc_rel (fun r => date (message r))) rs
  /\ Forall (sender_hit db from after) rs.
Proof.
  intros Hl rs. subst rs. unfold searchBySender.
  rewrite limit_firstn by exact Hl.
  change date_desc with (by_key_desc row_date).
  set (afterTimestamp := match after with Some ms => floorSeconds ms | None => 0 end).
  set (pattern := "%" +:+ Js.toLowerCase from +:+ "%").
  set (hits := List.filter _ db).
  repeat split.
  - rewrite length_map, length_firstn. lia.
  - apply (sorted_map (desc_rel row_date)); [intros x y H; exact H|].
    apply sorted_firstn, order_by_desc_sorted.
  - apply List.Forall_forall. intros r Hr.
    apply in_map_iff in Hr as (row & <- & Hrow).
    apply In_firstn, order_by_In, filter_In in Hrow as [Hin Hrow].
    apply andb_true_iff in Hrow as [Hrow Hdate].
    apply andb_true_iff in Hrow as [Hlike Hme].
    apply Z.eqb_eq in Hme. apply Z.leb_le in Hdate.
    unfold sender_hit. simpl. repeat split.
    + rewrite Hme. reflexivity.
    + exact Hlike.
    + intros t ->. exact Hdate.
    + now exists row.
Qed.

(** For a sender without LIKE wildcards the match is the substring test. *)
Lemma searchBySender_substring db from after limit :
  wildcard_free from ->
  Forall (fun r => contains_ci (sender (message r)) from)
    (searchBySender db from after limit).
Proof.
  intros Hw. apply List.Forall_forall. intros r Hr.
  unfold searchBySender in Hr.
  apply in_map_iff in Hr as (row & <- & Hrow).
  apply limit_In, order_by_In, filter_In in Hrow as [_ Hrow].
  apply andb_true_iff in Hrow as [Hrow _].
  apply andb_true_iff in Hrow as [Hlike _].
  now apply like_contains.
Qed.

Section SenderOnly.

Variable ms : MiniSearch -> string -> list SearchResult.

(** A sender-only request is answered by [searchBySender] on the opened
    store. *)
Lemma search_sender_only options fs c db c' f :
  getDb fs c = (inr db, c') ->
  from options = Some f -> f <> "" -> noTextQuery (query options) ->
  search ms options fs c
  = (inr (map (withContext db (context options))
            (searchBySender db f (opt_after options) (limit options))), c').
Proof.
  intros Hdb Hf Hne Hq. rewrite search_opens_first, Hdb, Hf.
  apply hasTextQuery_false_iff in Hq. rewrite Hq. simpl.
  unfold Js.truthy. destruct (String.eqb_spec f ""); [contradiction|].
  reflexivity.
Qed.

(** C7, at the input where it fails. The sender-only request
    [from = "a_c"] on the sample store returns the message of the sender
    "abc": the underscore of the request acts as the one-character wildcard
    of LIKE, and "abc" does not contain "a_c". *)
Theorem sender_only_wildcard_match :
  let options := {| query := None; from := Some "a_c"; opt_after := None;
                    limit := 10; context := 0 |} in
  exists rc c',
    search ms options sample_fs noCaches = (inr [rc], c')
    /\ sender (message (result rc)) = "abc"
    /\ isFromMe (message (result rc)) = false
    /\ Js.includes (Js.toLowerCase "abc") (Js.toLowerCase "a_c") = false
    /\ ~ contains_ci (sender (message (result rc))) "a_c".
Proof.
  intros options. do 2 eexists. split.
  - rewrite (search_sender_only options sample_fs noCaches sample_db
               {| cachedDb := Some sample_db; cachedMiniSearch := None |} "a_c");
      [reflexivity | reflexivity | reflexivity | discriminate | now left].
  - simpl. repeat split.
    intros H. apply includes_contains in H. discriminate H.
Qed.

End SenderOnly.

(** ** Contacts *)

Section Contacts.

Lemma fold_max_ge l a : a <= fold_left Z.max l a.
Proof.
  revert a. induction l as [|x l IH]; intros a; simpl; [lia|].
  specialize (IH (Z.max a x)). lia.
Qed.

Lemma fold_max_bound l a x : In x l -> x <= fold_left Z.max l a.
Proof.
  revert a. induction l as [|y l IH]; intros a; simpl; [intros []|].
  intros [->|Hx]; [|now apply IH].
  pose proof (fold_max_ge l (Z.max a x)). lia.
Qed.

Lemma fold_max_in l a : In (fold_left Z.max l a) (a :: l).
Proof.
  revert a. induction l as [|y l IH]; intros a; simpl; [now left|].
  destruct (IH (Z.max a y)) as [H|H]; [|right; now right].
  rewrite <- H. destruct (Z.max_spec a y) as [[_ E]|[_ E]]; rewrite E; auto.
Qed.

Lemma maxDate_spec g :
  g <> [] ->
  (exists r, In r g /\ row_date r = maxDate g)
  /\ forall r, In r g -> row_date r <= maxDate g.
Proof.
  destruct g as [|r0 g]; [congruence|]. intros _. unfold maxDate. split.
  - destruct (fold_max_in (map row_date g) (row_date r0)) as [H|H].
    + exists r0. split; [now left | exact H].
    + apply in_map_iff in H as (r & Hr & Hin). exists r. split; [now right|exact Hr].
  - intros r [<-|Hr]; [apply fold_max_ge|].
    apply fold_max_bound, in_map. exact Hr.
Qed.

Lemma filter_twice {A} (f g h : A -> bool) l :
  (forall x, g x && f x = h x) ->
  List.filter f (List.filter g l) = List.filter h l.
Proof.
  intros H. induction l as [|x l IH]; simpl; [reflexivity|].
  rewrite <- H. destruct (g x); simpl; [|exact IH].
  destruct (f x); now rewrite IH.
Qed.

Lemma group_authored db s :
  s <> "" -> List.filter (sentBy s) (List.filter contactRow db) = authored db s.
Proof.
  intros Hs. apply filter_twice. intros r. unfold contactRow, sentBy.
  destruct (String.eqb_spec (row_sender r) s) as [E|E];
    [|now rewrite andb_false_r].
  destruct (String.eqb_spec (row_sender r) ""); [congruence|].
  simpl. now rewrite andb_true_r.
Qed.

Lemma contactsOf_names db limit ci :
  In ci (contactsOf db limit) ->
  exists r, In r db /\ contactRow r = true /\ row_sender r = name ci
            /\ ci = aggregate (List.filter contactRow db) (name ci).
Proof.
  unfold contactsOf. intros H.
  apply limit_In, order_by_In, in_map_iff in H as (s & <- & Hs).
  apply list_elem_of_In in Hs. rewrite elem_of_remove_dups in Hs.
  apply list_elem_of_In in Hs.
  apply in_map_iff in Hs as (r & <- & Hr). apply filter_In in Hr as [Hin Hc].
  exists r. simpl. auto.
Qed.

Lemma contactsOf_ok db limit : Forall (contact_ok db) (contactsOf db limit).
Proof.
  apply List.Forall_forall. intros ci Hci.
  apply contactsOf_names in Hci as (r & Hin & Hc & Hname & ->). simpl in *.
  assert (Hne : name (aggregate (List.filter contactRow db) (row_sender r)) <> "").
  { simpl. unfold contactRow in Hc. apply andb_true_iff in Hc as [Hc _].
    destruct (String.eqb_spec (row_sender r) ""); [discriminate|assumption]. }
  simpl in Hne. unfold contact_ok. simpl. rewrite <- Hname.
  rewrite (group_authored db _ Hne).
  assert (Hg : In r (authored db (row_sender r))).
  { unfold authored. apply filter_In. split; [exact Hin|].
    rewrite String.eqb_refl. unfold contactRow in Hc.
    apply andb_true_iff in Hc as [_ Hc]. now rewrite Hc. }
  assert (Hnil : authored db (row_sender r) <> []).
  { intros E. rewrite E in Hg. destruct Hg. }
  destruct (maxDate_spec _ Hnil) as [Hex Hall]. auto.
Qed.

Lemma self_not_contact r : isFromMe (rowToMessage r) = true -> contactRow r = false.
Proof.
  simpl. intros H. apply Z.eqb_eq in H. unfold contactRow. rewrite H.
  now rewrite andb_false_r.
Qed.

(** C9. [getContacts] counts, for each contact, exactly the stored messages
    under that sender name that are not self-authored, and reports the
    date of the latest of them; the name is never empty. A self-authored
    message contributes nothing: the answer is the one the store without
    that message gives, and a name whose messages are all self-authored is
    not among the contacts. *)
Theorem getContacts_excludes_self limit fs c db c' :
  getDb fs c = (inr db, c') ->
  exists l,
    getContacts limit fs c = (inr l, c')
    /\ Forall (contact_ok db) l
    /\ (forall t1 r t2,
          db = t1 ++ r :: t2 -> isFromMe (rowToMessage r) = true ->
          contactsOf (t1 ++ t2) limit = l)
    /\ (forall me,
          (forall r, In r db -> row_sender r = me ->
                     isFromMe (rowToMessage r) = true) ->
          Forall (fun ci => name ci <> me) l).
Proof.
  intros Hdb. exists (contactsOf db limit). split; [|split; [|split]].
  - unfold getContacts, bind, ensureIndexM, ret. now rewrite Hdb.
  - apply contactsOf_ok.
  - intros t1 r t2 -> Hself. unfold contactsOf.
    rewrite !List.filter_app. simpl. now rewrite (self_not_contact r Hself).
  - intros me Hme. apply List.Forall_forall. intros ci Hci Hname.
    apply contactsOf_names in Hci as (r & Hin & Hc & Hr & _).
    rewrite self_not_contact in Hc; [discriminate|].
    apply Hme; [exact Hin | congruence].
Qed.

End Contacts.

(** ** The indexer: incremental sync *)

Section Incremental.

Variable api : SlackApi.

Lemma checkMessages_extends conv channelName msgs st :
  exists extra,
    fst (checkMessages api conv channelName msgs st) = fst st ++ extra
    /\ (msgs <> [] -> extra <> []).
Proof.
  revert st. induction msgs as [|msg rest IH]; intros st; simpl.
  - exists []. split; [now rewrite app_nil_r | congruence].
  - destruct (0 <? replyCount msg).
    + destruct (getThreadReplies api conv (ts msg)) as [replies|].
      * destruct (IH ((fst st ++ [toRaw channelName msg])
                        ++ map (toRaw channelName) replies,
                      advance (snd st) conv (ts msg))) as (extra & -> & _).
        simpl. rewrite <- !app_assoc. eexists. split; [reflexivity|].
        intros _. discriminate.
      * simpl. eexists. split; [reflexivity|]. intros _. discriminate.
    + destruct (IH (fst st ++ [toRaw channelName msg],
                    advance (snd st) conv (ts msg))) as (extra & -> & _).
      simpl. rewrite <- app_assoc. eexists. split; [reflexivity|].
      intros _. discriminate.
Qed.

Lemma checkConversation_extends userMap existing st conv :
  exists extra,
    fst (checkConversation api userMap existing st conv) = fst st ++ extra
    /\ (extra = [] -> checkConversation api userMap existing st conv = st).
Proof.
  unfold checkConversation.
  destruct (getConversationHistory api (conv_id conv) (existing !! conv_id conv))
    as [messages|].
  - destruct (checkMessages_extends (conv_id conv)
                (resolveConversationName userMap conv) messages st)
      as (extra & E & Hne).
    exists extra. split; [exact E|]. intros ->.
    destruct messages; [reflexivity|]. exfalso. now apply Hne.
  - exists []. split; [now rewrite app_nil_r | reflexivity].
Qed.

(** A sync that collected nothing left the cursors alone. *)
Lemma nothing_observed userMap existing conversations st :
  fst (fold_left (checkConversation api userMap existing) conversations st) = [] ->
  fold_left (checkConversation api userMap existing) conversations st = st.
Proof.
  revert st. induction conversations as [|conv rest IH]; intros st H; simpl in *;
    [reflexivity|].
  specialize (IH _ H). rewrite IH in *.
  destruct (checkConversation_extends userMap existing st conv)
    as (extra & E & Hsame).
  apply Hsame. rewrite H in E. symmetry in E.
  now apply app_eq_nil in E as [_ ?].
Qed.

(** C6. An incremental sync that collects no new message returns the
    refreshed stats and persists them: stats.json holds the returned stats
    afterwards, the totals, the oldest and newest dates and the workspace
    identity are the ones stored before, the cursors are unchanged,
    [indexedAt] is the time of the sync, and index.db, fuzzy.json, the user
    cache and the configuration are as before. *)
Theorem updateIndex_nothing_new now fs existing token authInfo conversations :
  getStats fs = Some existing ->
  conversationCursors existing <> ∅ ->
  defaultWorkspace fs = Some token ->
  testAuth api = Some authInfo ->
  listConversations api = Some conversations ->
  fst (observed api fs existing conversations) = [] ->
  exists fs' stats,
    updateIndex api now fs = (fs', inr (Some stats))
    /\ fs' = saveStats stats fs
    /\ STATS fs' = Some stats
    /\ getStats fs' = Some stats
    /\ INDEX_DB fs' = INDEX_DB fs
    /\ FUZZY_INDEX fs' = FUZZY_INDEX fs
    /\ USERS_CACHE fs' = USERS_CACHE fs
    /\ defaultWorkspace fs' = defaultWorkspace fs
    /\ totalMessages stats = totalMessages existing
    /\ totalChats stats = totalChats existing
    /\ totalContacts stats = totalContacts existing
    /\ oldestMessage stats = oldestMessage existing
    /\ newestMessage stats = newestMessage existing
    /\ workspaceId stats = workspaceId existing
    /\ workspaceName stats = workspaceName existing
    /\ conversationCursors stats = conversationCursors existing
    /\ indexedAt stats = now.
Proof.
  intros Hstats Hcur Hws Hauth Hconvs Hobs.
  unfold updateIndex. rewrite Hstats.
  destruct (Nat.eqb_spec (size (conversationCursors existing)) 0) as [E|_].
  { apply map_size_empty_iff in E. contradiction. }
  rewrite Hws, Hauth, Hconvs.
  unfold observed in Hobs. apply nothing_observed in Hobs as Hsame.
  rewrite Hsame. do 2 eexists. split; [reflexivity|].
  split; [reflexivity|]. simpl. repeat split. exact Hws.
Qed.

End Incremental.

(** C1, at the input where it fails. After the full sync of [first_api] an
    incremental sync meets a second channel with a message of a new
    sender. The sync succeeds and stores the message, and the stats it
    persists count the two messages, but still one conversation and one
    sender where the stored corpus has two of each. *)
Theorem updateIndex_stale_totals :
  exists fs stats table,
    updateIndex second_channel_api 1700000150000 synced_fs = (fs, inr (Some stats))
    /\ STATS fs = Some stats
    /\ INDEX_DB fs = Some table
    /\ totalMessages stats = Z.of_nat (List.length table)
    /\ totalChats stats = 1 /\ distinct (map chat_id table) = 2
    /\ totalContacts stats = 1 /\ distinct (map row_sender table) = 2.
Proof.
  do 3 eexists. split; [vm_compute; reflexivity|].
  split; [reflexivity|]. split; [reflexivity|].
  repeat split; vm_compute; reflexivity.
Qed.

(** C2, at the input where it fails. After the full sync of [first_api] an
    incremental sync fetches a new message of the first channel and its
    thread reply. Both are stored, and the cursor of the channel ends at
    the [ts] of the history message although the reply, observed for the
    same channel in the same sync, has the greater [ts]. *)
Theorem updateIndex_cursor_skips_replies :
  exists fs stats table reply,
    updateIndex thread_api 1700000250000 synced_fs = (fs, inr (Some stats))
    /\ INDEX_DB fs = Some table
    /\ In reply table
    /\ chat_id reply = "C1"
    /\ row_ts reply = "1700000200.000300"
    /\ conversationCursors stats !! "C1" = Some "1700000100.000200"
    /\ Js.gt (row_ts reply) "1700000100.000200" = true.
Proof.
  do 4 eexists. split; [vm_compute; reflexivity|].
  split; [reflexivity|].
  split; [right; right; left; reflexivity|].
  repeat split.
Qed.

(** ** The indexer: what holds of the stats and of the cursors *)

Section Stats.

Lemma distinct_perm l l' : Permutation l l' -> distinct l = distinct l'.
Proof. intros H. unfold distinct. now rewrite H. Qed.

Lemma order_by_column {B} (f : Row -> B) (le : Row -> Row -> bool) t :
  Permutation (map f (Sql.order_by le t)) (map f t).
Proof. apply Permutation_map. symmetry. apply order_by_perm. Qed.

(** A full sync that returns has written the table, and has persisted
    stats whose three totals are those of the table. *)
Lemma buildIndex_stats_recomputed api now fs fs' stats :
  buildIndex api now fs = (fs', inr stats) ->
  STATS fs' = Some stats
  /\ exists table,
       INDEX_DB fs' = Some table
       /\ totalMessages stats = Z.of_nat (List.length table)
       /\ totalChats stats = distinct (map chat_id table)
       /\ totalContacts stats = distinct (map row_sender table).
Proof.
  unfold buildIndex.
  destruct (defaultWorkspace fs); [|discriminate].
  destruct (testAuth api) as [authInfo|]; [|discriminate].
  destruct (listUsers api) as [users|]; [|discriminate].
  destruct (listConversations api) as [conversations|]; [|discriminate].
  set (st := fold_left _ _ _).
  set (table := match batch st with [] => db st | _ => _ end).
  destruct (addAllSliced _ _ _ _) as [miniSearch|]; [|discriminate].
  intros H. injection H as <- <-. split; [reflexivity|].
  exists table. simpl. split; [reflexivity|].
  rewrite length_map, order_by_length, !map_map.
  split; [reflexivity|].
  split; apply distinct_perm;
    [apply (order_by_column chat_id) | apply (order_by_column row_sender)].
Qed.

End Stats.

Section Cursors.

Lemma gt_le t c : Js.gt t c = true -> String.le c t.
Proof.
  unfold Js.gt, String.ltb, String.le, String.leb.
  now destruct (String.compare c t).
Qed.

Lemma empty_le t : String.le "" t.
Proof. unfold String.le, String.leb. now destruct t. Qed.

Lemma advance_le cur k t k' c :
  cur !! k' = Some c ->
  exists c', advance cur k t !! k' = Some c' /\ String.le c c'.
Proof.
  intros Hc. unfold advance.
  destruct (decide (k = k')) as [->|Hne].
  - rewrite Hc. unfold Js.truthy.
    destruct (String.eqb_spec c "") as [->|_]; simpl.
    + exists t. rewrite lookup_insert_eq. split; [reflexivity|apply empty_le].
    + destruct (Js.gt t c) eqn:G.
      * exists t. rewrite lookup_insert_eq. split; [reflexivity|now apply gt_le].
      * exists c. split; [exact Hc|reflexivity].
  - exists c. split; [|reflexivity].
    destruct (cur !! k) as [c0|]; [destruct (_ || _)|];
      rewrite ?lookup_insert_ne by exact Hne; exact Hc.
Qed.

Lemma cursors_le_refl a : cursors_le a a.
Proof. intros k c H. exists c. split; [exact H|reflexivity]. Qed.

Lemma cursors_le_trans a b c : cursors_le a b -> cursors_le b c -> cursors_le a c.
Proof.
  intros Hab Hbc k x Hx. apply Hab in Hx as (y & Hy & Hxy).
  apply Hbc in Hy as (z & Hz & Hyz). exists z. split; [exact Hz|].
  etransitivity; eassumption.
Qed.

Lemma checkMessages_cursors api conv channelName msgs st :
  cursors_le (snd st) (snd (checkMessages api conv channelName msgs st)).
Proof.
  revert st. induction msgs as [|msg rest IH]; intros st; simpl;
    [apply cursors_le_refl|].
  assert (Hstep : cursors_le (snd st) (advance (snd st) conv (ts msg)))
    by (intros k c; apply advance_le).
  destruct (0 <? replyCount msg).
  - destruct (getThreadReplies api conv (ts msg)); [|apply cursors_le_refl].
    eapply cursors_le_trans; [exact Hstep|]. apply (IH (_, _)).
  - eapply cursors_le_trans; [exact Hstep|]. apply (IH (_, _)).
Qed.

Lemma observed_cursors api userMap existing conversations st :
  cursors_le (snd st)
    (snd (fold_left (checkConversation api userMap existing) conversations st)).
Proof.
  revert st. induction conversations as [|conv rest IH]; intros st; simpl;
    [apply cursors_le_refl|].
  eapply cursors_le_trans; [|apply IH].
  unfold checkConversation.
  destruct (getConversationHistory _ _ _);
    [apply checkMessages_cursors | apply cursors_le_refl].
Qed.

(** An incremental sync that returns stats never lowers a cursor, and
    never drops one. *)
Lemma updateIndex_cursors_monotone api now fs fs' existing stats :
  getStats fs = Some existing ->
  updateIndex api now fs = (fs', inr (Some stats)) ->
  cursors_le (conversationCursors existing) (conversationCursors stats).
Proof.
  intros Hstats. unfold updateIndex. rewrite Hstats.
  destruct (Nat.eqb _ 0); [discriminate|].
  destruct (defaultWorkspace fs); [|discriminate].
  destruct (testAuth api) as [authInfo|]; [|discriminate].
  destruct (listConversations api) as [conversations|]; [|discriminate].
  pose proof (observed_cursors api (loadUsersCache fs)
                (conversationCursors existing) conversations
                ([], conversationCursors existing)) as Hle.
  destruct (fold_left _ conversations _) as [newMessages updatedCursors].
  simpl in Hle. destruct newMessages as [|m l].
  - intros H. injection H as _ <-. exact Hle.
  - destruct (INDEX_DB fs); [|discriminate].
    destruct (FUZZY_INDEX fs); [|discriminate].
    destruct (addAll _ _); [|discriminate].
    intros H. injection H as _ <-. exact Hle.
Qed.

(** An incremental sync carries the conversation and sender totals over
    from the stats it found. *)
Lemma updateIndex_copies_totals api now fs fs' existing stats :
  getStats fs = Some existing ->
  updateIndex api now fs = (fs', inr (Some stats)) ->
  totalChats stats = totalChats existing
  /\ totalContacts stats = totalContacts existing.
Proof.
  intros Hstats. unfold updateIndex. rewrite Hstats.
  destruct (Nat.eqb _ 0); [discriminate|].
  destruct (defaultWorkspace fs); [|discriminate].
  destruct (testAuth api) as [authInfo|]; [|discriminate].
  destruct (listConversations api) as [conversations|]; [|discriminate].
  destruct (fold_left _ conversations _) as [newMessages updatedCursors].
  destruct newMessages as [|m l].
  - intros H. injection H as _ <-. now split.
  - destruct (INDEX_DB fs); [|discriminate].
    destruct (FUZZY_INDEX fs); [|discriminate].
    destruct (addAll _ _); [|discriminate].
    intros H. injection H as _ <-. now split.
Qed.

End Cursors.

(** ** The statements at sample inputs *)

Lemma search_context_windows_witness :
  0 <= context deadline_from_alice
  /\ exists l c',
       search sample_search deadline_from_alice sample_fs noCaches = (inr l, c')
       /\ exists db,
            fst (getDb sample_fs noCaches) = inr db
            /\ Forall (context_ok db (context deadline_from_alice)) l.
Proof.
  split; [simpl; lia|]. do 2 eexists. split; [vm_compute; reflexivity|].
  eapply (search_context_windows sample_search deadline_from_alice
            sample_fs noCaches); [simpl; lia | vm_compute; reflexivity].
Defined.

(** The example of the specification: around the message at 30, with a
    context of 2, the dates before are 10 and 20 and the dates after are
    40 and 50. *)
Example context_around_30 :
  match fst (search sample_search deadline_from_alice sample_fs noCaches) with
  | inr [rc] =>
      date (message (result rc)) = 30
      /\ map date (before rc) = [10; 20]
      /\ map date (after rc) = [40; 50]
  | _ => False
  end.
Proof. vm_compute. repeat split. Qed.

Lemma search_empty_query_without_index :
  noTextQuery (query empty_request)
  /\ noFrom (from empty_request)
  /\ search sample_search empty_request no_files noCaches
     = (inl IndexNotFound, noCaches)
  /\ fst (search sample_search empty_request no_files noCaches) <> inr [].
Proof.
  split; [right; exists ""; split; [reflexivity|now left]|].
  split; [now left|].
  split; [reflexivity|]. simpl. discriminate.
Qed.

Lemma search_empty_query_with_index_witness :
  getDb sample_fs noCaches = (inr sample_db, opened)
  /\ noTextQuery (query empty_request)
  /\ noFrom (from empty_request)
  /\ search sample_search empty_request sample_fs noCaches = (inr [], opened).
Proof.
  assert (Hq : noTextQuery (query empty_request))
    by (right; exists ""; split; [reflexivity|now left]).
  assert (Hf : noFrom (from empty_request)) by now left.
  split; [reflexivity|]. split; [exact Hq|]. split; [exact Hf|].
  exact (search_empty_query_with_index sample_search empty_request sample_fs
           noCaches sample_db opened eq_refl Hq Hf).
Defined.

Lemma search_raises_without_index_witness :
  INDEX_DB no_files = None
  /\ cachedDb noCaches = None
  /\ forall options,
       search sample_search options no_files noCaches
       = (inl IndexNotFound, noCaches).
Proof.
  split; [reflexivity|]. split; [reflexivity|].
  exact (proj1 (search_raises_without_index sample_search no_files noCaches
                  eq_refl eq_refl)).
Defined.

Lemma searchByText_filtered_witness :
  0 <= 1
  /\ Js.truthy_opt (Some "bob") || Js.present (Some 30500) = true
  /\ getMiniSearch sample_fs noCaches
     = (inr (map rowToIndexed sample_db),
        {| cachedDb := None;
           cachedMiniSearch := Some (map rowToIndexed sample_db) |})
  /\ ascii_text "bob" = true
  /\ Forall (fun r => ascii_text (sender (message r)) = true)
       (sample_search (map rowToIndexed sample_db) "deadline")
  /\ exists l,
       searchByText sample_search "deadline" (Some "bob") (Some 30500) 1
         sample_fs noCaches
       = (inr l, {| cachedDb := None;
                    cachedMiniSearch := Some (map rowToIndexed sample_db) |})
       /\ Z.of_nat (List.length l) <= 1
       /\ Forall (passes (Some "bob") (Some 30500)) l.
Proof.
  assert (Hascii : Forall (fun r => ascii_text (sender (message r)) = true)
                     (sample_search (map rowToIndexed sample_db) "deadline"))
    by (vm_compute; repeat constructor).
  split; [lia|]. split; [reflexivity|]. split; [reflexivity|].
  split; [reflexivity|]. split; [exact Hascii|].
  destruct (searchByText_filtered sample_search "deadline" (Some "bob")
              (Some 30500) 1 sample_fs noCaches (map rowToIndexed sample_db)
              {| cachedDb := None;
                 cachedMiniSearch := Some (map rowToIndexed sample_db) |})
    as (l & Hrun & _ & Hlen & Hpass).
  - lia.
  - reflexivity.
  - reflexivity.
  - vm_compute. repeat constructor; discriminate.
  - intros f E. injection E as <-. reflexivity.
  - exact Hascii.
  - exists l. auto.
Defined.

Lemma getContacts_excludes_self_witness :
  getDb sample_fs noCaches = (inr sample_db, opened)
  /\ exists l,
       getContacts 10 sample_fs noCaches = (inr l, opened)
       /\ Forall (contact_ok sample_db) l
       /\ Forall (fun ci => name ci <> "Me Myself") l.
Proof.
  split; [reflexivity|].
  destruct (getContacts_excludes_self 10 sample_fs noCaches sample_db opened
              eq_refl) as (l & Hrun & Hok & _ & Hme).
  exists l. split; [exact Hrun|]. split; [exact Hok|].
  apply Hme. intros r Hr. simpl in Hr.
  repeat (destruct Hr as [<-|Hr]; [try discriminate; reflexivity|]).
  destruct Hr.
Defined.

Lemma updateIndex_nothing_new_witness :
  getStats sample_fs = Some sample_stats
  /\ conversationCursors sample_stats <> ∅
  /\ defaultWorkspace sample_fs = Some "xoxp-1"
  /\ testAuth quiet_api = Some sample_auth
  /\ listConversations quiet_api = Some [ sampleChannel "C1" "general" ]
  /\ fst (observed quiet_api sample_fs sample_stats
            [ sampleChannel "C1" "general" ]) = []
  /\ exists fs' stats,
       updateIndex quiet_api 70000 sample_fs = (fs', inr (Some stats))
       /\ STATS fs' = Some stats
       /\ INDEX_DB fs' = Some sample_db
       /\ totalMessages stats = 6
       /\ indexedAt stats = 70000.
Proof.
  assert (Hne : conversationCursors sample_stats <> ∅)
    by apply insert_non_empty.
  split; [reflexivity|]. split; [exact Hne|].
  split; [reflexivity|]. split; [reflexivity|]. split; [reflexivity|].
  split; [reflexivity|].
  destruct (updateIndex_nothing_new quiet_api 70000 sample_fs sample_stats
              "xoxp-1" sample_auth [ sampleChannel "C1" "general" ]
              eq_refl Hne eq_refl eq_refl eq_refl eq_refl)
    as (fs' & stats & Hrun & _ & Hst & _ & Hdb & _ & _ & _ & Htotal
        & _ & _ & _ & _ & _ & _ & _ & Hat).
  exists fs', stats. auto.
Defined.

(** * Further properties of the code *)

(** ** The browse functions *)

Section Browse.

Lemma newest_first_query (pool : list Row) n :
  0 <= n ->
  newest_first pool (Z.to_nat n) (Sql.limit n (Sql.order_by date_desc pool)).
Proof.
  intros Hn. rewrite limit_firstn by exact Hn.
  change date_desc with (by_key_desc row_date).
  set (sorted := Sql.order_by (by_key_desc row_date) pool).
  assert (Hs : StronglySorted (desc_rel row_date) sorted)
    by apply order_by_desc_sorted.
  exists (skipn (Z.to_nat n) sorted). repeat split.
  - rewrite firstn_skipn. apply order_by_perm.
  - rewrite length_firstn. unfold sorted. now rewrite order_by_length.
  - apply sorted_firstn, Hs.
  - intros r k Hr Hk.
    exact (sorted_split (desc_rel row_date) _ _ Hs k r Hk Hr).
Qed.

(** X1. [getRecentMessages] returns the [limit] newest rows of the whole
    table, newest first, and all rows when the table has fewer. *)
Theorem getRecentMessages_newest limit fs c db c' :
  0 <= limit ->
  getDb fs c = (inr db, c') ->
  exists kept,
    getRecentMessages limit fs c
    = (inr (map (fun row => {| rm_message := rowToMessage row;
                               rm_chatName := chat_name row |}) kept), c')
    /\ newest_first db (Z.to_nat limit) kept.
Proof.
  intros Hl Hdb. exists (Sql.limit limit (Sql.order_by date_desc db)). split.
  - unfold getRecentMessages, bind, ensureIndexM, ret. now rewrite Hdb.
  - now apply newest_first_query.
Qed.

Lemma head_sorted_max (g : list Row) r rest :
  Sql.order_by date_desc g = r :: rest ->
  In r g /\ forall r', In r' g -> row_date r' <= row_date r.
Proof.
  intros E.
  assert (Hs : StronglySorted (desc_rel row_date) (Sql.order_by date_desc g))
    by apply (order_by_desc_sorted row_date).
  split.
  - apply (order_by_In date_desc). rewrite E. now left.
  - intros r' Hr'. apply (order_by_In date_desc) in Hr'. rewrite E in Hr', Hs.
    destruct Hr' as [->|Hr']; [lia|].
    apply StronglySorted_inv in Hs as [_ Hall].
    rewrite List.Forall_forall in Hall. now apply Hall.
Qed.

Lemma group_named db c :
  List.filter (inChat c) (List.filter namedRow db) = namedOf db c.
Proof.
  apply filter_twice. intros r. unfold inChat. apply andb_comm.
Qed.

Lemma conversationsOf_keys db limit cv :
  In cv (conversationsOf db limit) ->
  exists r, In r db /\ namedRow r = true /\ chat_id r = cv_chatId cv
            /\ cv = conversationOf db (List.filter namedRow db) (cv_chatId cv).
Proof.
  unfold conversationsOf. intros H.
  apply limit_In, order_by_In, in_map_iff in H as (k & <- & Hk).
  apply list_elem_of_In in Hk. rewrite elem_of_remove_dups in Hk.
  apply list_elem_of_In in Hk.
  apply in_map_iff in Hk as (r & <- & Hr). apply filter_In in Hr as [Hin Hn].
  exists r. simpl. auto.
Qed.

Lemma conversationsOf_ok db limit :
  Forall (conversation_ok db) (conversationsOf db limit).
Proof.
  apply List.Forall_forall. intros cv Hcv.
  apply conversationsOf_keys in Hcv as (r & Hin & Hn & Hk & ->).
  simpl in Hk. rewrite <- Hk. unfold conversation_ok. simpl.
  rewrite group_named.
  assert (Hg : In r (namedOf db (chat_id r))).
  { unfold namedOf. apply filter_In. split; [exact Hin|].
    now rewrite String.eqb_refl, Hn. }
  assert (Hall : In r (allOf db (chat_id r))).
  { unfold allOf, inChat. apply filter_In. split; [exact Hin|].
    apply String.eqb_refl. }
  assert (Hnil : namedOf db (chat_id r) <> [])
    by (intros E; rewrite E in Hg; destruct Hg).
  destruct (maxDate_spec _ Hnil) as [(rm & Hrm & Hmax) Hbound].
  destruct (Sql.order_by date_desc (namedOf db (chat_id r))) as [|h t] eqn:E.
  { exfalso. apply (order_by_In date_desc) in Hg. rewrite E in Hg. destruct Hg. }
  destruct (head_sorted_max _ _ _ E) as [Hh Hhmax].
  assert (Hhd : row_date h = maxDate (namedOf db (chat_id r))).
  { pose proof (Hbound h Hh). pose proof (Hhmax rm Hrm). lia. }
  split; [|split; [|split; [|split; [|split]]]].
  - unfold namedOf in Hh. apply filter_In in Hh as [_ Hh].
    apply andb_true_iff in Hh as [_ Hh]. unfold namedRow in Hh.
    destruct (String.eqb_spec (chat_name h) ""); [discriminate|assumption].
  - destruct (namedOf db (chat_id r)); [contradiction|]. simpl. lia.
  - reflexivity.
  - exists h. auto.
  - exact Hbound.
  - fold (allOf db (chat_id r)).
    destruct (Sql.order_by date_desc (allOf db (chat_id r))) as [|h' t'] eqn:E'.
    { exfalso. apply (order_by_In date_desc) in Hall. rewrite E' in Hall.
      destruct Hall. }
    destruct (head_sorted_max _ _ _ E') as [Hh' Hmax']. simpl.
    exists h'. auto.
Qed.

Lemma conversationsOf_distinct db limit :
  NoDup (map cv_chatId (conversationsOf db limit)).
Proof.
  apply NoDup_ListNoDup. unfold conversationsOf.
  set (rows := List.filter namedRow db).
  set (keys := remove_dups (map chat_id rows)).
  set (sorted := Sql.order_by conv_last_desc (map (conversationOf db rows) keys)).
  assert (Hall : List.NoDup (map cv_chatId sorted)).
  { eapply Permutation_NoDup.
    - apply Permutation_map, order_by_perm.
    - rewrite map_map. simpl. rewrite map_id.
      apply NoDup_ListNoDup, NoDup_remove_dups. }
  unfold Sql.limit. destruct (limit <? 0); [exact Hall|].
  rewrite <- (firstn_skipn (Z.to_nat limit) sorted), map_app in Hall.
  now apply NoDup_app_remove_r in Hall.
Qed.

(** X2. [getConversations] lists every chat at most once. For each chat it
    counts the rows with a non-empty channel name (at least one), reports
    the date of the newest of them and the channel name of a row with that
    date, and previews the text of the newest row of the chat in the whole
    table. The list is in descending order of last activity and holds at
    most [limit] chats. *)
Theorem getConversations_summary limit fs c db c' :
  0 <= limit ->
  getDb fs c = (inr db, c') ->
  exists l,
    getConversations limit fs c = (inr l, c')
    /\ NoDup (map cv_chatId l)
    /\ Forall (conversation_ok db) l
    /\ StronglySorted (desc_rel cv_lastMessageDate) l
    /\ Z.of_nat (List.length l) <= limit.
Proof.
  intros Hl Hdb. exists (conversationsOf db limit).
  split; [|split; [|split; [|split]]].
  - unfold getConversations, bind, ensureIndexM, ret. now rewrite Hdb.
  - apply conversationsOf_distinct.
  - apply conversationsOf_ok.
  - unfold conversationsOf. rewrite limit_firstn by exact Hl.
    apply sorted_firstn. apply (order_by_desc_sorted cv_lastMessageDate).
  - unfold conversationsOf. rewrite limit_firstn by exact Hl.
    rewrite length_firstn. lia.
Qed.

Lemma like_includes s pattern :
  wildcard_free pattern ->
  Sql.like (Sql.lower s) ("%" +:+ Js.toLowerCase pattern +:+ "%")
  = Js.includes (Js.toLowerCase s) (Js.toLowerCase pattern).
Proof.
  intros Hw. pose proof (like_contains s pattern Hw) as H1.
  pose proof (includes_contains (Js.toLowerCase s) (Js.toLowerCase pattern)) as H2.
  unfold contains_ci in H1.
  destruct (Sql.like _ _), (Js.includes _ _); try reflexivity.
  - symmetry. apply H2, H1. reflexivity.
  - apply H1, H2. reflexivity.
Qed.

Lemma oldest_first_query (pool : list Row) n :
  0 <= n ->
  oldest_first pool (Z.to_nat n) (Sql.limit n (Sql.order_by date_asc pool)).
Proof.
  intros Hn. rewrite limit_firstn by exact Hn.
  change date_asc with (by_key_asc row_date).
  set (sorted := Sql.order_by (by_key_asc row_date) pool).
  assert (Hs : StronglySorted (asc_rel row_date) sorted)
    by apply order_by_asc_sorted.
  exists (skipn (Z.to_nat n) sorted). repeat split.
  - rewrite firstn_skipn. apply order_by_perm.
  - rewrite length_firstn. unfold sorted. now rewrite order_by_length.
  - apply sorted_firstn, Hs.
  - intros r k Hr Hk.
    exact (sorted_split (asc_rel row_date) _ _ Hs k r Hk Hr).
Qed.

(** X3. [getThread] with an ASCII channel pattern free of LIKE wildcards,
    on a table whose channel names are ASCII, returns the [limit] (100 when
    absent) oldest of the rows whose channel name contains the pattern up
    to case and whose date is not below the date floor, oldest first; which
    of several rows of equal date come first, or are kept, is left open. *)
Theorem getThread_chronological channel after limit fs c db c' :
  0 <= default 100 limit ->
  wildcard_free channel ->
  ascii_text channel = true ->
  Forall (fun r => ascii_text (chat_name r) = true) db ->
  getDb fs c = (inr db, c') ->
  exists kept,
    getThread channel after limit fs c = (inr (map rowToMessage kept), c')
    /\ oldest_first (List.filter (ofChannel channel after) db)
         (Z.to_nat (default 100 limit)) kept
    /\ StronglySorted (asc_rel date) (map rowToMessage kept)
    /\ Z.of_nat (List.length kept) <= default 100 limit
    /\ Forall (fun r => In r db
                        /\ contains_ci (chat_name r) channel
                        /\ forall t, after = Some t ->
                                     floorSeconds t <= row_date r) kept.
Proof.
  intros Hl Hw _ _ Hdb.
  set (pool := List.filter (ofChannel channel after) db).
  assert (E : threadOf db channel after limit
              = map rowToMessage
                  (Sql.limit (default 100 limit) (Sql.order_by date_asc pool))).
  { unfold threadOf, pool. do 3 f_equal.
    apply filter_ext. intros r. unfold ofChannel.
    now rewrite (like_includes (chat_name r) channel Hw). }
  exists (Sql.limit (default 100 limit) (Sql.order_by date_asc pool)).
  pose proof (oldest_first_query pool (default 100 limit) Hl) as Hold.
  split; [|split; [exact Hold|]].
  - unfold getThread, bind, ensureIndexM, ret. now rewrite Hdb, E.
  - destruct Hold as (rest & _ & Hlen & Hsorted & _). split; [|split].
    + apply (sorted_map (asc_rel row_date)); [intros x y H; exact H|].
      exact Hsorted.
    + rewrite Hlen. lia.
    + apply List.Forall_forall. intros row Hrow.
      apply limit_In, (order_by_In date_asc), filter_In in Hrow as [Hin Hrow].
      unfold ofChannel in Hrow. apply andb_true_iff in Hrow as [Hinc Hdate].
      split; [exact Hin|]. split.
      * apply includes_contains in Hinc. exact Hinc.
      * intros t ->. lia.
Qed.

(** X4. Before an index is built every browse function raises the
    index-not-found error and leaves the handles as they were. *)
Theorem browse_raises_without_index fs c :
  INDEX_DB fs = None -> cachedDb c = None ->
  (forall limit, getRecentMessages limit fs c = (inl IndexNotFound, c))
  /\ (forall limit, getContacts limit fs c = (inl IndexNotFound, c))
  /\ (forall limit, getConversations limit fs c = (inl IndexNotFound, c))
  /\ (forall channel after limit,
        getThread channel after limit fs c = (inl IndexNotFound, c)).
Proof.
  intros Hf Hc.
  repeat split; intros;
    unfold getRecentMessages, getContacts, getConversations, getThread,
      bind, ensureIndexM, ret;
    now rewrite (getDb_missing fs c Hf Hc).
Qed.

End Browse.

(** ** The searcher: the shapes of a request *)

Section Shapes.

Variable ms : MiniSearch -> string -> list SearchResult.

(** X5. When the request has no usable text query, the text it carries is
    ignored: two requests that differ only in such a text (absent, empty,
    blank or the wildcard token) get the same answer. *)
Theorem search_ignores_blank_text o1 o2 fs c :
  noTextQuery (query o1) -> noTextQuery (query o2) ->
  from o1 = from o2 -> opt_after o1 = opt_after o2 ->
  limit o1 = limit o2 -> context o1 = context o2 ->
  search ms o1 fs c = search ms o2 fs c.
Proof.
  intros H1 H2 Hf Ha Hl Hc. rewrite !search_opens_first.
  apply hasTextQuery_false_iff in H1, H2.
  rewrite H1, H2, Hf, Ha, Hl, Hc. reflexivity.
Qed.

(** X6. The fuzzy index is opened only for a text query. With index.db in
    place and fuzzy.json missing, a sender-only request is answered from
    the table: it returns hits, each a stored row that is not
    self-authored; and a request with an ASCII text query raises the
    fuzzy-index-not-found error. Both leave the handle of the table
    open and no handle of the fuzzy index. *)
Theorem search_without_fuzzy_index options fs db :
  INDEX_DB fs = Some db -> FUZZY_INDEX fs = None ->
  let opened := {| cachedDb := Some db; cachedMiniSearch := None |} in
  (hasTextQuery (query options) = true ->
   (forall q, query options = Some q -> ascii_text q = true) ->
   search ms options fs noCaches = (inl FuzzyIndexNotFound, opened))
  /\ (hasTextQuery (query options) = false ->
      Js.truthy_opt (from options) = true ->
      exists l,
        search ms options fs noCaches = (inr l, opened)
        /\ Forall (fun h => isFromMe (message (result h)) = false
                            /\ exists row, In row db
                                 /\ message (result h) = rowToMessage row) l).
Proof.
  intros Hdb Hfz opened. split.
  - intros Hq _. rewrite search_opens_first. unfold getDb. simpl.
    rewrite Hdb, Hq, andb_false_r.
    unfold searchByText, bind, getMiniSearch. simpl. now rewrite Hfz.
  - intros Hq Hf. eexists. split.
    + rewrite search_opens_first. unfold getDb. simpl.
      rewrite Hdb, Hq, Hf. reflexivity.
    + apply List.Forall_forall. intros h Hh.
      apply in_map_iff in Hh as (r & <- & Hr). simpl.
      unfold searchBySender in Hr.
      apply in_map_iff in Hr as (row & <- & Hrow).
      apply limit_In, order_by_In, filter_In in Hrow as [Hin Hrow].
      apply andb_true_iff in Hrow as [Hrow _].
      apply andb_true_iff in Hrow as [_ Hme]. apply Z.eqb_eq in Hme.
      simpl. split; [now rewrite Hme | now exists row].
Qed.

(** X7. Without a sender and without a date floor a text search returns
    the first [limit] ranked hits of the fuzzy index as they come:
    self-authored messages are not left out. *)
Theorem searchByText_unfiltered q from limit fs c idx c' :
  0 <= limit ->
  noFrom from ->
  getMiniSearch fs c = (inr idx, c') ->
  searchByText ms q from None limit fs c
  = (inr (firstn (Z.to_nat limit) (ms idx q)), c').
Proof.
  intros Hl Hf Hidx. unfold searchByText, bind. rewrite Hidx.
  assert (E : match option_map Js.toLowerCase from with
              | Some fl => if Js.truthy fl
                           then List.filter (senderFilter fl) (ms idx q)
                           else ms idx q
              | None => ms idx q
              end = ms idx q)
    by (destruct Hf as [->| ->]; reflexivity).
  rewrite E.
  assert (Ef : Js.truthy_opt from || Js.present (@None Z) = false)
    by (destruct Hf as [->| ->]; reflexivity).
  rewrite Ef. simpl. unfold ret, Js.slice0.
  destruct (Z.leb_spec 0 limit); [|lia].
  destruct (ms idx q); [now rewrite firstn_nil|].
  now rewrite firstn_firstn, Nat.min_id.
Qed.

Lemma searchByText_length q from after limit fs c l c' :
  0 <= limit ->
  searchByText ms q from after limit fs c = (inr l, c') ->
  Z.of_nat (List.length l) <= limit.
Proof.
  intros Hl. unfold searchByText, bind.
  destruct (getMiniSearch fs c) as [[e|idx] c1]; [discriminate|].
  destruct (match option_map Js.toLowerCase from with
            | Some fl => _ | None => _ end) as [|r0 rs];
    unfold ret; intros H; injection H as <- _; [simpl; lia|].
  now apply slice0_length.
Qed.

(** X8. Whatever the shape of the request, [search] returns at most
    [limit] hits. *)
Theorem search_at_most_limit options fs c l c' :
  0 <= limit options ->
  search ms options fs c = (inr l, c') ->
  Z.of_nat (List.length l) <= limit options.
Proof.
  intros Hl. rewrite search_opens_first.
  destruct (getDb fs c) as [[e|db] c1]; [discriminate|].
  destruct (Js.truthy_opt (from options) && negb (hasTextQuery (query options))).
  { intros H. injection H as <- _. rewrite length_map.
    now apply searchBySender_sound. }
  destruct (hasTextQuery (query options)).
  - destruct (searchByText ms _ _ _ _ fs c1) as [[e|rs] c2] eqn:E; [discriminate|].
    intros H. injection H as <- _. rewrite length_map.
    eapply searchByText_length; eassumption.
  - intros H. injection H as <- _. simpl. lia.
Qed.

End Shapes.

(** ** The structured store: rows and keys *)

Section Rows.

Implicit Types (t : Table) (um : gmap string SlackUser).

Lemma next_id_above t r : In r t -> row_id r < next_id t.
Proof.
  unfold next_id. induction t as [|x t IH]; simpl; [intros []|].
  intros [->|H]; [lia|]. specialize (IH H). lia.
Qed.

Lemma insertRaw_shape um me t msg :
  insertRaw um me t msg = t
  \/ exists r, insertRaw um me t msg = t ++ [r]
               /\ builtFrom um me msg r
               /\ row_id r = next_id t
               /\ has_ts t (row_ts r) = false.
Proof.
  unfold insertRaw, insertMessages.
  destruct (has_ts t (raw_ts msg)) eqn:E; [now left|right].
  eexists. split; [reflexivity|]. unfold builtFrom. simpl.
  repeat split; try exact E.
  destruct (String.eqb (raw_user msg) me); reflexivity.
Qed.

Lemma insertBatch_extends um me b t :
  exists extra,
    insertBatch um me t b = t ++ extra
    /\ Forall (fun r => exists m, In m b /\ builtFrom um me m r) extra
    /\ Forall (fun r => has_ts t (row_ts r) = false) extra
    /\ (List.NoDup (map row_id t) -> List.NoDup (map row_id (t ++ extra))).
Proof.
  unfold insertBatch. revert t.
  induction b as [|msg b IH]; intros t; simpl.
  - exists []. rewrite app_nil_r. repeat split; auto.
  - destruct (insertRaw_shape um me t msg) as [->|(r & -> & Hr & Hid & Hts)].
    + destruct (IH t) as (extra & -> & Hfrom & Hnew & Hnd).
      exists extra. repeat split; auto.
      eapply List.Forall_impl; [|exact Hfrom].
      intros x (m & Hm & Hx). exists m. split; [now right|exact Hx].
    + destruct (IH (t ++ [r])) as (extra & -> & Hfrom & Hnew & Hnd).
      exists (r :: extra). rewrite <- app_assoc. simpl.
      split; [reflexivity|]. split; [|split].
      * constructor; [exists msg; split; [now left|exact Hr]|].
        eapply List.Forall_impl; [|exact Hfrom].
        intros x (m & Hm & Hx). exists m. split; [now right|exact Hx].
      * constructor; [exact Hts|].
        eapply List.Forall_impl; [|exact Hnew].
        intros x Hx. unfold has_ts in *. rewrite existsb_app in Hx.
        now apply orb_false_iff in Hx as [Hx _].
      * intros Ht. rewrite <- app_assoc in Hnd. apply Hnd.
        rewrite map_app. simpl.
        apply NoDup_ListNoDup, NoDup_app. split; [now apply NoDup_ListNoDup|].
        split; [|apply NoDup_singleton].
        intros x Hx Hx'. apply list_elem_of_In in Hx, Hx'.
        destruct Hx' as [<-|[]]. apply in_map_iff in Hx as (r' & E & Hr').
        apply next_id_above in Hr'. lia.
Qed.

(** X9. Insertion only appends. A batch leaves every stored row in place;
    each row it adds is built from a message of the batch and carries a
    [ts] the table did not hold; and the row ids stay pairwise distinct. *)
Theorem insertBatch_appends um me b t :
  exists extra,
    insertBatch um me t b = t ++ extra
    /\ Forall (fun r => exists m, In m b /\ builtFrom um me m r) extra
    /\ Forall (fun r => has_ts t (row_ts r) = false) extra
    /\ (List.NoDup (map row_id t) -> List.NoDup (map row_id (t ++ extra))).
Proof. apply insertBatch_extends. Qed.

Lemma insertBatch_ids um me b :
  List.NoDup (map row_id (insertBatch um me [] b)).
Proof.
  destruct (insertBatch_extends um me b []) as (extra & -> & _ & _ & Hnd).
  apply Hnd. constructor.
Qed.

End Rows.

(** ** The fuzzy index: adding documents *)

Section AddAll.

Lemma has_doc_In ms i : has_doc ms i = true <-> In i (map id ms).
Proof.
  unfold has_doc. rewrite existsb_exists, in_map_iff. split.
  - intros (d & Hd & E). apply Z.eqb_eq in E. eauto.
  - intros (d & E & Hd). exists d. split; [exact Hd|]. now apply Z.eqb_eq.
Qed.

Lemma addAll_fresh docs ms :
  List.NoDup (map id docs) ->
  (forall d, In d docs -> has_doc ms (id d) = false) ->
  addAll ms docs = Some (ms ++ docs).
Proof.
  revert ms. induction docs as [|d docs IH]; intros ms Hnd Hnew; simpl.
  - now rewrite app_nil_r.
  - rewrite (Hnew d) by now left. inversion Hnd as [|? ? Hd Hnd']; subst.
    rewrite IH; [now rewrite <- app_assoc|exact Hnd'|].
    intros d' Hd'. unfold has_doc. rewrite existsb_app. simpl.
    rewrite orb_false_r. apply orb_false_iff. split.
    + apply Hnew. now right.
    + apply Z.eqb_neq. intros E. apply Hd. rewrite E. now apply in_map.
Qed.

Lemma addAll_result docs ms ms' :
  addAll ms docs = Some ms' ->
  ms' = ms ++ docs /\ forall d, In d docs -> has_doc ms (id d) = false.
Proof.
  revert ms. induction docs as [|d docs IH]; intros ms; simpl.
  - intros H. injection H as <-. rewrite app_nil_r. split; [reflexivity|].
    intros d [].
  - destruct (has_doc ms (id d)) eqn:E; [discriminate|].
    intros H. apply IH in H as [-> Hnew]. rewrite <- app_assoc.
    split; [reflexivity|]. intros d' [<-|Hd']; [exact E|].
    specialize (Hnew d' Hd'). unfold has_doc in *.
    rewrite existsb_app in Hnew. now apply orb_false_iff in Hnew as [Hnew _].
Qed.

Lemma addAllSliced_step fuel n ms docs :
  docs <> [] ->
  addAllSliced (S fuel) n ms docs
  = match addAll ms (firstn n docs) with
    | Some ms' => addAllSliced fuel n ms' (skipn n docs)
    | None => None
    end.
Proof. destruct docs; [congruence|reflexivity]. Qed.

Lemma addAllSliced_fresh fuel n docs ms :
  (0 < n)%nat -> (List.length docs <= fuel)%nat ->
  List.NoDup (map id docs) ->
  (forall d, In d docs -> has_doc ms (id d) = false) ->
  addAllSliced fuel n ms docs = Some (ms ++ docs).
Proof.
  intros Hn. revert docs ms.
  induction fuel as [|fuel IH]; intros docs ms Hlen Hnd Hnew.
  - destruct docs; [simpl; now rewrite app_nil_r | simpl in Hlen; lia].
  - destruct (list_eq_nil_dec docs) as [->|Hne];
      [simpl; now rewrite app_nil_r|].
    assert (Hsplit : docs = firstn n docs ++ skipn n docs)
      by (symmetry; apply firstn_skipn).
    assert (Hnd' : List.NoDup (map id (firstn n docs) ++ map id (skipn n docs)))
      by (rewrite <- map_app, <- Hsplit; exact Hnd).
    rewrite addAllSliced_step by exact Hne.
    rewrite (addAll_fresh (firstn n docs) ms).
    + rewrite IH.
      * now rewrite <- app_assoc, <- Hsplit.
      * rewrite length_skipn. destruct docs; [congruence|]. simpl in *. lia.
      * now apply NoDup_app_remove_l in Hnd'.
      * intros d Hd. unfold has_doc. rewrite existsb_app.
        apply orb_false_iff. split.
        -- apply Hnew. eapply In_skipn; exact Hd.
        -- destruct (existsb _ _) eqn:E; [|reflexivity]. exfalso.
           apply has_doc_In in E.
           apply NoDup_ListNoDup, NoDup_app in Hnd' as (_ & Hdis & _).
           apply (Hdis (id d)); apply list_elem_of_In;
             [exact E | now apply in_map].
    + now apply NoDup_app_remove_r in Hnd'.
    + intros d Hd. apply Hnew. eapply In_firstn; exact Hd.
Qed.

End AddAll.

(** ** The indexer: full sync *)

Section FullSync.

Variables (um : gmap string SlackUser) (me : string).

Lemma insertBatch_app t b1 b2 :
  insertBatch um me t (b1 ++ b2) = insertBatch um me (insertBatch um me t b1) b2.
Proof. unfold insertBatch. apply fold_left_app. Qed.

(** What [buildStep] does to each part of the loop state. *)
Lemma buildStep_db st msg :
  insertBatch um me (db (buildStep um me st msg)) (batch (buildStep um me st msg))
  = insertBatch um me (insertBatch um me (db st) (batch st)) [msg].
Proof.
  unfold buildStep.
  destruct (BATCH_SIZE <=? _); simpl; now rewrite insertBatch_app.
Qed.

Lemma buildStep_cursors st msg :
  cursors (buildStep um me st msg)
  = advance (cursors st) (raw_channelId msg) (raw_ts msg).
Proof. unfold buildStep. now destruct (BATCH_SIZE <=? _). Qed.

Lemma buildStep_newest st msg :
  newestDate (buildStep um me st msg)
  = Z.max (newestDate st) (slackTsToUnix (raw_ts msg)).
Proof.
  unfold buildStep. destruct (BATCH_SIZE <=? _); simpl;
    destruct (Z.ltb_spec (newestDate st) (slackTsToUnix (raw_ts msg))); lia.
Qed.

Lemma buildStep_oldest st msg :
  oldestDate (buildStep um me st msg)
  = Some (match oldestDate st with
          | Some o => Z.min o (slackTsToUnix (raw_ts msg))
          | None => slackTsToUnix (raw_ts msg)
          end).
Proof.
  unfold buildStep. destruct (BATCH_SIZE <=? _); simpl;
    destruct (oldestDate st) as [o|]; try reflexivity;
    destruct (Z.ltb_spec (slackTsToUnix (raw_ts msg)) o); f_equal; lia.
Qed.

(** The batches of [BATCH_SIZE] add up to one insertion of everything. *)
Lemma buildLoop_db all st :
  let st' := fold_left (buildStep um me) all st in
  insertBatch um me (db st') (batch st')
  = insertBatch um me (insertBatch um me (db st) (batch st)) all.
Proof.
  revert st. induction all as [|msg all IH]; intros st; simpl; [reflexivity|].
  rewrite IH, buildStep_db. reflexivity.
Qed.

Lemma buildLoop_cursors all st :
  cursors (fold_left (buildStep um me) all st)
  = fold_left (fun c m => advance c (raw_channelId m) (raw_ts m)) all (cursors st).
Proof.
  revert st. induction all as [|msg all IH]; intros st; simpl; [reflexivity|].
  now rewrite IH, buildStep_cursors.
Qed.

Lemma buildLoop_newest all st m :
  In m all ->
  slackTsToUnix (raw_ts m) <= newestDate (fold_left (buildStep um me) all st).
Proof.
  assert (Hmono : forall l s, newestDate s <= newestDate (fold_left (buildStep um me) l s)).
  { induction l as [|x l IH]; intros s; simpl; [lia|].
    specialize (IH (buildStep um me s x)). rewrite buildStep_newest in IH. lia. }
  revert st. induction all as [|x all IH]; intros st; simpl; [intros []|].
  intros [->|Hm]; [|now apply IH].
  specialize (Hmono all (buildStep um me st m)).
  rewrite buildStep_newest in Hmono. lia.
Qed.

Lemma buildLoop_oldest all st m :
  In m all ->
  exists o, oldestDate (fold_left (buildStep um me) all st) = Some o
            /\ o <= slackTsToUnix (raw_ts m).
Proof.
  assert (Hmono : forall l s o, oldestDate s = Some o ->
            exists o', oldestDate (fold_left (buildStep um me) l s) = Some o'
                       /\ o' <= o).
  { induction l as [|x l IH]; intros s o Ho; simpl; [exists o; split; [exact Ho|lia]|].
    destruct (IH (buildStep um me s x) _ (buildStep_oldest s x)) as (o' & E & Hle).
    exists o'. split; [exact E|]. rewrite Ho in Hle. lia. }
  revert st. induction all as [|x all IH]; intros st; simpl; [intros []|].
  intros [->|Hm]; [|now apply IH].
  destruct (Hmono all _ _ (buildStep_oldest st m)) as (o' & E & Hle).
  exists o'. split; [exact E|]. destruct (oldestDate st); lia.
Qed.

End FullSync.

Section FullSyncRun.

Variable api : SlackApi.

(** What a full sync returns and writes once the workspace is configured
    and the three listing calls succeed. *)
Lemma buildIndex_run now fs tok authInfo users conversations :
  defaultWorkspace fs = Some tok ->
  testAuth api = Some authInfo ->
  listUsers api = Some users ->
  listConversations api = Some conversations ->
  let um := userMapOf users in
  let all := collectedBy api um conversations in
  let st := fold_left (buildStep um (userId authInfo)) all
              {| oldestDate := None; newestDate := 0; cursors := ∅;
                 db := []; batch := [] |} in
  let table := insertBatch um (userId authInfo) [] all in
  let docs := map rowToIndexed (Sql.order_by date_asc table) in
  let stats :=
    {| totalMessages := Z.of_nat (List.length docs);
       totalChats := distinct (map chatId docs);
       totalContacts := distinct (map sender docs);
       indexedAt := now;
       oldestMessage := match oldestDate st with
                        | Some o => o * 1000
                        | None => now
                        end;
       newestMessage := if newestDate st =? 0 then now else newestDate st * 1000;
       workspaceId := teamId authInfo;
       workspaceName := teamName authInfo;
       conversationCursors := cursors st |} in
  buildIndex api now fs
  = ({| INDEX_DB := Some table; FUZZY_INDEX := Some docs; STATS := Some stats;
        USERS_CACHE := Some um; defaultWorkspace := Some tok |}, inr stats).
Proof.
  intros Hws Hauth Husers Hconvs um all st table docs stats.
  unfold buildIndex. rewrite Hws, Hauth, Husers, Hconvs.
  fold um. fold (collectedBy api um conversations). fold all. fold st.
  pose proof (buildLoop_db um (userId authInfo) all
                {| oldestDate := None; newestDate := 0; cursors := ∅;
                   db := []; batch := [] |}) as H.
  simpl in H. fold st in H. fold table in H.
  assert (Htable : match batch st with
                   | [] => db st
                   | r :: l => insertBatch um (userId authInfo) (db st) (r :: l)
                   end = table)
    by (rewrite <- H; now destruct (batch st)).
  rewrite Htable. fold docs.
  rewrite addAllSliced_fresh.
  - simpl. unfold saveStats. simpl. rewrite Hws. reflexivity.
  - unfold MINI_BATCH. lia.
  - lia.
  - unfold docs. rewrite map_map. simpl.
    change (fun x : Row => row_id x) with row_id.
    eapply Permutation_NoDup;
      [apply Permutation_map, order_by_perm | apply insertBatch_ids].
  - intros d _. reflexivity.
Qed.

(** X10. A full sync succeeds whenever a workspace is configured and
    authentication and the two listings succeed, whatever the history and
    reply fetches of the single conversations do. When the timestamps it
    collects have Slack's format, the table it stores holds a row for the
    [ts] of every collected message and no two rows with the same [ts];
    each row is built from a collected message; keys apart, the rows are
    those that one insertion of all collected messages into an empty table
    gives (the batches of 1000 make no difference), and the keys are
    pairwise distinct. It stores one fuzzy document per stored row, the
    user map, and the stats it returns, whose [totalMessages] is the
    number of rows. *)
Theorem buildIndex_succeeds now fs tok authInfo users conversations :
  let um := userMapOf users in
  let collected := collectedBy api um conversations in
  defaultWorkspace fs = Some tok ->
  testAuth api = Some authInfo ->
  listUsers api = Some users ->
  listConversations api = Some conversations ->
  Forall (fun m => slack_ts (raw_ts m) = true) collected ->
  exists fs' stats table idx,
    buildIndex api now fs = (fs', inr stats)
    /\ INDEX_DB fs' = Some table
    /\ (forall m, In m collected -> has_ts table (raw_ts m) = true)
    /\ NoDup (map row_ts table)
    /\ Forall (fun r => exists m, In m collected
                          /\ builtFrom um (userId authInfo) m r) table
    /\ map unkeyed table
       = map unkeyed (insertBatch um (userId authInfo) [] collected)
    /\ List.NoDup (map row_id table)
    /\ FUZZY_INDEX fs' = Some idx
    /\ Permutation idx (map rowToIndexed table)
    /\ USERS_CACHE fs' = Some um
    /\ STATS fs' = Some stats
    /\ totalMessages stats = Z.of_nat (List.length table)
    /\ in_sync fs'.
Proof.
  intros um collected Hws Hauth Husers Hconvs _.
  pose proof (buildIndex_run now fs tok authInfo users conversations
                Hws Hauth Husers Hconvs) as Hrun.
  cbv zeta in Hrun. fold um in Hrun. fold collected in Hrun.
  do 4 eexists. split; [exact Hrun|]. simpl.
  split; [reflexivity|].
  split; [intros m Hm; now apply insertBatch_adds|].
  split; [apply insertBatch_unique; constructor|].
  split.
  { destruct (insertBatch_extends um (userId authInfo) collected [])
      as (extra & E & Hfrom & _). rewrite E. exact Hfrom. }
  split; [reflexivity|].
  split; [apply insertBatch_ids|]. split; [reflexivity|].
  split; [symmetry; apply Permutation_map, order_by_perm|].
  split; [reflexivity|]. split; [reflexivity|].
  split; [now rewrite length_map, order_by_length|].
  eexists _, _, _. simpl. repeat split.
  - rewrite map_map. simpl. change (fun x : Row => row_id x) with row_id.
    symmetry. apply Permutation_map, order_by_perm.
  - apply insertBatch_ids.
  - now rewrite length_map, order_by_length.
Qed.

(** X11. A full sync that fails has not touched the index: it can fail only
    for a missing workspace, a failed authentication or a failed listing,
    and then index.db, fuzzy.json and stats.json are as before; only a
    failure of the conversation listing comes after the user cache was
    rewritten. *)
Theorem buildIndex_failure_keeps_index now fs fs' e :
  buildIndex api now fs = (fs', inl e) ->
  INDEX_DB fs' = INDEX_DB fs
  /\ FUZZY_INDEX fs' = FUZZY_INDEX fs
  /\ STATS fs' = STATS fs
  /\ (e = NoWorkspace \/ e = AuthenticationFailed \/ e = ListUsersFailed
      \/ e = ListConversationsFailed)
  /\ (e <> ListConversationsFailed -> fs' = fs).
Proof.
  destruct (defaultWorkspace fs) as [tok|] eqn:Hws.
  2:{ unfold buildIndex. rewrite Hws. intros H. injection H as <- <-.
      repeat split; auto. }
  destruct (testAuth api) as [authInfo|] eqn:Hauth.
  2:{ unfold buildIndex. rewrite Hws, Hauth. intros H. injection H as <- <-.
      repeat split; auto. }
  destruct (listUsers api) as [users|] eqn:Husers.
  2:{ unfold buildIndex. rewrite Hws, Hauth, Husers. intros H.
      injection H as <- <-. repeat split; auto. }
  destruct (listConversations api) as [conversations|] eqn:Hconvs.
  2:{ unfold buildIndex. rewrite Hws, Hauth, Husers, Hconvs. intros H.
      injection H as <- <-. simpl. repeat split; auto. congruence. }
  pose proof (buildIndex_run now fs tok authInfo users conversations
                Hws Hauth Husers Hconvs) as Hrun.
  cbv zeta in Hrun. rewrite Hrun. discriminate.
Qed.

End FullSyncRun.

Section FullSyncStats.

Variable api : SlackApi.

Lemma not_gt_le t c : Js.gt t c = false -> String.le t c.
Proof.
  unfold Js.gt, String.ltb, String.le, String.leb.
  rewrite (String.compare_antisym t c).
  now destruct (String.compare c t).
Qed.

Lemma advance_greatest seen cur m :
  (forall k, greatest_ts seen k (cur !! k)) ->
  forall k, greatest_ts (seen ++ [m]) k
              (advance cur (raw_channelId m) (raw_ts m) !! k).
Proof.
  intros Hinv k. specialize (Hinv k). unfold advance.
  destruct (decide (raw_channelId m = k)) as [E|Hne].
  - rewrite E. destruct (cur !! k) as [c|] eqn:Hc; simpl in Hinv.
    + destruct Hinv as [Hex Hall].
      destruct (negb (Js.truthy c) || Js.gt (raw_ts m) c) eqn:Hcond.
      * rewrite lookup_insert_eq. simpl. split.
        { exists m. split; [apply in_or_app; right; now left|auto]. }
        intros m' Hm' Hk. apply in_app_or in Hm' as [Hm'|[<-|[]]]; [|reflexivity].
        transitivity c; [now apply Hall|].
        apply orb_true_iff in Hcond as [Hc0|Hgt]; [|now apply gt_le].
        unfold Js.truthy in Hc0.
        destruct (String.eqb_spec c "") as [->|]; [apply empty_le|discriminate].
      * rewrite Hc. simpl. apply orb_false_iff in Hcond as [_ Hgt]. split.
        { destruct Hex as (m0 & Hm0 & Hk0 & Hts0). exists m0.
          split; [apply in_or_app; now left|auto]. }
        intros m' Hm' Hk. apply in_app_or in Hm' as [Hm'|[<-|[]]];
          [now apply Hall | now apply not_gt_le].
    + rewrite lookup_insert_eq. simpl. split.
      { exists m. split; [apply in_or_app; right; now left|auto]. }
      intros m' Hm' Hk. apply in_app_or in Hm' as [Hm'|[<-|[]]]; [|reflexivity].
      now apply Hinv in Hm'.
  - assert (Hsame : (match cur !! raw_channelId m with
                     | Some c => if negb (Js.truthy c) || Js.gt (raw_ts m) c
                                 then <[raw_channelId m := raw_ts m]> cur else cur
                     | None => <[raw_channelId m := raw_ts m]> cur
                     end) !! k = cur !! k).
    { destruct (cur !! raw_channelId m) as [c|]; [destruct (_ || _)|];
        rewrite ?lookup_insert_ne by exact Hne; reflexivity. }
    rewrite Hsame. destruct (cur !! k) as [c|]; simpl in *.
    + destruct Hinv as [(m0 & Hm0 & Hk0 & Hts0) Hall]. split.
      { exists m0. split; [apply in_or_app; now left|auto]. }
      intros m' Hm' Hk. apply in_app_or in Hm' as [Hm'|[<-|[]]];
        [now apply Hall | contradiction].
    + intros m' Hm'. apply in_app_or in Hm' as [Hm'|[<-|[]]];
        [now apply Hinv | exact Hne].
Qed.

Lemma advance_fold_greatest l seen cur :
  (forall k, greatest_ts seen k (cur !! k)) ->
  forall k, greatest_ts (seen ++ l) k
              (fold_left (fun c m => advance c (raw_channelId m) (raw_ts m)) l cur
               !! k).
Proof.
  revert seen cur. induction l as [|m l IH]; intros seen cur Hinv k; simpl.
  - rewrite app_nil_r. apply Hinv.
  - replace (seen ++ m :: l) with ((seen ++ [m]) ++ l)
      by (rewrite <- app_assoc; reflexivity).
    apply IH. now apply advance_greatest.
Qed.

(** X12. After a full sync the cursor of a conversation is the greatest
    [ts], in the order of the string comparison, among all messages
    collected for it, thread replies included; a conversation without
    collected messages has no cursor. *)
Theorem buildIndex_cursors_greatest now fs tok authInfo users conversations :
  defaultWorkspace fs = Some tok ->
  testAuth api = Some authInfo ->
  listUsers api = Some users ->
  listConversations api = Some conversations ->
  exists fs' stats,
    buildIndex api now fs = (fs', inr stats)
    /\ forall k,
         greatest_ts (collectedBy api (userMapOf users) conversations) k
           (conversationCursors stats !! k).
Proof.
  intros Hws Hauth Husers Hconvs.
  pose proof (buildIndex_run api now fs tok authInfo users conversations
                Hws Hauth Husers Hconvs) as Hrun.
  cbv zeta in Hrun. do 2 eexists. split; [exact Hrun|]. simpl.
  intros k. rewrite buildLoop_cursors. simpl.
  apply (advance_fold_greatest _ [] ∅). intros k'. rewrite lookup_empty.
  intros m [].
Qed.

(** X13. After a full sync every stored row with a positive date lies in
    the date range of the stats: [oldestMessage <= date * 1000 <=
    newestMessage]. *)
Theorem buildIndex_date_range now fs tok authInfo users conversations :
  defaultWorkspace fs = Some tok ->
  testAuth api = Some authInfo ->
  listUsers api = Some users ->
  listConversations api = Some conversations ->
  exists fs' stats table,
    buildIndex api now fs = (fs', inr stats)
    /\ INDEX_DB fs' = Some table
    /\ forall r, In r table -> 0 < row_date r ->
         oldestMessage stats <= row_date r * 1000 <= newestMessage stats.
Proof.
  intros Hws Hauth Husers Hconvs.
  pose proof (buildIndex_run api now fs tok authInfo users conversations
                Hws Hauth Husers Hconvs) as Hrun.
  cbv zeta in Hrun. do 3 eexists. split; [exact Hrun|].
  split; [reflexivity|]. simpl. intros r Hr Hpos.
  destruct (insertBatch_extends (userMapOf users) (userId authInfo)
              (collectedBy api (userMapOf users) conversations) [])
    as (extra & E & Hfrom & _).
  rewrite E in Hr. simpl in Hr. rewrite List.Forall_forall in Hfrom.
  destruct (Hfrom r Hr) as (m & Hm & Hb).
  destruct Hb as (_ & _ & _ & _ & _ & Hdate & _).
  set (st0 := {| oldestDate := None; newestDate := 0; cursors := ∅;
                 db := []; batch := [] |}).
  pose proof (buildLoop_newest (userMapOf users) (userId authInfo) _ st0 m Hm) as Hn.
  destruct (buildLoop_oldest (userMapOf users) (userId authInfo) _ st0 m Hm)
    as (o & Ho & Hle).
  rewrite Ho. rewrite <- Hdate in *.
  destruct (Z.eqb_spec (newestDate (fold_left (buildStep (userMapOf users)
                                      (userId authInfo))
                                      (collectedBy api (userMapOf users) conversations)
                                      st0)) 0); lia.
Qed.

End FullSyncStats.

(** ** The indexer: incremental sync, writes and failures *)

Section IncrementalWrites.

Variable api : SlackApi.

Local Ltac quiet_run :=
  split; [reflexivity|]; split; [first [reflexivity | assumption]|];
  split; [intros _; reflexivity|];
  split; [intros e _; split; first [reflexivity | assumption]
         | intros stats E; discriminate E].

(** X14. An incremental sync never writes the user cache or the
    configuration. It writes nothing at all when it returns [null], when it
    fails before the database is opened (no workspace, authentication,
    conversation listing), and when it fails on a missing fuzzy.json.
    Whenever it fails, fuzzy.json and stats.json are as before; when it
    returns stats, these are the stats stored. *)
Theorem updateIndex_writes_last now fs fs' r :
  updateIndex api now fs = (fs', r) ->
  USERS_CACHE fs' = USERS_CACHE fs
  /\ defaultWorkspace fs' = defaultWorkspace fs
  /\ (r = inr None \/ r = inl NoWorkspace \/ r = inl AuthenticationFailed
      \/ r = inl ListConversationsFailed \/ r = inl FuzzyFileMissing ->
      fs' = fs)
  /\ (forall e, r = inl e ->
        FUZZY_INDEX fs' = FUZZY_INDEX fs /\ STATS fs' = STATS fs)
  /\ (forall stats, r = inr (Some stats) -> STATS fs' = Some stats).
Proof.
  unfold updateIndex.
  destruct (getStats fs) as [existing|]; [|intros H; injection H as <- <-; quiet_run].
  destruct (Nat.eqb _ 0); [intros H; injection H as <- <-; quiet_run|].
  destruct (defaultWorkspace fs) eqn:Hws; [|intros H; injection H as <- <-; quiet_run].
  destruct (testAuth api) as [authInfo|]; [|intros H; injection H as <- <-; quiet_run].
  destruct (listConversations api) as [conversations|]; [|intros H; injection H as <- <-; quiet_run].
  destruct (fold_left _ conversations _) as [newMessages updatedCursors].
  destruct newMessages as [|m l].
  { intros H. injection H as <- <-.
    split; [reflexivity|]. split; [simpl; auto|].
    split; [intros [E|[E|[E|[E|E]]]]; discriminate E|].
    split; [intros e E; discriminate E|].
    intros stats E. injection E as <-. reflexivity. }
  destruct (INDEX_DB fs); [|intros H; injection H as <- <-; quiet_run].
  destruct (FUZZY_INDEX fs) eqn:Hfz; [|intros H; injection H as <- <-; quiet_run].
  destruct (addAll _ _); intros H; injection H as <- <-.
  - split; [reflexivity|]. split; [simpl; auto|].
    split; [intros [E|[E|[E|[E|E]]]]; discriminate E|].
    split; [intros e E; discriminate E|].
    intros stats E. injection E as <-. reflexivity.
  - split; [reflexivity|]. split; [simpl; auto|].
    split; [intros [E|[E|[E|[E|E]]]]; discriminate E|].
    split; [intros e _; simpl; auto|].
    intros stats E. discriminate E.
Qed.

Lemma in_ts_list_In tsList r :
  in_ts_list tsList r = true <-> In (row_ts r) tsList.
Proof.
  unfold in_ts_list. rewrite existsb_exists. split.
  - intros (x & Hx & E). apply String.eqb_eq in E. now rewrite E.
  - intros H. exists (row_ts r). split; [exact H|apply String.eqb_refl].
Qed.

Lemma filter_none {A} (f : A -> bool) l :
  (forall x, In x l -> f x = false) -> List.filter f l = [].
Proof.
  induction l as [|x l IH]; intros H; simpl; [reflexivity|].
  rewrite (H x) by now left. apply IH. intros y Hy. apply H. now right.
Qed.

Lemma perm_has_doc idx t r :
  Permutation (map id idx) (map row_id t) -> In r t ->
  has_doc idx (row_id r) = true.
Proof.
  intros Hp Hr. apply has_doc_In. eapply Permutation_in; [symmetry; exact Hp|].
  now apply in_map.
Qed.

(** X15. An incremental sync that returns stats keeps the indexes and the
    stats in step: if before the sync the fuzzy index held one document per
    stored row and [totalMessages] was the number of rows, the same holds
    after it, and the table after the sync is the old table followed by
    the new rows. *)
Theorem updateIndex_keeps_in_sync now fs fs' stats :
  in_sync fs ->
  updateIndex api now fs = (fs', inr (Some stats)) ->
  in_sync fs'
  /\ STATS fs' = Some stats
  /\ exists t extra,
       INDEX_DB fs = Some t /\ INDEX_DB fs' = Some (t ++ extra)
       /\ totalMessages stats
          = Z.of_nat (List.length t) + Z.of_nat (List.length extra).
Proof.
  intros (t & idx & st & Hdb & Hfz & Hst & Hperm & Hnd & Htotal).
  unfold updateIndex, getStats. rewrite Hst.
  destruct (Nat.eqb _ 0); [discriminate|].
  destruct (defaultWorkspace fs); [|discriminate].
  destruct (testAuth api) as [authInfo|]; [|discriminate].
  destruct (listConversations api) as [conversations|]; [|discriminate].
  destruct (fold_left _ conversations _) as [newMessages updatedCursors].
  destruct newMessages as [|m0 l0].
  { intros H. injection H as <- <-. split; [|split].
    - exists t, idx. eexists. simpl. repeat split; eauto.
    - reflexivity.
    - exists t, []. simpl. rewrite app_nil_r. repeat split; auto. lia. }
  rewrite Hdb, Hfz.
  set (newMessages := m0 :: l0).
  destruct (insertBatch_extends (loadUsersCache fs) (userId authInfo)
              newMessages t) as (extra & E & Hfrom & Hnew & Hids).
  rewrite E.
  assert (Hextra : List.filter (in_ts_list (map raw_ts newMessages)) extra = extra).
  { apply filter_all. eapply List.Forall_impl; [|exact Hfrom].
    intros r (m & Hm & Hb). apply in_ts_list_In.
    destruct Hb as (-> & _). now apply in_map. }
  rewrite List.filter_app, Hextra.
  destruct (addAll idx _) as [idx'|] eqn:Eadd; [|discriminate].
  apply addAll_result in Eadd as [-> Hfresh].
  assert (Hold : List.filter (in_ts_list (map raw_ts newMessages)) t = []).
  { apply filter_none. intros r Hr.
    destruct (in_ts_list _ r) eqn:Ein; [|reflexivity]. exfalso.
    assert (Hd : In (rowToIndexed r)
                   (map rowToIndexed
                      (List.filter (in_ts_list (map raw_ts newMessages)) t ++ extra))).
    { apply in_map, in_or_app. left. apply filter_In. auto. }
    apply Hfresh in Hd. simpl in Hd.
    rewrite (perm_has_doc idx t r Hperm Hr) in Hd. discriminate. }
  rewrite Hold. simpl app.
  intros H. injection H as <- <-. split; [|split].
  - exists (t ++ extra), (idx ++ map rowToIndexed extra). eexists.
    simpl. repeat split.
    + rewrite !map_app, map_map. simpl.
      change (fun x : Row => row_id x) with row_id.
      now apply Permutation_app_tail.
    + now apply Hids.
    + rewrite length_map, length_app, Htotal. simpl. lia.
  - reflexivity.
  - exists t, extra. repeat split. simpl. rewrite length_map, Htotal. lia.
Qed.

Lemma addAll_duplicate ms docs d :
  In d docs -> has_doc ms (id d) = true -> addAll ms docs = None.
Proof.
  intros Hd Hdup. destruct (addAll ms docs) as [ms'|] eqn:E; [|reflexivity].
  apply addAll_result in E as [_ Hfresh]. rewrite (Hfresh d Hd) in Hdup.
  discriminate.
Qed.

(** What the model computes when a stored [ts] is collected again. *)
Lemma updateIndex_refetch_run now fs existing tok authInfo conversations
    t idx m :
  getStats fs = Some existing ->
  conversationCursors existing <> ∅ ->
  defaultWorkspace fs = Some tok ->
  testAuth api = Some authInfo ->
  listConversations api = Some conversations ->
  INDEX_DB fs = Some t ->
  FUZZY_INDEX fs = Some idx ->
  (forall r, In r t -> has_doc idx (row_id r) = true) ->
  In m (fst (observed api fs existing conversations)) ->
  has_ts t (raw_ts m) = true ->
  updateIndex api now fs
  = (writeIndexDb
       (insertBatch (loadUsersCache fs) (userId authInfo) t
          (fst (observed api fs existing conversations))) fs,
     inl DuplicateID).
Proof.
  intros Hst Hcur Hws Hauth Hconvs Hdb Hfz Hdocs Hm Hts.
  unfold updateIndex. rewrite Hst.
  destruct (Nat.eqb_spec (size (conversationCursors existing)) 0) as [E|_].
  { apply map_size_empty_iff in E. contradiction. }
  rewrite Hws, Hauth, Hconvs. unfold observed in *.
  destruct (fold_left _ conversations _) as [newMessages updatedCursors].
  simpl in Hm. destruct newMessages as [|m0 l0]; [destruct Hm|].
  rewrite Hdb, Hfz. set (newMessages := m0 :: l0) in *.
  apply has_ts_In, in_map_iff in Hts as (r & Hr & Hin).
  rewrite (addAll_duplicate idx _ (rowToIndexed r)); [reflexivity| |].
  - apply in_map, filter_In. split.
    + destruct (insertBatch_extends (loadUsersCache fs) (userId authInfo)
                  newMessages t) as (extra & -> & _).
      apply in_or_app. now left.
    + apply in_ts_list_In. rewrite Hr. now apply in_map.
  - simpl. now apply Hdocs.
Qed.

(** X16. When an incremental sync collects a message whose [ts] is already
    stored, and the fuzzy index holds the document of that row, the sync
    fails on the duplicate id. The stored rows are kept and rows of other
    collected messages, with a [ts] not stored before, are committed to
    index.db after them; the fuzzy index, the stats with their cursors and
    the user cache stay as they were. *)
Theorem updateIndex_refetch_fails now fs existing tok authInfo conversations
    t idx m :
  getStats fs = Some existing ->
  conversationCursors existing <> ∅ ->
  defaultWorkspace fs = Some tok ->
  testAuth api = Some authInfo ->
  listConversations api = Some conversations ->
  INDEX_DB fs = Some t ->
  FUZZY_INDEX fs = Some idx ->
  (forall r, In r t -> has_doc idx (row_id r) = true) ->
  In m (fst (observed api fs existing conversations)) ->
  has_ts t (raw_ts m) = true ->
  exists fs' extra,
    updateIndex api now fs = (fs', inl DuplicateID)
    /\ INDEX_DB fs' = Some (t ++ extra)
    /\ Forall (fun r =>
         has_ts t (row_ts r) = false
         /\ exists m', In m' (fst (observed api fs existing conversations))
              /\ row_ts r = raw_ts m' /\ row_text r = raw_text m'
              /\ chat_id r = raw_channelId m') extra
    /\ FUZZY_INDEX fs' = Some idx
    /\ STATS fs' = Some existing
    /\ USERS_CACHE fs' = USERS_CACHE fs.
Proof.
  intros Hst Hcur Hws Hauth Hconvs Hdb Hfz Hdocs Hm Hts.
  pose proof (updateIndex_refetch_run now fs existing tok authInfo
                conversations t idx m Hst Hcur Hws Hauth Hconvs Hdb Hfz
                Hdocs Hm Hts) as Hrun.
  destruct (insertBatch_extends (loadUsersCache fs) (userId authInfo)
              (fst (observed api fs existing conversations)) t)
    as (extra & E & Hfrom & Hnew & _).
  rewrite E in Hrun. eexists _, extra. split; [exact Hrun|]. simpl.
  split; [reflexivity|]. split; [|auto].
  rewrite List.Forall_forall in *. intros r Hr. split; [now apply Hnew|].
  destruct (Hfrom r Hr) as (m' & Hm' & H1 & H2 & _ & _ & H5 & _).
  exists m'. auto.
Qed.

(** X17. [index --update] on an installation without stats, or with stats
    whose cursor map is empty, does what a plain [index] does: the
    incremental sync returns [null] without a write and the full sync runs
    on the same files. *)
Theorem indexCommand_falls_back now fs :
  (getStats fs = None
   \/ exists st, getStats fs = Some st /\ conversationCursors st = ∅) ->
  updateIndex api now fs = (fs, inr None)
  /\ indexCommand true api now fs = buildIndex api now fs.
Proof.
  intros H.
  assert (Hnull : updateIndex api now fs = (fs, inr None)).
  { unfold updateIndex. destruct H as [->|(st & -> & ->)]; reflexivity. }
  split; [exact Hnull|]. unfold indexCommand. now rewrite Hnull.
Qed.

End IncrementalWrites.

(** ** Slack timestamps: the string order and the dates *)

Section Timestamps.

Lemma digit_code c :
  Z.of_nat (nat_of_ascii c) = Z.of_N (N_of_ascii c).
Proof. unfold nat_of_ascii. apply N_nat_Z. Qed.

Lemma leading_digits_bounds a x :
  all_digits a = true -> 0 <= x ->
  x * 10 ^ Z.of_nat (String.length a) <= leading_digits a x
  < (x + 1) * 10 ^ Z.of_nat (String.length a).
Proof.
  revert x. induction a as [|c a IH]; intros x Hd Hx; simpl.
  - lia.
  - simpl in Hd. apply andb_true_iff in Hd as [Hc Ha]. rewrite Hc.
    apply andb_true_iff in Hc as [H1 H2].
    apply Z.leb_le in H1, H2.
    set (d := Z.of_nat (nat_of_ascii c) - 48) in *.
    assert (0 <= 10 * x + d) by lia.
    specialize (IH (10 * x + d) Ha H).
    replace (Z.of_nat (S (String.length a)))
      with (Z.succ (Z.of_nat (String.length a))) by lia.
    rewrite Z.pow_succ_r by lia.
    assert (0 < 10 ^ Z.of_nat (String.length a)) by (apply Z.pow_pos_nonneg; lia).
    nia.
Qed.

Lemma leading_digits_stop a r x :
  all_digits a = true -> leading_digits (a +:+ "." +:+ r) x = leading_digits a x.
Proof.
  revert x. induction a as [|c a IH]; intros x Hd.
  - reflexivity.
  - simpl in Hd. apply andb_true_iff in Hd as [Hc Ha].
    rewrite append_cons. simpl. rewrite Hc. now apply IH.
Qed.

Lemma compare_append a b r1 r2 :
  String.length a = String.length b ->
  String.compare (a +:+ r1) (b +:+ r2)
  = match String.compare a b with
    | Eq => String.compare r1 r2
    | ne => ne
    end.
Proof.
  revert b. induction a as [|c a IH]; intros [|d b] Hlen; try discriminate.
  - reflexivity.
  - rewrite !append_cons. simpl. injection Hlen as Hlen.
    destruct (Ascii.compare c d); try reflexivity. now apply IH.
Qed.

Lemma compare_digits a b x :
  all_digits a = true -> all_digits b = true ->
  String.length a = String.length b -> 0 <= x ->
  match String.compare a b with
  | Eq => a = b
  | Lt => leading_digits a x < leading_digits b x
  | Gt => leading_digits b x < leading_digits a x
  end.
Proof.
  revert b x. induction a as [|c a IH]; intros [|d b] x Ha Hb Hlen Hx;
    try discriminate; [reflexivity|].
  simpl in Ha, Hb. apply andb_true_iff in Ha as [Hc Ha], Hb as [Hd Hb].
  injection Hlen as Hlen. simpl. rewrite Hc, Hd.
  apply andb_true_iff in Hc as [Hc1 Hc2], Hd as [Hd1 Hd2].
  apply Z.leb_le in Hc1, Hc2, Hd1, Hd2.
  set (dc := Z.of_nat (nat_of_ascii c) - 48) in *.
  set (dd := Z.of_nat (nat_of_ascii d) - 48) in *.
  assert (Hpow : 0 < 10 ^ Z.of_nat (String.length a))
    by (apply Z.pow_pos_nonneg; lia).
  pose proof (leading_digits_bounds a (10 * x + dc) Ha ltac:(lia)) as Ba.
  pose proof (leading_digits_bounds b (10 * x + dd) Hb ltac:(lia)) as Bb.
  rewrite <- Hlen in Bb.
  unfold Ascii.compare. destruct (N.compare_spec (N_of_ascii c) (N_of_ascii d))
    as [E|E|E].
  - assert (c = d) by (rewrite <- (ascii_N_embedding c), <- (ascii_N_embedding d);
                       now rewrite E).
    subst d. specialize (IH b (10 * x + dc) Ha Hb Hlen ltac:(lia)).
    destruct (String.compare a b); [now subst | exact IH | exact IH].
  - assert (dc + 1 <= dd) by (unfold dc, dd; rewrite !digit_code; lia). nia.
  - assert (dd + 1 <= dc) by (unfold dc, dd; rewrite !digit_code; lia). nia.
Qed.

Lemma split_dot_parts a r :
  all_digits a = true -> split_dot (a +:+ "." +:+ r) = (a, Some r).
Proof.
  induction a as [|c a IH]; intros Hd; [reflexivity|].
  simpl in Hd. apply andb_true_iff in Hd as [Hc Ha].
  rewrite append_cons. simpl. rewrite (IH Ha).
  destruct (Ascii.eqb_spec c "."); [|reflexivity].
  subst c. discriminate Hc.
Qed.

(** X18. On timestamps of Slack's format whose seconds are written with
    the same number of digits, the string comparison of the cursors agrees
    with the dates: a [ts] that compares greater is not earlier, and a
    [ts] with a later second compares greater. *)
Theorem ts_order_is_chronological a b r1 r2 :
  ts_parts a r1 = true -> ts_parts b r2 = true ->
  String.length a = String.length b ->
  let t1 := a +:+ "." +:+ r1 in
  let t2 := b +:+ "." +:+ r2 in
  slack_ts t1 = true /\ slack_ts t2 = true
  /\ slackTsToUnix t1 = leading_digits a 0
  /\ (Js.gt t1 t2 = true -> slackTsToUnix t2 <= slackTsToUnix t1)
  /\ (slackTsToUnix t2 < slackTsToUnix t1 -> Js.gt t1 t2 = true).
Proof.
  intros Pa Pb Hlen t1 t2.
  assert (Ha : all_digits a = true).
  { unfold ts_parts in Pa. repeat (apply andb_true_iff in Pa as [Pa ?]).
    exact Pa. }
  assert (Hb : all_digits b = true).
  { unfold ts_parts in Pb. repeat (apply andb_true_iff in Pb as [Pb ?]).
    exact Pb. }
  split; [|split].
  { unfold slack_ts, t1. now rewrite split_dot_parts. }
  { unfold slack_ts, t2. now rewrite split_dot_parts. }
  unfold slackTsToUnix, t1, t2.
  rewrite !leading_digits_stop by assumption.
  unfold Js.gt, String.ltb. rewrite compare_append by (symmetry; exact Hlen).
  pose proof (compare_digits b a 0 Hb Ha (eq_sym Hlen) ltac:(lia)) as H.
  split; [reflexivity|].
  destruct (String.compare b a); split; intros; subst; try lia;
    try discriminate; reflexivity.
Qed.

(** Without the equal width the two orders part: as strings "9.5" is
    greater than "10.5". *)
Example ts_order_needs_equal_width :
  Js.gt "9.500000" "10.500000" = true
  /\ slackTsToUnix "9.500000" < slackTsToUnix "10.500000".
Proof. split; reflexivity. Qed.

End Timestamps.

(** ** Users and names *)

Section Users.

Lemma find_append {A} (f : A -> bool) l1 l2 :
  List.find f (l1 ++ l2)
  = match List.find f l1 with
    | Some x => Some x
    | None => List.find f l2
    end.
Proof.
  induction l1 as [|x l1 IH]; simpl; [reflexivity|].
  now destruct (f x).
Qed.

Lemma userMapOf_from (users : list SlackUser) (m0 : gmap string SlackUser) i :
  fold_left (fun m u => <[user_id u := u]> m) users m0 !! i
  = match List.find (fun u => String.eqb (user_id u) i) (rev users) with
    | Some u => Some u
    | None => m0 !! i
    end.
Proof.
  revert m0. induction users as [|u users IH]; intros m0; simpl; [reflexivity|].
  rewrite IH, find_append.
  destruct (List.find _ (rev users)); [reflexivity|]. simpl.
  destruct (String.eqb_spec (user_id u) i) as [E|E].
  - now rewrite <- E, lookup_insert_eq.
  - now rewrite lookup_insert_ne.
Qed.

Lemma or_else_chain d r n i :
  Js.or_else (Js.or_else d (Js.or_else r (Js.or_else n "")))
    (Js.or_else (Js.or_else r (Js.or_else n ""))
       (Js.or_else (Js.or_else n "") i))
  = Js.or_else d (Js.or_else r (Js.or_else n i)).
Proof.
  unfold Js.or_else.
  destruct (String.eqb_spec d ""), (String.eqb_spec r ""),
    (String.eqb_spec n ""); subst; simpl;
    repeat match goal with
           | |- context [String.eqb ?x ""] => destruct (String.eqb_spec x "")
           end; congruence.
Qed.

(** X19. With the user map built from the members that [listUsers] keeps,
    the name of a user id in the map is that of a kept member with this id,
    resolved in the order display name, real name, user name, raw id; and
    an id all of whose members are deleted or bots, or that is unknown,
    resolves to the raw id. *)
Theorem resolveUserName_of_members members i :
  let um := userMapOf (usersOfPage members) in
  (forall u, um !! i = Some u ->
     i <> "" /\ user_id u = i
     /\ exists m, In m members /\ m_id m = i
          /\ m_deleted m = false /\ m_is_bot m = false
          /\ resolveUserName um i
             = Js.or_else (m_display_name m)
                 (Js.or_else (m_real_name m) (Js.or_else (m_name m) i)))
  /\ ((forall m, In m members -> m_id m = i ->
         m_deleted m = true \/ m_is_bot m = true) ->
      resolveUserName um i = i).
Proof.
  intros um. unfold um, userMapOf, resolveUserName.
  rewrite userMapOf_from, lookup_empty. split.
  - intros u Hu.
    destruct (List.find _ (rev (usersOfPage members))) as [u'|] eqn:E;
      [|discriminate].
    injection Hu as ->. apply find_some in E as [Hin Hid].
    apply String.eqb_eq in Hid. apply in_rev in Hin.
    unfold usersOfPage in Hin. apply in_map_iff in Hin as (m & Hm & Hin).
    apply filter_In in Hin as [Hin Hkeep].
    apply andb_true_iff in Hkeep as [Hkeep Hidm].
    apply andb_true_iff in Hkeep as [Hdel Hbot].
    subst u. simpl in *. subst i.
    split; [|split; [reflexivity|]].
    + unfold Js.truthy in Hidm.
      destruct (String.eqb_spec (m_id m) ""); [discriminate|assumption].
    + exists m. repeat split; auto.
      * now destruct (m_deleted m).
      * now destruct (m_is_bot m).
      * apply or_else_chain.
  - intros Hall.
    destruct (List.find _ (rev (usersOfPage members))) as [u'|] eqn:E;
      [|reflexivity].
    exfalso. apply find_some in E as [Hin Hid].
    apply String.eqb_eq in Hid. apply in_rev in Hin.
    unfold usersOfPage in Hin. apply in_map_iff in Hin as (m & Hm & Hin).
    apply filter_In in Hin as [Hin Hkeep].
    apply andb_true_iff in Hkeep as [Hkeep _].
    apply andb_true_iff in Hkeep as [Hdel Hbot].
    subst u'. simpl in Hid.
    destruct (Hall m Hin Hid) as [H|H]; rewrite H in *; discriminate.
Qed.

(** X20. A page of channel history keeps only messages with a [ts] and a
    text that is not blank, stamped with the channel asked for. A page of
    thread replies never holds the parent, marks every reply with the
    thread and gives it no replies of its own; it keeps every other entry
    of type message that has a [ts], whatever its text, a blank one too. *)
Theorem pages_keep channel thread messages :
  Forall (fun m => channelId m = channel /\ ts m <> ""
                   /\ Js.all_ws (text m) = false)
    (historyOfPage channel messages)
  /\ Forall (fun m => channelId m = channel /\ ts m <> "" /\ ts m <> thread
                      /\ threadTs m = Some thread /\ replyCount m = 0)
       (repliesOfPage channel thread messages)
  /\ (forall w, In w messages ->
        w_type w = "message" -> w_ts w <> "" -> w_ts w <> thread ->
        exists m, In m (repliesOfPage channel thread messages)
                  /\ ts m = w_ts w /\ text m = w_text w).
Proof.
  split; [|split].
  - apply List.Forall_forall; intros m Hm.
    unfold historyOfPage in Hm. apply in_map_iff in Hm as (w & <- & Hw).
    apply filter_In in Hw as [_ Hw]. simpl.
    repeat (apply andb_true_iff in Hw as [Hw ?]).
    repeat split.
    + unfold Js.truthy in *. destruct (String.eqb_spec (w_ts w) "");
        [discriminate|assumption].
    + destruct (Js.all_ws (w_text w)) eqn:E; [|reflexivity].
      apply trim_empty_iff in E. rewrite E in *. discriminate.
  - apply List.Forall_forall; intros m Hm.
    unfold repliesOfPage in Hm. apply in_map_iff in Hm as (w & <- & Hw).
    apply filter_In in Hw as [_ Hw]. simpl.
    repeat (apply andb_true_iff in Hw as [Hw ?]).
    repeat split.
    + unfold Js.truthy in *. destruct (String.eqb_spec (w_ts w) "");
        [discriminate|assumption].
    + destruct (String.eqb_spec (w_ts w) thread); [discriminate|assumption].
  - intros w Hw Hty Hts Hpar. eexists. split.
    + unfold repliesOfPage. apply in_map, filter_In. split; [exact Hw|].
      rewrite Hty. unfold Js.truthy.
      destruct (String.eqb_spec (w_ts w) thread); [contradiction|].
      destruct (String.eqb_spec (w_ts w) ""); [contradiction|]. reflexivity.
    + simpl. split; [reflexivity|]. unfold Js.or_else.
      now destruct (String.eqb_spec (w_text w) "").
Qed.

End Users.

(** ** The workspace configuration *)

Section Workspaces.

Import Config.

Implicit Types (w : WorkspaceConfig) (ws : Config) (file : option Config).

Lemma findIndex_None i ws :
  findIndex i ws = None <-> forall w, In w ws -> id w <> i.
Proof.
  induction ws as [|x ws IH]; simpl.
  - split; [intros _ w []|reflexivity].
  - destruct (String.eqb_spec (id x) i) as [E|E].
    + split; [discriminate|]. intros H. exfalso. now apply (H x); [left|].
    + destruct (findIndex i ws) as [n|]; simpl.
      * split; [discriminate|]. intros H.
        assert (Hn : Some n = None)
          by (apply IH; intros w Hw; apply H; now right).
        discriminate.
      * split; [|reflexivity]. intros _ w [<-|Hw]; [exact E|].
        now apply IH.
Qed.

Lemma find_replaced i n w ws j :
  findIndex i ws = Some n -> id w = i ->
  List.find (fun x => String.eqb (id x) j) (<[n := w]> ws)
  = if String.eqb i j then Some w
    else List.find (fun x => String.eqb (id x) j) ws.
Proof.
  intros Hn Hw. revert n Hn. induction ws as [|x ws IH]; intros n Hn; simpl in *;
    [discriminate|].
  destruct (String.eqb_spec (id x) i) as [E|E].
  - injection Hn as <-. simpl. rewrite Hw, E. now destruct (String.eqb i j).
  - destruct (findIndex i ws) as [k|]; [|discriminate]. injection Hn as <-.
    simpl. specialize (IH k eq_refl).
    destruct (String.eqb_spec (id x) j) as [Ej|Ej].
    + destruct (String.eqb_spec i j); [congruence|reflexivity].
    + exact IH.
Qed.

Lemma find_appended w ws j :
  (forall x, In x ws -> id x <> id w) ->
  List.find (fun x => String.eqb (id x) j) (ws ++ [w])
  = if String.eqb (id w) j then Some w
    else List.find (fun x => String.eqb (id x) j) ws.
Proof.
  intros Hnew. rewrite find_append. simpl.
  destruct (List.find _ ws) as [x|] eqn:E.
  - apply find_some in E as [Hx Hj]. apply String.eqb_eq in Hj.
    destruct (String.eqb_spec (id w) j); [|reflexivity].
    exfalso. apply (Hnew x Hx). congruence.
  - now destruct (String.eqb (id w) j).
Qed.

(** X21. [addWorkspace] then [getWorkspace] gives the workspace back, and
    the other ids read as before, whether the id was known (its entry is
    replaced) or new (the entry is appended). *)
Theorem addWorkspace_lookup w file j :
  getWorkspace j (addWorkspace w file)
  = if String.eqb (id w) j then Some w else getWorkspace j file.
Proof.
  unfold getWorkspace, addWorkspace, saveConfig.
  destruct (findIndex (id w) (loadConfig file)) as [n|] eqn:E; simpl.
  - now apply find_replaced.
  - apply find_appended. now apply findIndex_None.
Qed.

Lemma insert_ids n w ws :
  findIndex (id w) ws = Some n -> map id (<[n := w]> ws) = map id ws.
Proof.
  revert n. induction ws as [|x ws IH]; intros n Hn; simpl in *; [discriminate|].
  destruct (String.eqb_spec (id x) (id w)) as [E|E].
  - injection Hn as <-. simpl. now rewrite E.
  - destruct (findIndex (id w) ws) as [k|]; [|discriminate]. injection Hn as <-.
    simpl. f_equal. now apply IH.
Qed.

Lemma applyOp_distinct file op :
  List.NoDup (map id (loadConfig file)) ->
  List.NoDup (map id (loadConfig (applyOp file op))).
Proof.
  intros Hnd. destruct op as [w|i]; simpl.
  - unfold addWorkspace, saveConfig.
    destruct (findIndex (id w) (loadConfig file)) as [n|] eqn:E; simpl.
    + now rewrite (insert_ids n w _ E).
    + rewrite map_app. simpl.
      apply NoDup_ListNoDup, NoDup_app. split; [now apply NoDup_ListNoDup|].
      split; [|apply NoDup_singleton].
      intros x Hx Hx'. apply list_elem_of_In in Hx, Hx'.
      destruct Hx' as [<-|[]]. apply in_map_iff in Hx as (y & Hy & Hin).
      rewrite findIndex_None in E. now apply (E y Hin).
  - unfold removeWorkspace, saveConfig.
    destruct (_ <? _)%nat; simpl; [|exact Hnd].
    induction (loadConfig file) as [|x ws IH]; simpl; [constructor|].
    inversion Hnd as [|? ? Hx Hnd']; subst.
    destruct (negb _); simpl; [|now apply IH].
    constructor; [|now apply IH].
    intros Hin. apply Hx. apply in_map_iff in Hin as (y & Hy & Hin).
    apply filter_In in Hin as [Hin _]. rewrite <- Hy. now apply in_map.
Qed.

(** X22. Starting from no config file, after any run of [addWorkspace] and
    [removeWorkspace] no two configured workspaces share an id. *)
Theorem workspace_ids_distinct (ops : list ConfigOp) :
  List.NoDup (map id (listWorkspaces (fold_left applyOp ops None))).
Proof.
  unfold listWorkspaces.
  assert (H : forall file, List.NoDup (map id (loadConfig file)) ->
                List.NoDup (map id (loadConfig (fold_left applyOp ops file)))).
  { induction ops as [|op ops IH]; intros file Hnd; simpl; [exact Hnd|].
    apply IH, applyOp_distinct, Hnd. }
  apply H. constructor.
Qed.

Lemma find_filter_ne i j ws :
  i <> j ->
  List.find (fun x => String.eqb (id x) j)
    (List.filter (fun x => negb (String.eqb (id x) i)) ws)
  = List.find (fun x => String.eqb (id x) j) ws.
Proof.
  intros Hne. induction ws as [|x ws IH]; simpl; [reflexivity|].
  destruct (String.eqb_spec (id x) i) as [E|E]; simpl.
  - destruct (String.eqb_spec (id x) j); [congruence|exact IH].
  - destruct (String.eqb (id x) j); [reflexivity|exact IH].
Qed.

Lemma filter_length_lt i ws :
  (List.length (List.filter (fun x => negb (String.eqb (id x) i)) ws)
   <? List.length ws)%nat
  = match List.find (fun x => String.eqb (id x) i) ws with
    | Some _ => true
    | None => false
    end.
Proof.
  assert (Hle : forall l, (List.length
                   (List.filter (fun x => negb (String.eqb (id x) i)) l)
                 <= List.length l)%nat).
  { induction l as [|y l IHl]; simpl; [lia|]. destruct (negb _); simpl; lia. }
  induction ws as [|x ws IH]; simpl; [reflexivity|].
  destruct (String.eqb (id x) i); simpl.
  - apply Nat.ltb_lt. specialize (Hle ws). lia.
  - rewrite <- IH.
    set (k := List.length (List.filter _ ws)). set (n := List.length ws).
    destruct (Nat.ltb_spec k n); [apply Nat.ltb_lt | apply Nat.ltb_ge]; lia.
Qed.

(** X23. [removeWorkspace] returns [true] exactly when the id was
    configured. Afterwards the id is gone and every other id reads as
    before; when it returns [false] the file is not written. *)
Theorem removeWorkspace_lookup i file :
  let '(file', removed) := removeWorkspace i file in
  (removed = true <-> getWorkspace i file <> None)
  /\ getWorkspace i file' = None
  /\ (forall j, j <> i -> getWorkspace j file' = getWorkspace j file)
  /\ (removed = false -> file' = file).
Proof.
  unfold removeWorkspace, getWorkspace, saveConfig.
  rewrite filter_length_lt.
  destruct (List.find _ (loadConfig file)) as [x|] eqn:E.
  - split; [split; [discriminate|reflexivity]|]. split; [|split].
    + simpl. destruct (List.find _ (List.filter _ _)) as [y|] eqn:E';
        [|reflexivity].
      apply find_some in E' as [Hy Hi]. apply filter_In in Hy as [_ Hy].
      rewrite Hi in Hy. discriminate.
    + intros j Hj. simpl. apply find_filter_ne. congruence.
    + discriminate.
  - split; [split; [discriminate|congruence]|]. split; [exact E|].
    split; [reflexivity|reflexivity].
Qed.

(** X24. The default workspace, the one the indexer uses, is the oldest
    one configured: the first workspace added to an empty configuration
    becomes the default, adding or re-adding any other workspace, and
    removing any other workspace, leaves the default as it is. *)
Theorem default_workspace_stable w file d :
  getDefaultWorkspace (addWorkspace w None) = Some w
  /\ (getDefaultWorkspace file = Some d -> id w <> id d ->
      getDefaultWorkspace (addWorkspace w file) = Some d)
  /\ (forall i, getDefaultWorkspace file = Some d -> i <> id d ->
        getDefaultWorkspace (fst (removeWorkspace i file)) = Some d).
Proof.
  split; [reflexivity|]. unfold getDefaultWorkspace. split.
  - intros Hd Hne. unfold addWorkspace, saveConfig.
    destruct (loadConfig file) as [|x ws]; [discriminate|].
    simpl in Hd. injection Hd as ->. simpl.
    destruct (String.eqb_spec (id d) (id w)); [congruence|].
    now destruct (findIndex (id w) ws).
  - intros i Hd Hne. unfold removeWorkspace, saveConfig.
    destruct (_ <? _)%nat; [|exact Hd]. simpl.
    destruct (loadConfig file) as [|x ws]; [discriminate|].
    simpl in Hd. injection Hd as ->. simpl.
    now destruct (String.eqb_spec (id d) i); [congruence|].
Qed.

End Workspaces.

(** ** The searcher: what a sender-only request returns *)

Section SenderOnlyResults.

Variable ms : MiniSearch -> string -> list SearchResult.

(** X25. A sender-only request with an ASCII sender, on a table whose
    sender names are ASCII, returns at most [limit] hits, newest first.
    Each hit is a stored row that is not self-authored, carries the score
    1, respects the date floor, and matches the sender pattern of the LIKE
    test; when the sender given has no LIKE wildcard, the name of the hit
    contains it up to case. *)
Theorem search_sender_only_results options fs c db c' f :
  0 <= limit options ->
  getDb fs c = (inr db, c') ->
  from options = Some f -> f <> "" -> noTextQuery (query options) ->
  ascii_text f = true ->
  Forall (fun r => ascii_text (row_sender r) = true) db ->
  exists l,
    search ms options fs c = (inr l, c')
    /\ Z.of_nat (List.length l) <= limit options
    /\ StronglySorted (desc_rel (fun r => date (message r))) (map result l)
    /\ Forall (sender_hit db f (opt_after options)) (map result l)
    /\ (wildcard_free f ->
        Forall (fun r => contains_ci (sender (message r)) f) (map result l)).
Proof.
  intros Hl Hdb Hf Hne Hq _ _. eexists. split.
  { exact (search_sender_only ms options fs c db c' f Hdb Hf Hne Hq). }
  rewrite length_map, map_map. simpl. rewrite map_id.
  destruct (searchBySender_sound db f (opt_after options) (limit options) Hl)
    as (H1 & H2 & H3).
  repeat split; auto. intros Hw. now apply searchBySender_substring.
Qed.

End SenderOnlyResults.

(** ** The indexer: more on what a sync collects *)

Section Collecting.

Variable api : SlackApi.

Lemma fetchMessages_acc conv channelName msgs all :
  fetchMessages api conv channelName msgs all
  = all ++ fetchMessages api conv channelName msgs [].
Proof.
  revert all. induction msgs as [|msg rest IH]; intros all; simpl.
  - now rewrite app_nil_r.
  - destruct (0 <? replyCount msg).
    + destruct (getThreadReplies api conv (ts msg)) as [replies|];
        [|reflexivity].
      rewrite IH, (IH (_ :: _)). now rewrite <- !app_assoc.
    + rewrite IH, (IH [_]). now rewrite <- app_assoc.
Qed.

Lemma fetchMessages_stamped conv channelName msgs :
  Forall (fun m => channelId m = conv) msgs ->
  Forall (fun m => raw_channelId m = conv /\ raw_channelName m = channelName)
    (fetchMessages api conv channelName msgs []).
Proof.
  induction 1 as [|msg rest Hmsg _ IH]; simpl; [constructor|].
  assert (Hreplies : forall replies,
            getThreadReplies api conv (ts msg) = Some replies ->
            Forall (fun m => raw_channelId m = conv
                             /\ raw_channelName m = channelName)
              (map (toRaw channelName) replies)).
  { intros replies E. unfold getThreadReplies in E.
    destruct (conversations_replies api conv (ts msg)) as [l|]; [|discriminate].
    injection E as <-. apply List.Forall_forall. intros m Hm.
    apply in_map_iff in Hm as (x & <- & Hx).
    apply in_map_iff in Hx as (y & <- & _). now split. }
  destruct (0 <? replyCount msg).
  - destruct (getThreadReplies api conv (ts msg)) as [replies|] eqn:E.
    + rewrite fetchMessages_acc. constructor; [now split|].
      apply Forall_app. split; [now apply Hreplies | exact IH].
    + repeat constructor. exact Hmsg.
  - rewrite fetchMessages_acc. constructor; [now split | exact IH].
Qed.

Lemma history_stamped channel oldest msgs :
  getConversationHistory api channel oldest = Some msgs ->
  Forall (fun m => channelId m = channel) msgs.
Proof.
  unfold getConversationHistory.
  destruct (conversations_history api channel oldest) as [l|]; [|discriminate].
  intros E. injection E as <-. apply List.Forall_forall. intros m Hm.
  apply in_map_iff in Hm as (x & <- & _). reflexivity.
Qed.

(** X26. A full sync collects conversation by conversation, and what it
    collects from one does not depend on the others: the whole is the
    concatenation of the parts. A conversation whose history cannot be
    fetched contributes nothing, and every message collected from a
    conversation carries its id and its resolved name. *)
Theorem collected_per_conversation um conversations :
  collectedBy api um conversations
  = concat (map (fetchConversation api um []) conversations)
  /\ Forall (fun conv =>
       (getConversationHistory api (conv_id conv) None = None ->
        fetchConversation api um [] conv = [])
       /\ Forall (fun m => raw_channelId m = conv_id conv
                           /\ raw_channelName m
                              = resolveConversationName um conv)
            (fetchConversation api um [] conv))
       conversations.
Proof.
  split.
  - unfold collectedBy.
    assert (H : forall acc,
              fold_left (fetchConversation api um) conversations acc
              = acc ++ concat (map (fetchConversation api um []) conversations)).
    { induction conversations as [|conv rest IH]; intros acc; simpl.
      - now rewrite app_nil_r.
      - rewrite IH, app_assoc. f_equal. unfold fetchConversation.
        destruct (getConversationHistory api (conv_id conv) None);
          [apply fetchMessages_acc | now rewrite app_nil_r]. }
    apply (H []).
  - apply List.Forall_forall. intros conv _. unfold fetchConversation. split.
    + now intros ->.
    + destruct (getConversationHistory api (conv_id conv) None) as [msgs|] eqn:E;
        [|constructor].
      apply fetchMessages_stamped. eapply history_stamped; exact E.
Qed.

(** The cursors of an incremental sync hold nothing but earlier cursors and
    the [ts] of collected messages. *)
Definition cursors_from (existing : gmap string string)
    (st : list RawSlackMessage * gmap string string) : Prop :=
  forall k t, snd st !! k = Some t ->
    existing !! k = Some t
    \/ exists m, In m (fst st) /\ raw_channelId m = k /\ raw_ts m = t.

Lemma advance_lookup cur k t k' c :
  advance cur k t !! k' = Some c ->
  cur !! k' = Some c \/ (k' = k /\ c = t).
Proof.
  unfold advance. intros H.
  destruct (decide (k = k')) as [->|Hne].
  - destruct (cur !! k') as [c0|] eqn:E.
    + destruct (_ || _).
      * rewrite lookup_insert_eq in H. injection H as <-. now right.
      * rewrite E in H. now left.
    + rewrite lookup_insert_eq in H. injection H as <-. now right.
  - left. destruct (cur !! k) as [c0|]; [destruct (_ || _)|];
      rewrite ?lookup_insert_ne in H by exact Hne; exact H.
Qed.

Lemma checkMessages_cursors_from existing conv channelName msgs st :
  Forall (fun m => channelId m = conv) msgs ->
  cursors_from existing st ->
  cursors_from existing (checkMessages api conv channelName msgs st).
Proof.
  intros Hst. revert st. induction Hst as [|msg rest Hmsg _ IH]; intros st Hinv;
    simpl; [exact Hinv|].
  assert (Hstep : forall extra,
            cursors_from existing
              ((fst st ++ [toRaw channelName msg]) ++ extra,
               advance (snd st) conv (ts msg))).
  { intros extra k t Hk. simpl in *.
    apply advance_lookup in Hk as [Hk|[-> ->]].
    - destruct (Hinv k t Hk) as [H|(m & Hm & H)]; [now left|right].
      exists m. split; [|exact H]. rewrite <- app_assoc.
      apply in_or_app. now left.
    - right. exists (toRaw channelName msg). split; [|now split].
      rewrite <- app_assoc. apply in_or_app. right. now left. }
  destruct (0 <? replyCount msg).
  - destruct (getThreadReplies api conv (ts msg)) as [replies|].
    + apply IH, Hstep.
    + intros k t Hk. simpl in *.
      destruct (Hinv k t Hk) as [H|(m & Hm & H)]; [now left|right].
      exists m. split; [apply in_or_app; now left|exact H].
  - apply IH. specialize (Hstep []). now rewrite app_nil_r in Hstep.
Qed.

Lemma observed_cursors_from userMap existing conversations st :
  cursors_from existing st ->
  cursors_from existing
    (fold_left (checkConversation api userMap existing) conversations st).
Proof.
  revert st. induction conversations as [|conv rest IH]; intros st Hinv; simpl;
    [exact Hinv|].
  apply IH. unfold checkConversation.
  destruct (getConversationHistory api (conv_id conv) (existing !! conv_id conv))
    as [msgs|] eqn:E; [|exact Hinv].
  apply checkMessages_cursors_from; [|exact Hinv].
  eapply history_stamped; exact E.
Qed.

(** X27. An incremental sync that returns stats never lowers or drops a
    cursor, in the order of the string comparison, and invents none: each
    cursor it stores is the earlier cursor of the conversation or the [ts]
    of a message collected for that conversation in this sync. *)
Theorem incremental_cursors_sound now fs fs' existing stats conversations :
  getStats fs = Some existing ->
  listConversations api = Some conversations ->
  updateIndex api now fs = (fs', inr (Some stats)) ->
  cursors_le (conversationCursors existing) (conversationCursors stats)
  /\ forall k t, conversationCursors stats !! k = Some t ->
       conversationCursors existing !! k = Some t
       \/ exists m, In m (fst (observed api fs existing conversations))
                    /\ raw_channelId m = k /\ raw_ts m = t.
Proof.
  intros Hst Hconvs Hrun. split.
  { eapply updateIndex_cursors_monotone; eassumption. }
  revert Hrun. unfold updateIndex. rewrite Hst, Hconvs.
  destruct (Nat.eqb _ 0); [discriminate|].
  destruct (defaultWorkspace fs); [|discriminate].
  destruct (testAuth api) as [authInfo|]; [|discriminate].
  pose proof (observed_cursors_from (loadUsersCache fs)
                (conversationCursors existing) conversations
                ([], conversationCursors existing)) as Hinv.
  unfold observed.
  destruct (fold_left _ conversations _) as [newMessages updatedCursors].
  assert (Hfrom : cursors_from (conversationCursors existing)
                    (newMessages, updatedCursors))
    by (apply Hinv; intros k t Hk; now left).
  destruct newMessages as [|m l].
  - intros H. injection H as _ <-. exact Hfrom.
  - destruct (INDEX_DB fs); [|discriminate].
    destruct (FUZZY_INDEX fs); [|discriminate].
    destruct (addAll _ _); [|discriminate].
    intros H. injection H as _ <-. exact Hfrom.
Qed.

(** X28. A full sync that succeeds persists stats whose three totals are
    those of the table it has just written: the number of rows, of
    distinct chat ids and of distinct sender names. *)
Theorem full_sync_totals now fs tok authInfo users conversations :
  defaultWorkspace fs = Some tok ->
  testAuth api = Some authInfo ->
  listUsers api = Some users ->
  listConversations api = Some conversations ->
  exists fs' stats table,
    buildIndex api now fs = (fs', inr stats)
    /\ STATS fs' = Some stats
    /\ INDEX_DB fs' = Some table
    /\ totalMessages stats = Z.of_nat (List.length table)
    /\ totalChats stats = distinct (map chat_id table)
    /\ totalContacts stats = distinct (map row_sender table).
Proof.
  intros Hws Hauth Husers Hconvs.
  pose proof (buildIndex_run api now fs tok authInfo users conversations
                Hws Hauth Husers Hconvs) as Hrun.
  cbv zeta in Hrun.
  destruct (buildIndex_stats_recomputed api now fs _ _ Hrun)
    as (Hst & table & Hdb & H1 & H2 & H3).
  eexists _, _, table. split; [exact Hrun|]. auto.
Qed.

(** X29. A full sync starts from scratch. Its result and every file it
    leaves depend on the remote, the clock and the configured token only:
    nothing of an earlier index, fuzzy index, stats or user cache survives
    it. *)
Theorem buildIndex_from_scratch now fs1 fs2 tok authInfo users conversations :
  defaultWorkspace fs1 = Some tok ->
  defaultWorkspace fs2 = Some tok ->
  testAuth api = Some authInfo ->
  listUsers api = Some users ->
  listConversations api = Some conversations ->
  buildIndex api now fs1 = buildIndex api now fs2.
Proof.
  intros H1 H2 Hauth Husers Hconvs.
  pose proof (buildIndex_run api now fs1 tok authInfo users conversations
                H1 Hauth Husers Hconvs) as R1.
  pose proof (buildIndex_run api now fs2 tok authInfo users conversations
                H2 Hauth Husers Hconvs) as R2.
  cbv zeta in R1, R2. now rewrite R1, R2.
Qed.

End Collecting.

Section ContactsListing.

Lemma contactsOf_distinct db limit :
  NoDup (map name (contactsOf db limit)).
Proof.
  apply NoDup_ListNoDup. unfold contactsOf.
  set (rows := List.filter contactRow db).
  set (keys := remove_dups (map row_sender rows)).
  set (sorted := Sql.order_by last_desc (map (aggregate rows) keys)).
  assert (Hall : List.NoDup (map name sorted)).
  { eapply Permutation_NoDup.
    - apply Permutation_map, order_by_perm.
    - rewrite map_map. simpl. rewrite map_id.
      apply NoDup_ListNoDup, NoDup_remove_dups. }
  unfold Sql.limit. destruct (limit <? 0); [exact Hall|].
  rewrite <- (firstn_skipn (Z.to_nat limit) sorted), map_app in Hall.
  now apply NoDup_app_remove_r in Hall.
Qed.

(** X30. [getContacts] lists every sender name at most once, the most
    recently active first, and at most [limit] of them. *)
Theorem getContacts_listing limit fs c db c' :
  0 <= limit ->
  getDb fs c = (inr db, c') ->
  exists l,
    getContacts limit fs c = (inr l, c')
    /\ NoDup (map name l)
    /\ StronglySorted (desc_rel lastMessageDate) l
    /\ Z.of_nat (List.length l) <= limit.
Proof.
  intros Hl Hdb. exists (contactsOf db limit). split; [|split; [|split]].
  - unfold getContacts, bind, ensureIndexM, ret. now rewrite Hdb.
  - apply contactsOf_distinct.
  - unfold contactsOf. rewrite limit_firstn by exact Hl.
    apply sorted_firstn. apply (order_by_desc_sorted lastMessageDate).
  - unfold contactsOf. rewrite limit_firstn by exact Hl.
    rewrite length_firstn. lia.
Qed.

End ContactsListing.

(** ** The further statements at sample inputs *)

Lemma wildcard_free_general : wildcard_free "general".
Proof.
  unfold wildcard_free. simpl.
  repeat (constructor; [split; discriminate|]). constructor.
Qed.

Lemma wildcard_free_bob : wildcard_free "bob".
Proof.
  unfold wildcard_free. simpl.
  repeat (constructor; [split; discriminate|]). constructor.
Qed.

Lemma synced_cursors_nonempty : conversationCursors synced_stats <> ∅.
Proof.
  intros E. apply (f_equal (fun m => m !! "C1")) in E.
  vm_compute in E. discriminate.
Qed.

Lemma getRecentMessages_newest_witness :
  0 <= 2
  /\ getDb sample_fs noCaches = (inr sample_db, opened)
  /\ exists kept,
       getRecentMessages 2 sample_fs noCaches
       = (inr (map (fun row => {| rm_message := rowToMessage row;
                                  rm_chatName := chat_name row |}) kept), opened)
       /\ newest_first sample_db (Z.to_nat 2) kept.
Proof.
  split; [lia|]. split; [reflexivity|].
  apply (getRecentMessages_newest 2 sample_fs noCaches sample_db opened);
    [lia|reflexivity].
Defined.

Lemma getConversations_summary_witness :
  0 <= 10
  /\ getDb sample_fs noCaches = (inr sample_db, opened)
  /\ exists l,
       getConversations 10 sample_fs noCaches = (inr l, opened)
       /\ NoDup (map cv_chatId l)
       /\ Forall (conversation_ok sample_db) l.
Proof.
  split; [lia|]. split; [reflexivity|].
  destruct (getConversations_summary 10 sample_fs noCaches sample_db opened)
    as (l & Hrun & Hnd & Hok & _); [lia|reflexivity|].
  exists l. auto.
Defined.

Lemma sample_db_ascii :
  Forall (fun r => ascii_text (chat_name r) = true) sample_db
  /\ Forall (fun r => ascii_text (row_sender r) = true) sample_db.
Proof. split; repeat constructor. Qed.

Lemma getThread_chronological_witness :
  0 <= default 100 None
  /\ wildcard_free "general"
  /\ ascii_text "general" = true
  /\ Forall (fun r => ascii_text (chat_name r) = true) sample_db
  /\ getDb sample_fs noCaches = (inr sample_db, opened)
  /\ exists kept,
       getThread "general" (Some 20000) None sample_fs noCaches
       = (inr (map rowToMessage kept), opened)
       /\ StronglySorted (asc_rel date) (map rowToMessage kept)
       /\ Forall (fun r => contains_ci (chat_name r) "general") kept.
Proof.
  split; [simpl; lia|]. split; [exact wildcard_free_general|].
  split; [reflexivity|]. split; [exact (proj1 sample_db_ascii)|].
  split; [reflexivity|].
  destruct (getThread_chronological "general" (Some 20000) None sample_fs
              noCaches sample_db opened)
    as (kept & Hrun & _ & Hsorted & _ & Hall);
    [simpl; lia | exact wildcard_free_general | reflexivity
     | exact (proj1 sample_db_ascii) | reflexivity|].
  exists kept. split; [exact Hrun|]. split; [exact Hsorted|].
  eapply List.Forall_impl; [|exact Hall]. intros m (_ & H & _). exact H.
Defined.

Lemma browse_raises_without_index_witness :
  INDEX_DB no_files = None
  /\ cachedDb noCaches = None
  /\ forall limit, getRecentMessages limit no_files noCaches
                   = (inl IndexNotFound, noCaches).
Proof.
  split; [reflexivity|]. split; [reflexivity|].
  exact (proj1 (browse_raises_without_index no_files noCaches eq_refl eq_refl)).
Defined.

Lemma search_ignores_blank_text_witness :
  noTextQuery (query from_bob) /\ noTextQuery (query from_bob_star)
  /\ search sample_search from_bob sample_fs noCaches
     = search sample_search from_bob_star sample_fs noCaches.
Proof.
  assert (H1 : noTextQuery (query from_bob)) by now left.
  assert (H2 : noTextQuery (query from_bob_star))
    by (right; exists "*"; split; [reflexivity|right; now left]).
  split; [exact H1|]. split; [exact H2|].
  exact (search_ignores_blank_text sample_search from_bob from_bob_star
           sample_fs noCaches H1 H2 eq_refl eq_refl eq_refl eq_refl).
Defined.

Lemma search_without_fuzzy_index_witness :
  INDEX_DB table_only_fs = Some sample_db
  /\ FUZZY_INDEX table_only_fs = None
  /\ search sample_search deadline_from_alice table_only_fs noCaches
     = (inl FuzzyIndexNotFound, opened)
  /\ exists l, search sample_search from_bob table_only_fs noCaches
               = (inr l, opened).
Proof.
  split; [reflexivity|]. split; [reflexivity|]. split.
  - apply (proj1 (search_without_fuzzy_index sample_search deadline_from_alice
                    table_only_fs sample_db eq_refl eq_refl));
      [reflexivity | intros q E; injection E as <-; reflexivity].
  - destruct (proj2 (search_without_fuzzy_index sample_search from_bob
                       table_only_fs sample_db eq_refl eq_refl)
                eq_refl eq_refl) as (l & Hrun & _).
    exists l. exact Hrun.
Defined.

Lemma searchByText_unfiltered_witness :
  0 <= 2
  /\ noFrom None
  /\ getMiniSearch sample_fs noCaches
     = (inr (map rowToIndexed sample_db),
        {| cachedDb := None;
           cachedMiniSearch := Some (map rowToIndexed sample_db) |})
  /\ searchByText sample_search "deadline" None None 2 sample_fs noCaches
     = (inr (firstn (Z.to_nat 2)
               (sample_search (map rowToIndexed sample_db) "deadline")),
        {| cachedDb := None;
           cachedMiniSearch := Some (map rowToIndexed sample_db) |}).
Proof.
  assert (Hf : noFrom None) by now left.
  split; [lia|]. split; [exact Hf|]. split; [reflexivity|].
  apply (searchByText_unfiltered sample_search "deadline" None 2 sample_fs
           noCaches); [lia | exact Hf | reflexivity].
Defined.

Lemma search_at_most_limit_witness :
  0 <= limit deadline_from_alice
  /\ exists l c',
       search sample_search deadline_from_alice sample_fs noCaches = (inr l, c')
       /\ Z.of_nat (List.length l) <= limit deadline_from_alice.
Proof.
  split; [simpl; lia|]. do 2 eexists. split; [vm_compute; reflexivity|].
  eapply (search_at_most_limit sample_search deadline_from_alice sample_fs
            noCaches); [simpl; lia | vm_compute; reflexivity].
Defined.

Lemma search_sender_only_results_witness :
  0 <= limit from_bob
  /\ getDb sample_fs noCaches = (inr sample_db, opened)
  /\ from from_bob = Some "bob" /\ "bob" <> "" /\ noTextQuery (query from_bob)
  /\ ascii_text "bob" = true
  /\ Forall (fun r => ascii_text (row_sender r) = true) sample_db
  /\ exists l,
       search sample_search from_bob sample_fs noCaches = (inr l, opened)
       /\ Z.of_nat (List.length l) <= limit from_bob
       /\ Forall (fun r => contains_ci (sender (message r)) "bob") (map result l).
Proof.
  assert (Hq : noTextQuery (query from_bob)) by now left.
  assert (Hne : "bob" <> "") by discriminate.
  split; [simpl; lia|]. split; [reflexivity|]. split; [reflexivity|].
  split; [exact Hne|]. split; [exact Hq|].
  split; [reflexivity|]. split; [exact (proj2 sample_db_ascii)|].
  destruct (search_sender_only_results sample_search from_bob sample_fs
              noCaches sample_db opened "bob")
    as (l & Hrun & Hlen & _ & _ & Hsub);
    [simpl; lia | reflexivity | reflexivity | exact Hne | exact Hq
     | reflexivity | exact (proj2 sample_db_ascii) |].
  exists l. split; [exact Hrun|]. split; [exact Hlen|].
  exact (Hsub wildcard_free_bob).
Defined.

Lemma buildIndex_succeeds_witness :
  defaultWorkspace no_files = Some "xoxp-1"
  /\ testAuth first_api = Some sample_auth
  /\ Forall (fun m => slack_ts (raw_ts m) = true)
       (collectedBy first_api
          (userMapOf [ {| user_id := "U1"; user_name := "alice";
                          user_realName := "Alice A";
                          user_displayName := "Alice" |} ])
          [ sampleChannel "C1" "general" ])
  /\ exists fs' stats table,
       buildIndex first_api 1700000050000 no_files = (fs', inr stats)
       /\ INDEX_DB fs' = Some table
       /\ totalMessages stats = Z.of_nat (List.length table)
       /\ in_sync fs'.
Proof.
  assert (Hts : Forall (fun m => slack_ts (raw_ts m) = true)
                  (collectedBy first_api
                     (userMapOf [ {| user_id := "U1"; user_name := "alice";
                                     user_realName := "Alice A";
                                     user_displayName := "Alice" |} ])
                     [ sampleChannel "C1" "general" ]))
    by (vm_compute; repeat constructor).
  split; [reflexivity|]. split; [reflexivity|]. split; [exact Hts|].
  destruct (buildIndex_succeeds first_api 1700000050000 no_files "xoxp-1"
              sample_auth _ _ eq_refl eq_refl eq_refl eq_refl Hts)
    as (fs' & stats & table & idx & Hrun & Hdb & _ & _ & _ & _ & _ & _
        & _ & _ & _ & Htotal & Hsync).
  exists fs', stats, table. auto.
Defined.

Lemma buildIndex_failure_keeps_index_witness :
  buildIndex refusing_api 0 sample_fs = (sample_fs, inl AuthenticationFailed)
  /\ INDEX_DB sample_fs = INDEX_DB sample_fs
  /\ FUZZY_INDEX sample_fs = FUZZY_INDEX sample_fs
  /\ STATS sample_fs = STATS sample_fs.
Proof.
  split; [reflexivity|].
  destruct (buildIndex_failure_keeps_index refusing_api 0 sample_fs sample_fs
              AuthenticationFailed eq_refl) as (H1 & H2 & H3 & _).
  auto.
Defined.

Lemma buildIndex_cursors_greatest_witness :
  defaultWorkspace no_files = Some "xoxp-1"
  /\ testAuth first_api = Some sample_auth
  /\ exists fs' stats,
       buildIndex first_api 1700000050000 no_files = (fs', inr stats)
       /\ exists c, conversationCursors stats !! "C1" = Some c
                    /\ greatest_ts
                         (collectedBy first_api
                            (userMapOf (default [] (listUsers first_api)))
                            (default [] (listConversations first_api)))
                         "C1" (Some c).
Proof.
  split; [reflexivity|]. split; [reflexivity|].
  destruct (buildIndex_cursors_greatest first_api 1700000050000 no_files
              "xoxp-1" sample_auth _ _ eq_refl eq_refl eq_refl eq_refl)
    as (fs' & stats & Hrun & Hcur).
  exists fs', stats. split; [exact Hrun|].
  specialize (Hcur "C1").
  assert (E : conversationCursors stats !! "C1" = Some "1700000000.000100").
  { vm_compute in Hrun. injection Hrun as _ <-. vm_compute. reflexivity. }
  rewrite E in Hcur. exists "1700000000.000100". split; [exact E|exact Hcur].
Defined.

Lemma buildIndex_date_range_witness :
  defaultWorkspace no_files = Some "xoxp-1"
  /\ testAuth first_api = Some sample_auth
  /\ exists fs' stats table,
       buildIndex first_api 1700000050000 no_files = (fs', inr stats)
       /\ INDEX_DB fs' = Some table
       /\ forall r, In r table -> 0 < row_date r ->
            oldestMessage stats <= row_date r * 1000 <= newestMessage stats.
Proof.
  split; [reflexivity|]. split; [reflexivity|].
  exact (buildIndex_date_range first_api 1700000050000 no_files "xoxp-1"
           sample_auth _ _ eq_refl eq_refl eq_refl eq_refl).
Defined.

Lemma updateIndex_writes_last_witness :
  updateIndex second_channel_api 70000 no_fuzzy_fs
  = (no_fuzzy_fs, inl FuzzyFileMissing)
  /\ USERS_CACHE no_fuzzy_fs = Some ∅
  /\ STATS no_fuzzy_fs = Some sample_stats.
Proof.
  assert (Hrun : updateIndex second_channel_api 70000 no_fuzzy_fs
                 = (no_fuzzy_fs, inl FuzzyFileMissing))
    by (vm_compute; reflexivity).
  split; [exact Hrun|].
  destruct (updateIndex_writes_last second_channel_api 70000 no_fuzzy_fs
              no_fuzzy_fs (inl FuzzyFileMissing) Hrun)
    as (H1 & _ & _ & H4 & _).
  split; [exact H1|]. exact (proj2 (H4 FuzzyFileMissing eq_refl)).
Defined.

Lemma synced_in_sync : in_sync synced_fs.
Proof.
  exists synced_table, synced_index, synced_stats.
  split; [vm_compute; reflexivity|]. split; [vm_compute; reflexivity|].
  split; [vm_compute; reflexivity|].
  split; [vm_compute; reflexivity|].
  split; [vm_compute; repeat constructor; intros []|].
  vm_compute. reflexivity.
Qed.

Lemma updateIndex_keeps_in_sync_witness :
  in_sync synced_fs
  /\ exists fs' stats,
       updateIndex second_channel_api 1700000150000 synced_fs
       = (fs', inr (Some stats))
       /\ in_sync fs'.
Proof.
  split; [exact synced_in_sync|]. do 2 eexists.
  split; [vm_compute; reflexivity|].
  eapply (updateIndex_keeps_in_sync second_channel_api 1700000150000 synced_fs);
    [exact synced_in_sync | vm_compute; reflexivity].
Defined.

Lemma updateIndex_refetch_fails_witness :
  getStats synced_fs = Some synced_stats
  /\ INDEX_DB synced_fs = Some synced_table
  /\ FUZZY_INDEX synced_fs = Some synced_index
  /\ has_ts synced_table "1700000000.000100" = true
  /\ exists fs',
       updateIndex first_api 1700000150000 synced_fs = (fs', inl DuplicateID)
       /\ FUZZY_INDEX fs' = Some synced_index
       /\ STATS fs' = Some synced_stats.
Proof.
  assert (Hrun := updateIndex_refetch_fails first_api 1700000150000 synced_fs
                    synced_stats "xoxp-1" sample_auth
                    [sampleChannel "C1" "general"] synced_table synced_index
                    {| raw_ts := "1700000000.000100"; raw_user := "U1";
                       raw_text := "hello"; raw_channelId := "C1";
                       raw_channelName := "general"; raw_threadTs := None |}).
  assert (Hdocs : forall r, In r synced_table ->
                    has_doc synced_index (row_id r) = true).
  { intros r Hr. vm_compute in Hr. destruct Hr as [<-|[]]. reflexivity. }
  specialize (Hrun ltac:(vm_compute; reflexivity) synced_cursors_nonempty
                   ltac:(vm_compute; reflexivity) ltac:(reflexivity)
                   ltac:(reflexivity) ltac:(vm_compute; reflexivity)
                   ltac:(vm_compute; reflexivity) Hdocs
                   ltac:(vm_compute; left; reflexivity)
                   ltac:(vm_compute; reflexivity)).
  split; [vm_compute; reflexivity|]. split; [vm_compute; reflexivity|].
  split; [vm_compute; reflexivity|]. split; [vm_compute; reflexivity|].
  destruct Hrun as (fs' & extra & Hrun & _ & _ & Hfz & Hst & _).
  exists fs'. auto.
Defined.

Lemma indexCommand_falls_back_witness :
  getStats no_files = None
  /\ indexCommand true first_api 1700000050000 no_files
     = buildIndex first_api 1700000050000 no_files.
Proof.
  split; [reflexivity|].
  exact (proj2 (indexCommand_falls_back first_api 1700000050000 no_files
                  (or_introl eq_refl))).
Defined.

Lemma ts_order_is_chronological_witness :
  ts_parts "1700000100" "000200" = true
  /\ ts_parts "1700000000" "000100" = true
  /\ String.length "1700000100" = String.length "1700000000"
  /\ (Js.gt "1700000100.000200" "1700000000.000100" = true ->
      slackTsToUnix "1700000000.000100" <= slackTsToUnix "1700000100.000200").
Proof.
  split; [reflexivity|]. split; [reflexivity|]. split; [reflexivity|].
  exact (proj1 (proj2 (proj2 (proj2
           (ts_order_is_chronological "1700000100" "1700000000"
              "000200" "000100" eq_refl eq_refl eq_refl))))).
Defined.

Lemma incremental_cursors_sound_witness :
  getStats synced_fs = Some synced_stats
  /\ listConversations thread_api = Some [ sampleChannel "C1" "general" ]
  /\ exists fs' stats,
       updateIndex thread_api 1700000250000 synced_fs = (fs', inr (Some stats))
       /\ cursors_le (conversationCursors synced_stats)
            (conversationCursors stats).
Proof.
  assert (Hst : getStats synced_fs = Some synced_stats)
    by (vm_compute; reflexivity).
  split; [exact Hst|]. split; [reflexivity|]. do 2 eexists.
  split; [vm_compute; reflexivity|].
  eapply (incremental_cursors_sound thread_api 1700000250000 synced_fs);
    [exact Hst | reflexivity | vm_compute; reflexivity].
Defined.

Lemma full_sync_totals_witness :
  defaultWorkspace no_files = Some "xoxp-1"
  /\ testAuth first_api = Some sample_auth
  /\ exists fs' stats table,
       buildIndex first_api 1700000050000 no_files = (fs', inr stats)
       /\ STATS fs' = Some stats
       /\ INDEX_DB fs' = Some table
       /\ totalMessages stats = Z.of_nat (List.length table)
       /\ totalChats stats = distinct (map chat_id table)
       /\ totalContacts stats = distinct (map row_sender table).
Proof.
  split; [reflexivity|]. split; [reflexivity|].
  exact (full_sync_totals first_api 1700000050000 no_files "xoxp-1"
           sample_auth _ _ eq_refl eq_refl eq_refl eq_refl).
Defined.

Lemma buildIndex_from_scratch_witness :
  defaultWorkspace no_files = Some "xoxp-1"
  /\ defaultWorkspace sample_fs = Some "xoxp-1"
  /\ buildIndex first_api 1700000050000 no_files
     = buildIndex first_api 1700000050000 sample_fs.
Proof.
  split; [reflexivity|]. split; [reflexivity|].
  exact (buildIndex_from_scratch first_api 1700000050000 no_files sample_fs
           "xoxp-1" sample_auth _ _ eq_refl eq_refl eq_refl eq_refl eq_refl).
Defined.

Lemma getContacts_listing_witness :
  0 <= 10
  /\ getDb sample_fs noCaches = (inr sample_db, opened)
  /\ exists l,
       getContacts 10 sample_fs noCaches = (inr l, opened)
       /\ NoDup (map name l)
       /\ StronglySorted (desc_rel lastMessageDate) l
       /\ Z.of_nat (List.length l) <= 10.
Proof.
  split; [lia|]. split; [reflexivity|].
  apply (getContacts_listing 10 sample_fs noCaches sample_db opened);
    [lia|reflexivity].
Defined.
